(** * Greenland-AI: forecaster, optimizer and anomaly detector

    A shallow embedding of the three analytical engines of the repository
    ([EnergyForecaster], [EnergyOptimizer], [AnomalyDetector]) and the
    properties their specification states, followed by the code around
    them: the random numbers of [EnergyDataGenerator], the refresh of
    the application and the arithmetic of its two charts.

    Numbers.  A JavaScript [number] is modelled by [num]: a rational
    ([Fin q]) or one of the three special values [PInf], [NInf], [NaN].
    The special values follow IEEE-754 as JavaScript exposes it:
    [x / 0] is an infinity or [NaN], every comparison with [NaN] is
    false, [Math.min] and [Math.max] propagate [NaN]; there is one zero
    only.  The operations of [JS] are exact on finite values; those of
    [Fl] round their result to the nearest double.

    Doubles.  [Binary64.rnd] is the rounding to the nearest double, ties
    to even, with the subnormal range; it is compared with the doubles
    of the machine on samples ([rnd_agrees_with_hardware]).  [Fl] rounds
    the result of each operation and turns a result beyond the largest
    double into an infinity; [Fl.lit] is the double a decimal constant
    of the source denotes.  Properties that depend on the rounding are
    stated over doubles: [Rounded] is the optimizer over these
    operations, and the energy-mix chart and the random numbers of the
    generator are computed with them.  Properties that hold whatever the
    rounding does (signs, orders, clamps, the shape of the results) are
    stated over the exact operations, where the decimal constants of
    the source (0.15, 1.8, ...) are the rationals they denote.

    Dates.  A timestamp is a valid local date, kept as its number of
    whole hours since the epoch; [getHours] and [getDay] are computed
    from it.

    [Math].  [Math.sin], [Math.sqrt] and [Math.PI] are a parameter (the
    class [Math]); [approx_math] is a concrete choice used to run the
    model on sample inputs.

    Names.  Record fields share one name space, so a few fields carry a
    prefix: [e_kwh] is the [kwh] of a sample, [a_timestamp] and
    [a_confidence] are the [timestamp] and [confidence] of an anomaly
    record, [sl_name] the [name] of a shifted load; the parameter
    [batteryLevel] of [optimize] is [level]. *)

From Stdlib Require Import QArith Qround Qabs Qpower Lqa ZArith Lia List Bool String.
From Stdlib Require Floats Uint63.
From stdpp Require Import gmap.
Import ListNotations.

Local Open Scope Q_scope.

(** ** Doubles *)

Module Binary64.

(** [2^e] for any integer [e]. *)
Definition pow2 (e : Z) : Q := Qpower 2 e.

(** The nearest integer, ties to the even one. *)
Definition rne (y : Q) : Z :=
  let f := Qfloor y in
  match Qcompare (y - inject_Z f) (1 # 2) with
  | Datatypes.Lt => f
  | Datatypes.Gt => (f + 1)%Z
  | Datatypes.Eq => if Z.even f then f else (f + 1)%Z
  end.

(** For [0 < x], the exponent with [2^(mag x - 1) <= x < 2^(mag x)]. *)
Definition mag (x : Q) : Z :=
  let e0 := (Z.log2 (Qnum x) - Z.log2 (Zpos (Qden x)))%Z in
  if Qle_bool (pow2 e0) x then (e0 + 1)%Z else e0.

(** The exponent of the last bit of the 53-bit significand of [x], not
    below that of the subnormal numbers. *)
Definition exponent (x : Q) : Z := Z.max (-1074) (mag x - 53).

Definition round_pos (x : Q) : Q :=
  inject_Z (rne (x / pow2 (exponent x))) * pow2 (exponent x).

(** The double nearest to [x], ties to even, as long as it is finite. *)
Definition rnd (x : Q) : Q :=
  match Qcompare x 0 with
  | Datatypes.Eq => 0
  | Datatypes.Gt => round_pos x
  | Datatypes.Lt => - round_pos (- x)
  end.

(** The relative error of one rounding, [2^-53]. *)
Definition eps : Q := 1 # 9007199254740992.

End Binary64.

(** ** Machine doubles, to compare [Binary64.rnd] with *)

Module Hardware.

Import Binary64.

(** The rational a finite machine double denotes. *)
Definition Q_of_float (f : PrimFloat.float) : Q :=
  match FloatOps.Prim2SF f with
  | SpecFloat.S754_finite s m e =>
      (if s then -1 else 1) * inject_Z (Zpos m) * pow2 e
  | _ => 0
  end.

(** The machine double [a / b], for integers below [2^62]. *)
Definition quotient (a b : Z) : PrimFloat.float :=
  PrimFloat.div (PrimFloat.of_uint63 (Uint63Axioms.of_Z a))
    (PrimFloat.of_uint63 (Uint63Axioms.of_Z b)).

(** [rnd] gives the machine result of a sum, a product and a quotient
    of two doubles. *)
Definition agree (x y : PrimFloat.float) : bool :=
  Qeq_bool (rnd (Q_of_float x + Q_of_float y))
    (Q_of_float (PrimFloat.add x y))
  && Qeq_bool (rnd (Q_of_float x - Q_of_float y))
       (Q_of_float (PrimFloat.sub x y))
  && Qeq_bool (rnd (Q_of_float x * Q_of_float y))
       (Q_of_float (PrimFloat.mul x y))
  && Qeq_bool (rnd (Q_of_float x / Q_of_float y))
       (Q_of_float (PrimFloat.div x y)).

Definition samples : list PrimFloat.float :=
  map (fun p => quotient (fst p) (snd p))
    [(1, 10); (3, 10); (1, 3); (13, 100); (375, 1000); (2055, 100);
     (137, 10); (95, 100); (1234, 100); (1, 7); (22, 7); (1000000, 3);
     (1, 1000000007); (4611686018427387903, 3);
     (1, 4611686018427387903)]%Z.

(** A double in the subnormal range of products. *)
Definition tiny : PrimFloat.float :=
  FloatOps.SF2Prim (SpecFloat.S754_finite false 1 (-1070)).

End Hardware.

(** ** JavaScript numbers *)

Module JS.

Inductive num : Type :=
  | Fin (q : Q)
  | PInf
  | NInf
  | NaN.

Definition Qltb (x y : Q) : bool := negb (Qle_bool y x).

Definition is_fin (a : num) : bool :=
  match a with Fin _ => true | _ => false end.

Definition is_nan (a : num) : bool :=
  match a with NaN => true | _ => false end.

(** [a + b] *)
Definition add (a b : num) : num :=
  match a, b with
  | NaN, _ | _, NaN => NaN
  | Fin x, Fin y => Fin (x + y)
  | PInf, NInf | NInf, PInf => NaN
  | PInf, _ | _, PInf => PInf
  | NInf, _ | _, NInf => NInf
  end.

(** [- a] *)
Definition neg (a : num) : num :=
  match a with
  | Fin x => Fin (- x)
  | PInf => NInf
  | NInf => PInf
  | NaN => NaN
  end.

(** [a - b] *)
Definition sub (a b : num) : num := add a (neg b).

(** The infinity whose sign is the sign of [x]; [NaN] at zero
    ([Infinity * 0]). *)
Definition inf_signed (x : Q) : num :=
  if Qltb 0 x then PInf else if Qltb x 0 then NInf else NaN.

(** [a * b] *)
Definition mul (a b : num) : num :=
  match a, b with
  | NaN, _ | _, NaN => NaN
  | Fin x, Fin y => Fin (x * y)
  | Fin x, PInf | PInf, Fin x => inf_signed x
  | Fin x, NInf | NInf, Fin x => inf_signed (- x)
  | PInf, PInf | NInf, NInf => PInf
  | PInf, NInf | NInf, PInf => NInf
  end.

(** [a / b].  A zero divisor is the positive zero. *)
Definition div (a b : num) : num :=
  match a, b with
  | NaN, _ | _, NaN => NaN
  | Fin x, Fin y => if Qeq_bool y 0 then inf_signed x else Fin (x / y)
  | Fin _, _ => Fin 0
  | PInf, Fin y => if Qltb y 0 then NInf else PInf
  | NInf, Fin y => if Qltb y 0 then PInf else NInf
  | _, _ => NaN
  end.

(** [a < b] *)
Definition lt (a b : num) : bool :=
  match a, b with
  | Fin x, Fin y => Qltb x y
  | Fin _, PInf | NInf, Fin _ | NInf, PInf => true
  | _, _ => false
  end.

(** [a > b] *)
Definition gt (a b : num) : bool := lt b a.

(** [a <= b] *)
Definition le (a b : num) : bool :=
  match a, b with
  | Fin x, Fin y => Qle_bool x y
  | NaN, _ | _, NaN => false
  | NInf, _ | _, PInf => true
  | _, _ => false
  end.

(** [a >= b] *)
Definition ge (a b : num) : bool := le b a.

(** [a === b] on numbers *)
Definition strict_eq (a b : num) : bool :=
  match a, b with
  | Fin x, Fin y => Qeq_bool x y
  | PInf, PInf | NInf, NInf => true
  | _, _ => false
  end.

(** Truthiness of a number: [0] and [NaN] are falsy. *)
Definition truthy (a : num) : bool :=
  match a with
  | Fin x => negb (Qeq_bool x 0)
  | NaN => false
  | _ => true
  end.

(** [Math.min(a, b)] *)
Definition min (a b : num) : num :=
  match a, b with
  | NaN, _ | _, NaN => NaN
  | _, _ => if lt b a then b else a
  end.

(** [Math.max(a, b)] *)
Definition max (a b : num) : num :=
  match a, b with
  | NaN, _ | _, NaN => NaN
  | _, _ => if lt a b then b else a
  end.

(** [Math.abs(a)] *)
Definition abs (a : num) : num :=
  match a with
  | Fin x => Fin (Qabs x)
  | PInf | NInf => PInf
  | NaN => NaN
  end.

(** [Math.floor(a)] *)
Definition floor (a : num) : num :=
  match a with
  | Fin x => Fin (inject_Z (Qfloor x))
  | _ => a
  end.

(** [Math.round(a)]: the nearest integer, halves towards [+Infinity]. *)
Definition round (a : num) : num :=
  match a with
  | Fin x => Fin (inject_Z (Qfloor (x + (1 # 2))))
  | _ => a
  end.

(** [Math.pow(a, n)] for a natural exponent. *)
Fixpoint pow (a : num) (n : nat) : num :=
  match n with
  | O => Fin 1
  | S n' => mul a (pow a n')
  end.

Definition of_Z (z : Z) : num := Fin (inject_Z z).
Definition of_nat (n : nat) : num := of_Z (Z.of_nat n).

(** [l.reduce((sum, v) => sum + v, 0)] *)
Definition sum (l : list num) : num := fold_left add l (Fin 0).

Definition Finite (a : num) : Prop := is_fin a = true.

(** The order on non-[NaN] numbers, as a proposition. *)
Definition Le (a b : num) : Prop := le a b = true.
Definition Lt (a b : num) : Prop := lt a b = true.

(** Equality of numbers up to the representation of the rational. *)
Definition Eq (a b : num) : Prop :=
  match a, b with
  | Fin x, Fin y => x == y
  | PInf, PInf | NInf, NInf | NaN, NaN => True
  | _, _ => False
  end.

(** The two outcomes of a comparison of rationals, with what each
    one tells. *)
Inductive Qlt_cases (x y : Q) : bool -> Prop :=
  | Qlt_yes : (x < y)%Q -> Qlt_cases x y true
  | Qlt_no : (y <= x)%Q -> Qlt_cases x y false.

Inductive Qle_cases (x y : Q) : bool -> Prop :=
  | Qle_yes : (x <= y)%Q -> Qle_cases x y true
  | Qle_no : (y < x)%Q -> Qle_cases x y false.

Inductive Qeq_cases (x y : Q) : bool -> Prop :=
  | Qeq_yes : (x == y)%Q -> Qeq_cases x y true
  | Qeq_no : ~ (x == y)%Q -> Qeq_cases x y false.

End JS.

Import JS.

Declare Scope num_scope.
Delimit Scope num_scope with num.
Bind Scope num_scope with num.
Notation "a + b" := (add a b) : num_scope.
Notation "a - b" := (sub a b) : num_scope.
Notation "a * b" := (mul a b) : num_scope.
Notation "a / b" := (div a b) : num_scope.
Notation "a <? b" := (lt a b) (at level 70) : num_scope.
Notation "a >? b" := (gt a b) (at level 70) : num_scope.
Notation "a <=? b" := (le a b) (at level 70) : num_scope.
Notation "a >=? b" := (ge a b) (at level 70) : num_scope.
Notation "a === b" := (strict_eq a b) (at level 70) : num_scope.
Notation "a ≃ b" := (JS.Eq a b) (at level 70) : num_scope.

Coercion Fin : Q >-> num.

Arguments inf_signed x /.
Arguments add !a !b /.
Arguments neg !a /.
Arguments sub !a !b /.
Arguments mul !a !b /.
Arguments div !a !b /.
Arguments lt !a !b /.
Arguments gt !a !b /.
Arguments le !a !b /.
Arguments ge !a !b /.
Arguments strict_eq !a !b /.
Arguments min !a !b /.
Arguments max !a !b /.
Arguments abs !a /.
Arguments floor !a /.
Arguments round !a /.
Arguments truthy !a /.

Local Open Scope num_scope.

(** [Math.round(x * 100) / 100] and its siblings, as the source writes
    them at every returned field. *)
Definition round_to (k : Q) (x : num) : num := round (x * Fin k) / Fin k.
Definition round2 : num -> num := round_to 100.
Definition round1 : num -> num := round_to 10.
Definition round3 : num -> num := round_to 1000.

(** [a[i]] read as a number: an index past the end gives [undefined],
    which every arithmetic use turns into [NaN]. *)
Definition get_num (a : list num) (i : nat) : num := nth i a NaN.

(** ** Arithmetic on doubles *)

Module Fl.

Import Binary64.

(** A number as the double it is stored in: a finite value is rounded,
    and a result beyond the largest double is an infinity. *)
Definition to_double (a : num) : num :=
  match a with
  | Fin q =>
      if Qle_bool (pow2 1024) (Qabs (rnd q))
      then (if Qltb 0 q then PInf else NInf)
      else Fin (rnd q)
  | _ => a
  end.

Definition add (a b : num) : num := to_double (JS.add a b).
Definition sub (a b : num) : num := to_double (JS.sub a b).
Definition mul (a b : num) : num := to_double (JS.mul a b).
Definition div (a b : num) : num := to_double (JS.div a b).

(** A decimal literal of the source. *)
Definition lit (q : Q) : num := to_double (Fin q).

End Fl.

Infix "⊕" := Fl.add (at level 50, left associativity).
Infix "⊖" := Fl.sub (at level 50, left associativity).
Infix "⊗" := Fl.mul (at level 40, left associativity).
Infix "⊘" := Fl.div (at level 40, left associativity).

(** ** The optimizer ([EnergyOptimizer]) *)

Module Optimizer.

Inductive TimeOfUse : Type := Peak | OffPeak | MidPeak.

Definition is_peak (t : TimeOfUse) : bool :=
  match t with Peak => true | _ => false end.

Record OptimizationResult : Type := {
  gridKwh : num;
  solarKwh : num;
  batteryKwh : num;
  batteryCharge : num;
  batteryLevel : option num;
  excessSolar : num;
  totalCost : num;
  carbonSaved : num;
  renewablePercentage : num;
  peakDemandReduction : num;
  gridStressReduction : num;
  timeOfUse : TimeOfUse;
  adjustedGridPrice : num
}.

(** The object built by [constructor(batteryCapacity = 50,
    batteryEfficiency = 0.95)]; [gridCarbonIntensity] is set to 0.8 there
    and never written again. *)
Record EnergyOptimizer : Type := {
  batteryCapacity : num;
  batteryEfficiency : num
}.

Definition gridCarbonIntensity : num := Fin (8 # 10).

Definition default_optimizer : EnergyOptimizer :=
  {| batteryCapacity := Fin 50; batteryEfficiency := Fin (95 # 100) |}.

Definition priceMultipliers (t : TimeOfUse) : num :=
  match t with
  | Peak => Fin (18 # 10)
  | MidPeak => Fin 1
  | OffPeak => Fin (6 # 10)
  end.

(** The same table, as rationals. *)
Definition multiplierQ (t : TimeOfUse) : Q :=
  match t with Peak => 18 # 10 | MidPeak => 1 | OffPeak => 6 # 10 end.

Definition calculatePeakReduction (demandKwh solarKwh batteryKwh : num) : num :=
  let netDemand := demandKwh - solarKwh - batteryKwh in
  let peakThreshold := Fin 40 in
  if (demandKwh >? peakThreshold) && (netDemand <? peakThreshold)
  then ((demandKwh - netDemand) / demandKwh) * Fin 100
  else Fin 0.

Definition calculateGridStressReduction (gridKwh totalDemand : num) : num :=
  let gridDependency := gridKwh / totalDemand in
  (Fin 1 - gridDependency) * Fin 100.

(** The dispatch of [optimize] before the fields are rounded: solar
    used, battery charge, excess solar, battery discharge, grid. *)
Record Dispatch : Type := {
  d_solar : num;
  d_charge : num;
  d_excess : num;
  d_discharge : num;
  d_grid : num
}.

Definition dispatch (self : EnergyOptimizer)
    (demandKwh solarAvailableKwh adjustedPrice level : num)
    (tou : TimeOfUse) : Dispatch :=
  (* Step 1: use available solar first *)
  let solar := min solarAvailableKwh demandKwh in
  let remainingDemand := demandKwh - solar in
  (* Step 2: handle excess solar *)
  let excess := solarAvailableKwh - solar in
  let '(charge, excess) :=
    if excess >? Fin 0 then
      let maxCharge := batteryCapacity self - level in
      let charge := min excess maxCharge * batteryEfficiency self in
      (charge, excess - charge / batteryEfficiency self)
    else (Fin 0, excess) in
  (* Step 3: use battery if economical *)
  let '(discharge, remainingDemand) :=
    if (remainingDemand >? Fin 0) && (level >? Fin 0) then
      if is_peak tou || (adjustedPrice >? Fin (15 # 100)) then
        let discharge := min remainingDemand level in
        (discharge, remainingDemand - discharge)
      else (Fin 0, remainingDemand)
    else (Fin 0, remainingDemand) in
  (* Step 4: use grid for remaining demand *)
  {| d_solar := solar; d_charge := charge; d_excess := excess;
     d_discharge := discharge; d_grid := remainingDemand |}.

Definition optimize (self : EnergyOptimizer)
    (demandKwh solarAvailableKwh gridPrice level : num)
    (tou : TimeOfUse) : OptimizationResult :=
  let adjusted := gridPrice * priceMultipliers tou in
  let d := dispatch self demandKwh solarAvailableKwh adjusted level tou in
  let totalCost := d_grid d * adjusted in
  let carbonSaved := (d_solar d + d_discharge d) * gridCarbonIntensity in
  let renewablePercentage :=
    if demandKwh >? Fin 0
    then ((d_solar d + d_discharge d) / demandKwh) * Fin 100
    else Fin 0 in
  let peakDemandReduction :=
    calculatePeakReduction demandKwh (d_solar d) (d_discharge d) in
  let gridStressReduction :=
    calculateGridStressReduction (d_grid d) demandKwh in
  {| gridKwh := round2 (d_grid d);
     solarKwh := round2 (d_solar d);
     batteryKwh := round2 (d_discharge d);
     batteryCharge := round2 (d_charge d);
     batteryLevel := None;
     excessSolar := round2 (d_excess d);
     totalCost := round2 totalCost;
     carbonSaved := round2 carbonSaved;
     renewablePercentage := round1 renewablePercentage;
     peakDemandReduction := round1 peakDemandReduction;
     gridStressReduction := round1 gridStressReduction;
     timeOfUse := tou;
     adjustedGridPrice := round3 adjusted |}.

(** One iteration of the loop of [optimizeDayAhead]: the arguments are
    read at index [i]; an absent [gridPrices[i]] or
    [timeOfUseSchedule[i]] is [undefined] and takes the default of the
    parameter (0.12, mid-peak); an absent [solarForecasts[i]] is a
    [NaN]. *)
Definition dayAhead_step (self : EnergyOptimizer)
    (solarForecasts gridPrices : list num) (schedule : list TimeOfUse)
    (i : nat) (demand level : num) : OptimizationResult * num :=
  let result :=
    optimize self demand (get_num solarForecasts i)
      (nth i gridPrices (Fin (12 # 100))) level (nth i schedule MidPeak) in
  let level' :=
    max (Fin 0)
      (min (batteryCapacity self)
         (level - batteryKwh result + batteryCharge result)) in
  ({| gridKwh := gridKwh result;
      solarKwh := solarKwh result;
      batteryKwh := batteryKwh result;
      batteryCharge := batteryCharge result;
      batteryLevel := Some (round2 level');
      excessSolar := excessSolar result;
      totalCost := totalCost result;
      carbonSaved := carbonSaved result;
      renewablePercentage := renewablePercentage result;
      peakDemandReduction := peakDemandReduction result;
      gridStressReduction := gridStressReduction result;
      timeOfUse := timeOfUse result;
      adjustedGridPrice := adjustedGridPrice result |}, level').

(** The loop from index [i] on, over the remaining [demands]; it returns
    the pushed results together with the value of the variable
    [batteryLevel] after each iteration. *)
Fixpoint dayAhead_loop (self : EnergyOptimizer)
    (solarForecasts gridPrices : list num) (schedule : list TimeOfUse)
    (i : nat) (demands : list num) (level : num)
    : list (OptimizationResult * num) :=
  match demands with
  | [] => []
  | demand :: rest =>
      let '(r, level') :=
        dayAhead_step self solarForecasts gridPrices schedule i demand level in
      (r, level') ::
        dayAhead_loop self solarForecasts gridPrices schedule (S i) rest level'
  end.

Definition optimizeDayAhead (self : EnergyOptimizer)
    (demands solarForecasts gridPrices : list num)
    (schedule : list TimeOfUse) (initialBatteryLevel : num)
    : list OptimizationResult :=
  map fst
    (dayAhead_loop self solarForecasts gridPrices schedule 0 demands
       initialBatteryLevel).

(** The battery levels the loop threads, one per period. *)
Definition dayAhead_levels (self : EnergyOptimizer)
    (demands solarForecasts gridPrices : list num)
    (schedule : list TimeOfUse) (initialBatteryLevel : num) : list num :=
  map snd
    (dayAhead_loop self solarForecasts gridPrices schedule 0 demands
       initialBatteryLevel).

(** *** Load shifting *)

(** [{ name, kwh, timeWindow }]; an hour is an integer, possibly
    negative or past the end of the arrays. *)
Record FlexibleLoad : Type := {
  name : string;
  kwh : num;
  timeWindow : list Z
}.

(** An entry of [shiftedLoads]; an hour is [undefined] ([None]) when
    [timeWindow] is empty. *)
Record ShiftedLoad : Type := {
  sl_name : string;
  originalHour : option Z;
  optimalHour : option Z;
  savings : num
}.

Record LoadShiftingResult : Type := {
  shiftedLoads : list ShiftedLoad;
  totalSavings : num
}.

(** [a[hour]] in arithmetic: [undefined], hence [NaN], when [hour] is
    [undefined], negative or past the end. *)
Definition at_hour (a : list num) (hour : option Z) : num :=
  match hour with
  | Some h => if (h <? 0)%Z then NaN else nth (Z.to_nat h) a NaN
  | None => NaN
  end.

Definition calculateLoadCost (loadKwh : num) (hour : option Z)
    (demands solarForecasts gridPrices : list num) : num :=
  let totalDemand := at_hour demands hour + loadKwh in
  let solarAvailable := at_hour solarForecasts hour in
  let gridPrice := at_hour gridPrices hour in
  let gridNeeded := max (Fin 0) (totalDemand - solarAvailable) in
  gridNeeded * gridPrice.

(** The cost of running a load at a given hour of the window. *)
Definition cost_at (demands solarForecasts gridPrices : list num)
    (loadKwh : num) (h : Z) : num :=
  calculateLoadCost loadKwh (Some h) demands solarForecasts gridPrices.

(** An hour that indexes the demand array. *)
Definition valid_hour (demands : list num) (h : Z) : Prop :=
  (0 <= h < Z.of_nat (length demands))%Z.

(** The body of the inner [forEach]: the state is
    [(bestHour, bestCost)]. *)
Definition pick_hour (loadKwh : num)
    (demands solarForecasts gridPrices : list num)
    (best : option Z * num) (hour : Z) : option Z * num :=
  if (hour <? Z.of_nat (length demands))%Z then
    let cost :=
      calculateLoadCost loadKwh (Some hour) demands solarForecasts gridPrices in
    if cost <? snd best then (Some hour, cost) else best
  else best.

(** The body of the outer [forEach] for one load: the entry pushed to
    [shiftedLoads] and the unrounded [savings] added to
    [totalSavings]. *)
Definition shift_load (demands solarForecasts gridPrices : list num)
    (load : FlexibleLoad) : ShiftedLoad * num :=
  let '(bestHour, bestCost) :=
    fold_left (pick_hour (kwh load) demands solarForecasts gridPrices)
      (timeWindow load) (head (timeWindow load), PInf) in
  let originalCost :=
    calculateLoadCost (kwh load) (head (timeWindow load))
      demands solarForecasts gridPrices in
  let savings := originalCost - bestCost in
  ({| sl_name := name load;
      originalHour := head (timeWindow load);
      optimalHour := bestHour;
      savings := round2 savings |}, savings).

Definition optimizeLoadShifting (flexibleLoads : list FlexibleLoad)
    (demands solarForecasts gridPrices : list num) : LoadShiftingResult :=
  let '(shifted, total) :=
    fold_left
      (fun (acc : list ShiftedLoad * num) (load : FlexibleLoad) =>
         let '(entry, savings) :=
           shift_load demands solarForecasts gridPrices load in
         (fst acc ++ [entry], snd acc + savings))
      flexibleLoads ([], Fin 0) in
  {| shiftedLoads := shifted; totalSavings := round2 total |}.

(** *** Real-time price response *)

Record PriceResponse : Type := {
  action : string;
  recommendation : string;
  potentialSavings : num
}.

(** What the specification asks of the entry pushed for a load: it
    names the first cheapest hour of the window, and its savings are
    the cost at the default hour less the cost at that hour. *)
Definition chosen (demands solarForecasts gridPrices : list num)
    (load : FlexibleLoad) (r : ShiftedLoad) : Prop :=
  let cost := cost_at demands solarForecasts gridPrices (kwh load) in
  exists (h0 best : Z) (bef aft : list Z),
    head (timeWindow load) = Some h0 /\
    originalHour r = Some h0 /\
    optimalHour r = Some best /\
    timeWindow load = bef ++ best :: aft /\
    Forall (fun h => Lt (cost best) (cost h)) bef /\
    Forall (fun h => Le (cost best) (cost h)) aft /\
    savings r = round2 (cost h0 - cost best) /\
    Le (Fin 0) (savings r).

End Optimizer.

(** ** The optimizer over doubles *)

(** [Optimizer.dispatch] and [Optimizer.optimize] once more, each
    operation rounded as the engine rounds it and each decimal literal
    the double it denotes.  [Math.min], [Math.max], [Math.round] and the
    comparisons are exact on doubles. *)
Module Rounded.

Import Optimizer.

Definition round_to (k : Q) (x : num) : num :=
  round (x ⊗ Fl.lit k) ⊘ Fl.lit k.
Definition round2 : num -> num := round_to 100.
Definition round1 : num -> num := round_to 10.
Definition round3 : num -> num := round_to 1000.

Definition gridCarbonIntensity : num := Fl.lit (8 # 10).

Definition priceMultipliers (t : TimeOfUse) : num :=
  match t with
  | Peak => Fl.lit (18 # 10)
  | MidPeak => Fl.lit 1
  | OffPeak => Fl.lit (6 # 10)
  end.

Definition calculatePeakReduction (demandKwh solarKwh batteryKwh : num) : num :=
  let netDemand := demandKwh ⊖ solarKwh ⊖ batteryKwh in
  let peakThreshold := Fl.lit 40 in
  if (demandKwh >? peakThreshold) && (netDemand <? peakThreshold)
  then ((demandKwh ⊖ netDemand) ⊘ demandKwh) ⊗ Fl.lit 100
  else Fin 0.

Definition calculateGridStressReduction (gridKwh totalDemand : num) : num :=
  let gridDependency := gridKwh ⊘ totalDemand in
  (Fl.lit 1 ⊖ gridDependency) ⊗ Fl.lit 100.

Definition dispatch (self : EnergyOptimizer)
    (demandKwh solarAvailableKwh adjustedPrice level : num)
    (tou : TimeOfUse) : Dispatch :=
  let solar := min solarAvailableKwh demandKwh in
  let remainingDemand := demandKwh ⊖ solar in
  let excess := solarAvailableKwh ⊖ solar in
  let '(charge, excess) :=
    if excess >? Fin 0 then
      let maxCharge := batteryCapacity self ⊖ level in
      let charge := min excess maxCharge ⊗ batteryEfficiency self in
      (charge, excess ⊖ charge ⊘ batteryEfficiency self)
    else (Fin 0, excess) in
  let '(discharge, remainingDemand) :=
    if (remainingDemand >? Fin 0) && (level >? Fin 0) then
      if is_peak tou || (adjustedPrice >? Fl.lit (15 # 100)) then
        let discharge := min remainingDemand level in
        (discharge, remainingDemand ⊖ discharge)
      else (Fin 0, remainingDemand)
    else (Fin 0, remainingDemand) in
  {| d_solar := solar; d_charge := charge; d_excess := excess;
     d_discharge := discharge; d_grid := remainingDemand |}.

Definition optimize (self : EnergyOptimizer)
    (demandKwh solarAvailableKwh gridPrice level : num)
    (tou : TimeOfUse) : OptimizationResult :=
  let adjusted := gridPrice ⊗ priceMultipliers tou in
  let d := dispatch self demandKwh solarAvailableKwh adjusted level tou in
  let totalCost := d_grid d ⊗ adjusted in
  let carbonSaved := (d_solar d ⊕ d_discharge d) ⊗ gridCarbonIntensity in
  let renewablePercentage :=
    if demandKwh >? Fin 0
    then ((d_solar d ⊕ d_discharge d) ⊘ demandKwh) ⊗ Fl.lit 100
    else Fin 0 in
  let peakDemandReduction :=
    calculatePeakReduction demandKwh (d_solar d) (d_discharge d) in
  let gridStressReduction :=
    calculateGridStressReduction (d_grid d) demandKwh in
  {| gridKwh := round2 (d_grid d);
     solarKwh := round2 (d_solar d);
     batteryKwh := round2 (d_discharge d);
     batteryCharge := round2 (d_charge d);
     batteryLevel := None;
     excessSolar := round2 (d_excess d);
     totalCost := round2 totalCost;
     carbonSaved := round2 carbonSaved;
     renewablePercentage := round1 renewablePercentage;
     peakDemandReduction := round1 peakDemandReduction;
     gridStressReduction := round1 gridStressReduction;
     timeOfUse := tou;
     adjustedGridPrice := round3 adjusted |}.

(** One iteration of the loop of [optimizeDayAhead], with the defaults
    of [optimize] for an absent price or period. *)
Definition dayAhead_step (self : EnergyOptimizer)
    (solarForecasts gridPrices : list num) (schedule : list TimeOfUse)
    (i : nat) (demand level : num) : OptimizationResult * num :=
  let result :=
    optimize self demand (get_num solarForecasts i)
      (nth i gridPrices (Fl.lit (12 # 100))) level (nth i schedule MidPeak) in
  let level' :=
    max (Fin 0)
      (min (batteryCapacity self)
         (level ⊖ batteryKwh result ⊕ batteryCharge result)) in
  ({| gridKwh := gridKwh result;
      solarKwh := solarKwh result;
      batteryKwh := batteryKwh result;
      batteryCharge := batteryCharge result;
      batteryLevel := Some (round2 level');
      excessSolar := excessSolar result;
      totalCost := totalCost result;
      carbonSaved := carbonSaved result;
      renewablePercentage := renewablePercentage result;
      peakDemandReduction := peakDemandReduction result;
      gridStressReduction := gridStressReduction result;
      timeOfUse := timeOfUse result;
      adjustedGridPrice := adjustedGridPrice result |}, level').

Fixpoint dayAhead_loop (self : EnergyOptimizer)
    (solarForecasts gridPrices : list num) (schedule : list TimeOfUse)
    (i : nat) (demands : list num) (level : num)
    : list (OptimizationResult * num) :=
  match demands with
  | [] => []
  | demand :: rest =>
      let '(r, level') :=
        dayAhead_step self solarForecasts gridPrices schedule i demand level in
      (r, level') ::
        dayAhead_loop self solarForecasts gridPrices schedule (S i) rest level'
  end.

Definition optimizeDayAhead (self : EnergyOptimizer)
    (demands solarForecasts gridPrices : list num)
    (schedule : list TimeOfUse) (initialBatteryLevel : num)
    : list OptimizationResult :=
  map fst
    (dayAhead_loop self solarForecasts gridPrices schedule 0 demands
       initialBatteryLevel).

(** [optimizeForRealTimePrice] *)
Definition optimizeForRealTimePrice
    (currentPrice averagePrice demandKwh solarKwh level : num)
    : PriceResponse :=
  let priceRatio := currentPrice ⊘ averagePrice in
  if (priceRatio >? Fl.lit (15 # 10)) && (level >? Fl.lit 10) then
    {| action := "use_battery";
       recommendation :=
         "Grid prices are high. Using battery storage to reduce costs.";
       potentialSavings := demandKwh ⊗ currentPrice ⊗ Fl.lit (7 # 10) |}
  else if (priceRatio <? Fl.lit (7 # 10)) && (solarKwh >? demandKwh) then
    {| action := "charge_battery";
       recommendation :=
         "Low grid prices and excess solar. Charging battery for later use.";
       potentialSavings :=
         (solarKwh ⊖ demandKwh) ⊗ (averagePrice ⊖ currentPrice) |}
  else if priceRatio >? Fl.lit (12 # 10) then
    {| action := "reduce_load";
       recommendation :=
         "Consider reducing non-essential loads during peak pricing.";
       potentialSavings := demandKwh ⊗ Fl.lit (1 # 10) ⊗ currentPrice |}
  else
    {| action := "maintain";
       recommendation := "Current pricing is optimal. No action needed.";
       potentialSavings := Fin 0 |}.

End Rounded.

(** ** Shared data and the [Math] functions *)

(** [Math.PI], [Math.sin] and [Math.sqrt] on finite arguments.  The
    rounded values a JavaScript engine returns are rationals; they are
    taken as given. *)
Class Math : Type := {
  Math_PI : Q;
  sinQ : Q -> Q;
  sqrtQ : Q -> Q
}.

(** [Math.sin(a)] *)
Definition Math_sin `{Math} (a : num) : num :=
  match a with
  | Fin x => Fin (sinQ x)
  | _ => NaN
  end.

(** [Math.sqrt(a)]: [NaN] below zero, zero at zero. *)
Definition Math_sqrt `{Math} (a : num) : num :=
  match a with
  | Fin x =>
      if Qltb x 0 then NaN
      else if Qeq_bool x 0 then Fin 0
      else Fin (sqrtQ x)
  | PInf => PInf
  | _ => NaN
  end.

(** A timestamp is a valid date: the number of whole hours since
    Thursday 1 January 1970, 00:00, local time. *)
Definition getHours (timestamp : Z) : Z := (timestamp mod 24)%Z.
Definition getDay (timestamp : Z) : Z := ((timestamp / 24 + 4) mod 7)%Z.

Record EnergyData : Type := {
  timestamp : Z;
  e_kwh : num;
  temperature : num;
  irradiance : num;
  windSpeed : num;
  occupancy : num;
  solarGeneration : option num
}.

(** The default of a read [data[i]]; every read of the source is within
    bounds, so it is never used. *)
Definition no_sample : EnergyData :=
  {| timestamp := 0; e_kwh := NaN; temperature := NaN; irradiance := NaN;
     windSpeed := NaN; occupancy := NaN; solarGeneration := None |}.

(** [a.slice(start, end)] for [0 <= start] and [0 <= end]. *)
Definition slice {A : Type} (a : list A) (start stop : nat) : list A :=
  skipn start (firstn stop a).

(** [a.slice(-n)]: the last [n] elements. *)
Definition slice_last {A : Type} (a : list A) (n : nat) : list A :=
  skipn (length a - n) a.

(** What a call does: it returns a value or throws an [Error]. *)
Inductive outcome (A : Type) : Type :=
  | Returned (a : A)
  | Thrown (message : string).
Arguments Returned {A} a.
Arguments Thrown {A} message.

(** ** The forecaster ([EnergyForecaster]) *)

Module Forecaster.

Record ForecastResult : Type := {
  nextHourDemand : num;
  solarAvailable : num;
  confidence : num
}.

(** [data[data.length - 1]].  The private methods are reached only from
    [forecastNextHour], with at least 48 samples. *)
Definition latest_of (data : list EnergyData) : EnergyData :=
  List.last data no_sample.

(** [l.reduce((sum, d) => sum + d.kwh, 0) / l.length] *)
Definition mean_kwh (l : list EnergyData) : num :=
  fold_left (fun sum d => sum + e_kwh d) l (Fin 0) / of_nat (length l).

Definition historicalPatternForecast (data : list EnergyData) : num :=
  let latest := latest_of data in
  let hour := getHours (timestamp latest) in
  let dayOfWeek := getDay (timestamp latest) in
  let similarPeriods :=
    List.filter (fun d => (getHours (timestamp d) =? hour)%Z
                     && (getDay (timestamp d) =? dayOfWeek)%Z) data in
  if (length similarPeriods <? 3)%nat then
    let sameHour :=
      List.filter (fun d => (getHours (timestamp d) =? hour)%Z) data in
    if (0 <? length sameHour)%nat then mean_kwh sameHour else e_kwh latest
  else
    let recent := slice_last similarPeriods 10 in
    let '(weightedSum, totalWeight) :=
      fold_left
        (fun (acc : num * num) (entry : nat * EnergyData) =>
           let weight := pow (Fin (11 # 10)) (fst entry) in
           (fst acc + e_kwh (snd entry) * weight, snd acc + weight))
        (combine (seq 0 (length recent)) recent) (Fin 0, Fin 0) in
    weightedSum / totalWeight.

Definition trendBasedForecast (data : list EnergyData) : num :=
  let recentData := slice_last data 24 in
  let values := map e_kwh recentData in
  let n := of_nat (length values) in
  let x := map of_nat (seq 0 (length values)) in
  let sumX := fold_left add x (Fin 0) in
  let sumY := fold_left add values (Fin 0) in
  let sumXY :=
    fold_left (fun sum (p : num * num) => sum + fst p * snd p)
      (combine x values) (Fin 0) in
  let sumXX := fold_left (fun sum xi => sum + xi * xi) x (Fin 0) in
  let slope := (n * sumXY - sumX * sumY) / (n * sumXX - sumX * sumX) in
  let intercept := (sumY - slope * sumX) / n in
  intercept + slope * n.

Definition weatherBasedForecast (data : list EnergyData) : num :=
  let latest := latest_of data in
  let recent := slice_last data 48 in
  let similarWeather :=
    List.filter (fun d =>
              (abs (temperature d - temperature latest) <? Fin 3)
              && (abs (irradiance d - irradiance latest) <? Fin 100))
      recent in
  if (length similarWeather <? 3)%nat then e_kwh latest
  else mean_kwh similarWeather.

Definition occupancyBasedForecast `{Math} (data : list EnergyData)
    (hour : Z) (isWeekend : bool) : num :=
  let nextHour := ((hour + 1) mod 24)%Z in
  let nextOccupancy :=
    if negb isWeekend && (7 <=? nextHour)%Z && (nextHour <=? 19)%Z then
      min (Fin 1)
        (Fin (1 # 10) + Fin (9 # 10) *
           Math_sin (Fin Math_PI * (of_Z nextHour - Fin 7) / Fin 12))
    else if isWeekend && (9 <=? nextHour)%Z && (nextHour <=? 17)%Z then
      Fin (3 # 10) + Fin (2 # 10) *
        Math_sin (Fin Math_PI * (of_Z nextHour - Fin 9) / Fin 8)
    else Fin 0 in
  let baseLoad := Fin 25 in
  let occupancyEffect := nextOccupancy * Fin 15 in
  baseLoad + occupancyEffect.

Definition forecastSolarGeneration `{Math} (data : list EnergyData) : num :=
  let latest := latest_of data in
  let nextHour := ((getHours (timestamp latest) + 1) mod 24)%Z in
  if (nextHour <? 6)%Z || (18 <? nextHour)%Z then Fin 0
  else
    let currentIrradiance := irradiance latest in
    let timeOfDayFactor :=
      Math_sin (Fin Math_PI * (of_Z nextHour - Fin 6) / Fin 12) in
    let predictedIrradiance :=
      currentIrradiance * Fin (8 # 10)
      + Fin 800 * timeOfDayFactor * Fin (2 # 10) in
    let predictedIrradiance :=
      if currentIrradiance <? Fin 200
      then predictedIrradiance * Fin (7 # 10)
      else predictedIrradiance in
    let panelEfficiency := Fin (18 # 100) in
    let panelArea := Fin 100 in
    let temperatureDerating :=
      max (Fin (7 # 10))
        (Fin 1 - (temperature latest - Fin 25) * Fin (4 # 1000)) in
    (predictedIrradiance / Fin 1000) * panelArea * panelEfficiency
    * temperatureDerating.

(** [|v[i] - v[i-1]|] for [i = 1 ..]. *)
Fixpoint abs_changes (values : list num) : list num :=
  match values with
  | a :: (b :: _) as rest => abs (b - a) :: abs_changes rest
  | _ => []
  end.

Definition calculateRecentVariability (data : list EnergyData) : num :=
  if (length data <? 2)%nat then Fin 0
  else
    let changes := abs_changes (map e_kwh data) in
    sum changes / of_nat (length changes).

Definition calculateWeatherConsistency (data : list EnergyData) : num :=
  if (length data <? 6)%nat then Fin (1 # 2)
  else
    let recent6 := slice_last data 6 in
    let tempChanges := abs_changes (map temperature recent6) in
    let irradianceChanges := abs_changes (map irradiance recent6) in
    let avgTempChange := sum tempChanges / of_nat (length tempChanges) in
    let avgIrradianceChange :=
      sum irradianceChanges / of_nat (length irradianceChanges) in
    let tempConsistency := max (Fin 0) (Fin 1 - avgTempChange / Fin 10) in
    let irradianceConsistency :=
      max (Fin 0) (Fin 1 - avgIrradianceChange / Fin 500) in
    (tempConsistency + irradianceConsistency) / Fin 2.

(** [values.reduce((sum, v) => sum + v, 0) / values.length] *)
Definition mean_of (values : list num) : num :=
  sum values / of_nat (length values).

(** [values.reduce((sum, v) => sum + Math.pow(v - mean, 2), 0) /
    values.length] *)
Definition variance_of (values : list num) (mean : num) : num :=
  fold_left (fun sum v => sum + pow (v - mean) 2) values (Fin 0)
  / of_nat (length values).

Definition calculateConfidence `{Math} (data : list EnergyData) : num :=
  let recent := slice_last data 48 in
  let values := map e_kwh recent in
  let mean := mean_of values in
  let variance := variance_of values mean in
  let coefficientOfVariation := Math_sqrt variance / mean in
  let dataCompleteness := of_nat (length recent) / Fin 48 in
  let recentVariability := calculateRecentVariability recent in
  let weatherConsistency := calculateWeatherConsistency recent in
  let stabilityScore := max (Fin 0) (Fin 1 - coefficientOfVariation) in
  let qualityScore := dataCompleteness in
  let consistencyScore := Fin 1 - recentVariability / Fin 100 in
  let weatherScore := weatherConsistency in
  stabilityScore * Fin (3 # 10) + qualityScore * Fin (2 # 10)
  + consistencyScore * Fin (3 # 10) + weatherScore * Fin (2 # 10).

Definition insufficient_history : string :=
  "Need at least 48 hours of data for accurate forecasting".

Definition forecastNextHour `{Math} (data : list EnergyData)
    : outcome ForecastResult :=
  if (length data <? 48)%nat then Thrown insufficient_history
  else
    let latest := latest_of data in
    let hour := getHours (timestamp latest) in
    let dayOfWeek := getDay (timestamp latest) in
    let isWeekend := (dayOfWeek =? 0)%Z || (dayOfWeek =? 6)%Z in
    let historicalForecast := historicalPatternForecast data in
    let trendForecast := trendBasedForecast data in
    let weatherForecast := weatherBasedForecast data in
    let occupancyForecast := occupancyBasedForecast data hour isWeekend in
    let nextHourDemand :=
      Fin (35 # 100) * historicalForecast
      + Fin (25 # 100) * trendForecast
      + Fin (25 # 100) * weatherForecast
      + Fin (15 # 100) * occupancyForecast in
    let solarAvailable := forecastSolarGeneration data in
    let confidence := calculateConfidence data in
    Returned
      {| nextHourDemand := max (Fin 5) nextHourDemand;
         solarAvailable := max (Fin 0) solarAvailable;
         confidence := min (Fin (98 # 100)) (max (Fin (65 # 100)) confidence) |}.

End Forecaster.

(** A concrete [Math] to run the model on: [Math.PI] to sixteen digits,
    the sine by its series up to the ninth power, the square root
    rounded down to six decimals. *)
Definition approx_sin (x : Q) : Q :=
  (x - x * x * x / 6 + x * x * x * x * x / 120
   - x * x * x * x * x * x * x / 5040
   + x * x * x * x * x * x * x * x * x / 362880)%Q.

Definition approx_sqrt (x : Q) : Q :=
  (inject_Z (Z.sqrt (Qfloor (x * 1000000000000))) / 1000000)%Q.

Definition approx_math : Math :=
  {| Math_PI := 3141592653589793 # 1000000000000000;
     sinQ := approx_sin;
     sqrtQ := approx_sqrt |}.

(** ** The anomaly detector ([AnomalyDetector]) *)

Module Anomaly.

Inductive Severity : Type := Low | Medium | High.
Inductive AnomalyType : Type := Spike | Drop | Sustained | Pattern.

Record AnomalyData : Type := {
  a_timestamp : Z;
  value : num;
  isAnomaly : bool;
  severity : Severity;
  type : option AnomalyType;
  a_confidence : option num
}.

(** The key [`${dt.getDay()}-${dt.getHours()}`] of a sample, as the pair
    it is printed from. *)
Definition key_of (d : EnergyData) : Z * Z :=
  (getDay (timestamp d), getHours (timestamp d)).

(** The detector object: the sensitivity chosen at construction and the
    [Map] that [buildHistoricalBaseline] writes. *)
Record AnomalyDetector : Type := {
  sensitivityLevel : Severity;
  historicalBaseline : gmap (Z * Z) num
}.

Definition new_detector (sensitivityLevel : Severity) : AnomalyDetector :=
  {| sensitivityLevel := sensitivityLevel; historicalBaseline := ∅ |}.

(** [values.sort((a, b) => a - b)]: a stable sort by the sign of the
    comparator. *)
Fixpoint insert_sorted (x : num) (l : list num) : list num :=
  match l with
  | [] => [x]
  | y :: rest =>
      if Fin 0 <? x - y then y :: insert_sorted x rest else x :: l
  end.

Definition sort_numbers (l : list num) : list num :=
  fold_right insert_sorted [] l.

(** [patterns]: the consumption values seen for each key. *)
Definition collect_patterns (data : list EnergyData)
    : gmap (Z * Z) (list num) :=
  fold_left
    (fun patterns d =>
       <[key_of d := default [] (patterns !! key_of d) ++ [e_kwh d]]> patterns)
    data ∅.

(** [values[Math.floor(values.length / 2)]] of the sorted values. *)
Definition median (values : list num) : num :=
  let sorted := sort_numbers values in
  nth (length sorted / 2) sorted NaN.

(** [buildHistoricalBaseline]: every key of [patterns] is [set] to its
    median; the entries of other keys stay as they were. *)
Definition buildHistoricalBaseline (self : AnomalyDetector)
    (data : list EnergyData) : AnomalyDetector :=
  {| sensitivityLevel := sensitivityLevel self;
     historicalBaseline :=
       (median <$> collect_patterns data) ∪ historicalBaseline self |}.

Definition unflagged (current : EnergyData) : AnomalyData :=
  {| a_timestamp := timestamp current; value := e_kwh current;
     isAnomaly := false; severity := Low; type := None;
     a_confidence := None |}.

(** The z-score cut-offs [(high, medium, low)] of a sensitivity
    level. *)
Definition thresholds (level : Severity) : num * num * num :=
  match level with
  | Low => (Fin 2, Fin (25 # 10), Fin 3)
  | Medium => (Fin (18 # 10), Fin (22 # 10), Fin (28 # 10))
  | High => (Fin (15 # 10), Fin 2, Fin (25 # 10))
  end.

Definition detectStatisticalAnomaly `{Math} (self : AnomalyDetector)
    (current : EnergyData) (window : list EnergyData) : AnomalyData :=
  let values := map e_kwh window in
  let mean := sum values / of_nat (length values) in
  let variance :=
    fold_left (fun sum v => sum + pow (v - mean) 2) values (Fin 0)
    / of_nat (length values) in
  let stdDev := Math_sqrt variance in
  let zScore := abs ((e_kwh current - mean) / (stdDev + Fin (1 # 1000))) in
  let '(t_high, t_medium, t_low) := thresholds (sensitivityLevel self) in
  let '(isAnomaly, severity) :=
    if zScore >? t_high then (true, High)
    else if zScore >? t_medium then (true, Medium)
    else if zScore >? t_low then (true, Low)
    else (false, Low) in
  {| a_timestamp := timestamp current; value := e_kwh current;
     isAnomaly := isAnomaly; severity := severity;
     type := Some (if e_kwh current >? mean then Spike else Drop);
     a_confidence := None |}.

Definition detectPatternAnomaly (self : AnomalyDetector)
    (current : EnergyData) : AnomalyData :=
  match historicalBaseline self !! key_of current with
  | None => unflagged current
  | Some expectedValue =>
      if negb (truthy expectedValue) then unflagged current
      else
        let deviation :=
          abs (e_kwh current - expectedValue) / expectedValue in
        let '(isAnomaly, severity) :=
          if deviation >? Fin (5 # 10) then (true, High)
          else if deviation >? Fin (3 # 10) then (true, Medium)
          else if deviation >? Fin (2 # 10) then (true, Low)
          else (false, Low) in
        {| a_timestamp := timestamp current; value := e_kwh current;
           isAnomaly := isAnomaly; severity := severity;
           type := Some Pattern; a_confidence := None |}
  end.

(** [Math.floor(n * f)] as an index. *)
Definition index_at (n : nat) (f : Q) : nat :=
  Z.to_nat (Qfloor (inject_Z (Z.of_nat n) * f)).

Definition calculateExpectedRange (data : list EnergyData) : num * num :=
  let values := sort_numbers (map e_kwh data) in
  let q1 := nth (index_at (length values) (25 # 100)) values NaN in
  let q3 := nth (index_at (length values) (75 # 100)) values NaN in
  let iqr := q3 - q1 in
  (q1 - Fin (15 # 10) * iqr, q3 + Fin (15 # 10) * iqr).

Definition isBusinessHour (d : EnergyData) : bool :=
  (8 <=? getHours (timestamp d))%Z && (getHours (timestamp d) <=? 18)%Z.

Definition detectContextualAnomaly (current : EnergyData)
    (window : list EnergyData) : AnomalyData :=
  let similarConditions :=
    List.filter (fun d =>
              (abs (temperature d - temperature current) <? Fin 5)
              && (abs (occupancy d - occupancy current) <? Fin (2 # 10))
              && Bool.eqb (isBusinessHour current) (isBusinessHour d))
      window in
  if (length similarConditions <? 3)%nat then unflagged current
  else
    let '(range_min, range_max) := calculateExpectedRange similarConditions in
    let isOutsideRange :=
      (e_kwh current <? range_min) || (e_kwh current >? range_max) in
    let severity :=
      if isOutsideRange then
        let deviation :=
          min (abs (e_kwh current - range_min) / range_min)
              (abs (e_kwh current - range_max) / range_max) in
        if deviation >? Fin (4 # 10) then High
        else if deviation >? Fin (25 # 100) then Medium
        else Low
      else Low in
    {| a_timestamp := timestamp current; value := e_kwh current;
       isAnomaly := isOutsideRange; severity := severity;
       type := Some Pattern; a_confidence := None |}.

Definition flagged (current : EnergyData) (s : Severity) (t : AnomalyType)
    : AnomalyData :=
  {| a_timestamp := timestamp current; value := e_kwh current;
     isAnomaly := true; severity := s; type := Some t;
     a_confidence := None |}.

Definition detectEquipmentAnomaly (current : EnergyData)
    (recentData : list EnergyData) : AnomalyData :=
  if (length recentData <? 3)%nat then unflagged current
  else
    let recentValues := map e_kwh recentData in
    let currentValue := e_kwh current in
    let avgRecent := sum recentValues / of_nat (length recentValues) in
    let dropThreshold := avgRecent * Fin (4 # 10) in
    if currentValue <? dropThreshold then flagged current High Drop
    else
      let spikeThreshold := avgRecent * Fin 2 in
      if currentValue >? spikeThreshold then flagged current High Spike
      else
        let allHigh :=
          forallb (fun v => v >? avgRecent * Fin (13 # 10))
            (recentValues ++ [currentValue]) in
        let allLow :=
          forallb (fun v => v <? avgRecent * Fin (7 # 10))
            (recentValues ++ [currentValue]) in
        if allHigh || allLow then flagged current Medium Sustained
        else unflagged current.

Definition getSeverityScore (s : Severity) : num :=
  match s with
  | High => Fin 3
  | Medium => Fin 2
  | Low => Fin 1
  end.

Definition calculateAnomalyConfidence (anomalies : list AnomalyData) : num :=
  if (length anomalies =? 0)%nat then Fin 0
  else
    let severityScores := map (fun a => getSeverityScore (severity a)) anomalies in
    let avgSeverity := sum severityScores / of_nat (length severityScores) in
    let agreementFactor := of_nat (length anomalies) / Fin 4 in
    min (Fin (98 # 100))
      (Fin (5 # 10) + (avgSeverity / Fin 3) * Fin (3 # 10)
       + agreementFactor * Fin (2 # 10)).

(** The callback of [detectedAnomalies.reduce(...)]. *)
Definition more_severe (prev curr : AnomalyData) : AnomalyData :=
  if getSeverityScore (severity curr) >? getSeverityScore (severity prev)
  then curr else prev.

(** The four sub-detectors, in the order of [anomalyResults]. *)
Definition anomalyResults `{Math} (self : AnomalyDetector)
    (data : list EnergyData) (windowSize i : nat) (current : EnergyData)
    : list AnomalyData :=
  let window := slice data (i - windowSize) i in
  [detectStatisticalAnomaly self current window;
   detectPatternAnomaly self current;
   detectContextualAnomaly current window;
   detectEquipmentAnomaly current (slice data (Nat.max 0 (i - 6)) i)].

(** The body of the loop of [detectAnomalies] at index [i], with
    [current = data[i]]. *)
Definition detect_at `{Math} (self : AnomalyDetector)
    (data : list EnergyData) (windowSize i : nat) (current : EnergyData)
    : AnomalyData :=
  let detectedAnomalies :=
    List.filter (fun a => isAnomaly a)
      (anomalyResults self data windowSize i current) in
  match detectedAnomalies with
  | first :: rest =>
      let mostSevere := fold_left more_severe rest first in
      {| a_timestamp := timestamp current; value := e_kwh current;
         isAnomaly := true; severity := severity mostSevere;
         type := type mostSevere;
         a_confidence := Some (calculateAnomalyConfidence detectedAnomalies) |}
  | [] =>
      {| a_timestamp := timestamp current; value := e_kwh current;
         isAnomaly := false; severity := Low; type := None;
         a_confidence := Some (Fin (95 # 100)) |}
  end.

(** The indices the loop visits: [max(windowSize, 24) .. length - 1]. *)
Definition scored_indices (data : list EnergyData) (windowSize : nat)
    : list nat :=
  seq (Nat.max windowSize 24) (length data - Nat.max windowSize 24).

(** [detectAnomalies]: the records, and the detector as the call leaves
    it. *)
Definition detectAnomalies `{Math} (self : AnomalyDetector)
    (data : list EnergyData) (windowSize : nat)
    : list AnomalyData * AnomalyDetector :=
  let self := buildHistoricalBaseline self data in
  (map (fun i => detect_at self data windowSize i (nth i data no_sample))
     (scored_indices data windowSize),
   self).

(** The mean of the (up to) six samples before index [i]. *)
Definition trailing_mean (data : list EnergyData) (i : nat) : num :=
  let recentValues := map e_kwh (slice data (Nat.max 0 (i - 6)) i) in
  sum recentValues / of_nat (length recentValues).

(** A sub-detector result that flags with the highest severity. *)
Definition flags_high (a : AnomalyData) : Prop :=
  isAnomaly a = true /\ severity a = High.

(** *** Statistics *)

Definition is_severity (s : Severity) (a : AnomalyData) : bool :=
  match severity a, s with
  | High, High | Medium, Medium | Low, Low => true
  | _, _ => false
  end.

(** [a.type === t]; an absent type equals none. *)
Definition is_type (t : AnomalyType) (a : AnomalyData) : bool :=
  match type a with
  | Some t' =>
      match t', t with
      | Spike, Spike | Drop, Drop | Sustained, Sustained
      | Pattern, Pattern => true
      | _, _ => false
      end
  | None => false
  end.

Record AnomalyTypeCounts : Type := {
  spikes : nat;
  drops : nat;
  sustained : nat;
  patterns : nat
}.

Record AnomalyStats : Type := {
  total : nat;
  high : nat;
  medium : nat;
  low : nat;
  types : AnomalyTypeCounts
}.

Definition getAnomalyStats (anomalies : list AnomalyData) : AnomalyStats :=
  let recentAnomalies := List.filter (fun a => isAnomaly a) anomalies in
  {| total := length recentAnomalies;
     high := length (List.filter (is_severity High) recentAnomalies);
     medium := length (List.filter (is_severity Medium) recentAnomalies);
     low := length (List.filter (is_severity Low) recentAnomalies);
     types :=
       {| spikes := length (List.filter (is_type Spike) recentAnomalies);
          drops := length (List.filter (is_type Drop) recentAnomalies);
          sustained :=
            length (List.filter (is_type Sustained) recentAnomalies);
          patterns :=
            length (List.filter (is_type Pattern) recentAnomalies) |} |}.

(** The consumption values of the samples of one (day, hour) key, in
    the order of the history. *)
Definition bucket (data : list EnergyData) (k : Z * Z) : list num :=
  map e_kwh (List.filter (fun d => bool_decide (key_of d = k)) data).

End Anomaly.

(** ** [detectAnomalies] for a window size that is any number *)

(** [Anomaly.detectAnomalies] takes its window size as a whole number.
    The parameter of the source is a [number]; this module follows the
    call for every value of it. *)
Module AnyWindow.

Import Anomaly.

(** A bound of [a.slice(start, end)] for an array of [len] elements:
    the number is truncated towards zero, a negative one counts from
    the end, and the result is kept within the array. *)
Definition slice_bound (len : nat) (a : num) : nat :=
  match a with
  | Fin q =>
      let z := if Qltb q 0 then (- Qfloor (- q))%Z else Qfloor q in
      if (z <? 0)%Z then Z.to_nat (Z.max 0 (Z.of_nat len + z))
      else Z.to_nat (Z.min z (Z.of_nat len))
  | PInf => len
  | NInf | NaN => 0%nat
  end.

(** [data.slice(i - windowSize, i)] for an index [i] of the array. *)
Definition window_at (data : list EnergyData) (windowSize : num) (i : nat)
    : list EnergyData :=
  slice data (slice_bound (length data) (of_nat i ⊖ windowSize)) i.

(** The body of the loop at a whole index [i], with [current = data[i]]
    and the window of the iteration. *)
Definition detect_in `{Math} (self : AnomalyDetector)
    (data window : list EnergyData) (i : nat) (current : EnergyData)
    : AnomalyData :=
  let anomalyResults :=
    [detectStatisticalAnomaly self current window;
     detectPatternAnomaly self current;
     detectContextualAnomaly current window;
     detectEquipmentAnomaly current (slice data (Nat.max 0 (i - 6)) i)] in
  let detectedAnomalies :=
    List.filter (fun a => isAnomaly a) anomalyResults in
  match detectedAnomalies with
  | first :: rest =>
      let mostSevere := fold_left more_severe rest first in
      {| a_timestamp := timestamp current; value := e_kwh current;
         isAnomaly := true; severity := severity mostSevere;
         type := type mostSevere;
         a_confidence := Some (calculateAnomalyConfidence detectedAnomalies) |}
  | [] =>
      {| a_timestamp := timestamp current; value := e_kwh current;
         isAnomaly := false; severity := Low; type := None;
         a_confidence := Some (Fin (95 # 100)) |}
  end.

(** The [TypeError] of [current.kwh] when [current] is [undefined]. *)
Definition undefined_sample : string :=
  "Cannot read properties of undefined (reading 'kwh')".

(** [detectAnomalies(data, windowSize)].  The loop starts at
    [Math.max(windowSize, 24)] and runs while [i < data.length].  When
    the start is not a whole number, [data[i]] is [undefined] and the
    first sub-detector throws on [current.kwh]; when it is one, every
    index of the loop is within the array.  The baseline is rebuilt
    before the loop in either case. *)
Definition detectAnomalies `{Math} (self : AnomalyDetector)
    (data : list EnergyData) (windowSize : num)
    : outcome (list AnomalyData) * AnomalyDetector :=
  let self := buildHistoricalBaseline self data in
  match max windowSize (Fin 24) with
  | Fin start =>
      if Qltb start (inject_Z (Z.of_nat (length data))) then
        if Qeq_bool (inject_Z (Qfloor start)) start then
          let first := Z.to_nat (Qfloor start) in
          (Returned
             (map (fun i => detect_in self data (window_at data windowSize i)
                              i (nth i data no_sample))
                (seq first (length data - first))),
           self)
        else (Thrown undefined_sample, self)
      else (Returned [], self)
  | _ => (Returned [], self)
  end.

End AnyWindow.

(** A sample whose readings used by the forecaster are finite. *)
Definition finite_sample (d : EnergyData) : Prop :=
  Finite (e_kwh d) /\ Finite (temperature d) /\ Finite (irradiance d).

(** ** The application ([App]) *)

Module App.

(** The battery update of the live loop:
    [if (result.batteryKwh && result.batteryCharge)
       setBatteryLevel(prev => Math.max(0, Math.min(50, prev -
       result.batteryKwh + result.batteryCharge)))]. *)
Definition live_battery_update (prev : num)
    (result : Optimizer.OptimizationResult) : num :=
  if truthy (Optimizer.batteryKwh result)
     && truthy (Optimizer.batteryCharge result)
  then max (Fin 0)
         (min (Fin 50)
            (prev - Optimizer.batteryKwh result
             + Optimizer.batteryCharge result))
  else prev.

(** [[...prevData, newDataPoint].slice(-336)]: two weeks of samples. *)
Definition retain (prevData : list EnergyData) (newDataPoint : EnergyData)
    : list EnergyData :=
  slice_last (prevData ++ [newDataPoint]) 336.

(** What one refresh hands to the three state setters. *)
Record Refresh : Type := {
  r_forecast : Forecaster.ForecastResult;
  r_optimization : Optimizer.OptimizationResult;
  r_anomalies : list Anomaly.AnomalyData
}.

(** The body of [if (updatedData.length > 48) { ... }], in the initial
    effect and in the live loop: forecast, optimize the forecast, detect
    anomalies with the default window.  Nothing is set when the history
    is short; an [Error] of the forecaster propagates. *)
Definition refresh `{Math} (optimizer : Optimizer.EnergyOptimizer)
    (anomalyDetector : Anomaly.AnomalyDetector)
    (updatedData : list EnergyData) (gridPrice batteryLevel : num)
    (timeOfUse : Optimizer.TimeOfUse) : outcome (option Refresh) :=
  if (48 <? length updatedData)%nat then
    match Forecaster.forecastNextHour updatedData with
    | Thrown message => Thrown message
    | Returned forecastResult =>
        let optimizationResult :=
          Optimizer.optimize optimizer
            (Forecaster.nextHourDemand forecastResult)
            (Forecaster.solarAvailable forecastResult)
            gridPrice batteryLevel timeOfUse in
        let anomalyResults :=
          fst (Anomaly.detectAnomalies anomalyDetector updatedData 48) in
        Returned (Some {| r_forecast := forecastResult;
                          r_optimization := optimizationResult;
                          r_anomalies := anomalyResults |})
    end
  else Returned None.

End App.

(** ** The energy-mix chart ([EnergyMixChart]) *)

Module Charts.

(** [total = optimization.gridKwh + optimization.solarKwh] *)
Definition total (optimization : Optimizer.OptimizationResult) : num :=
  Optimizer.gridKwh optimization ⊕ Optimizer.solarKwh optimization.

(** [total > 0 ? (optimization.gridKwh / total) * 100 : 0] *)
Definition gridPercent (optimization : Optimizer.OptimizationResult) : num :=
  if total optimization >? Fin 0
  then Optimizer.gridKwh optimization ⊘ total optimization ⊗ Fl.lit 100
  else Fin 0.

(** [total > 0 ? (optimization.solarKwh / total) * 100 : 0] *)
Definition solarPercent (optimization : Optimizer.OptimizationResult) : num :=
  if total optimization >? Fin 0
  then Optimizer.solarKwh optimization ⊘ total optimization ⊗ Fl.lit 100
  else Fin 0.

(** *** The line chart ([EnergyChart]), for a history that is not
    empty *)

(** [d.solarGeneration || 0] *)
Definition solar_or_zero (d : EnergyData) : num :=
  match solarGeneration d with
  | Some v => if truthy v then v else Fin 0
  | None => Fin 0
  end.

(** [Math.max(...values)] and [Math.min(...values)] *)
Definition max_of (values : list num) : num := fold_left max values NInf.
Definition min_of (values : list num) : num := fold_left min values PInf.

Definition maxValue (data : list EnergyData) : num :=
  max_of (map (fun d => max (e_kwh d) (solar_or_zero d)) data).

Definition minValue (data : list EnergyData) : num :=
  min_of (map (fun d => min (e_kwh d) (solar_or_zero d)) data).

Definition range (data : list EnergyData) : num :=
  maxValue data - minValue data.

(** [getY(value)] *)
Definition getY (data : list EnergyData) (height value : num) : num :=
  height - ((value - minValue data) / range data) * height.

(** [getX(index)] *)
Definition getX (data : list EnergyData) (index : nat) : num :=
  (of_nat index / (of_nat (length data) - Fin 1)) * Fin 100.

End Charts.

(** ** The data generator ([EnergyDataGenerator]) *)

Module Generator.

Record EnergyDataGenerator : Type := { seed : num }.

(** [new EnergyDataGenerator(seed = 42)] *)
Definition new_generator (s : option num) : EnergyDataGenerator :=
  {| seed := match s with Some v => v | None => Fin 42 end |}.

(** [random()]: [x = Math.sin(this.seed++) * 10000; x - Math.floor(x)],
    in doubles.  The value, and the generator with its seed advanced. *)
Definition random `{Math} (self : EnergyDataGenerator)
    : num * EnergyDataGenerator :=
  let x := Math_sin (seed self) ⊗ Fl.lit 10000 in
  (x ⊖ floor x, {| seed := seed self ⊕ Fl.lit 1 |}).

End Generator.

(** A sample whose consumption is a number that is not negative. *)
Definition nonneg_reading (d : EnergyData) : Prop :=
  exists q : Q, e_kwh d = Fin q /\ (0 <= q)%Q.

(** A sample whose consumption is a number between two bounds. *)
Definition reading_within (lo hi : Q) (d : EnergyData) : Prop :=
  exists q : Q, e_kwh d = Fin q /\ (lo <= q <= hi)%Q.

(** The loop of [detectAnomalies] starts between two samples: its first
    index [Math.max(windowSize, 24)] is a number below [data.length]
    that is not whole. *)
Definition fractional_start (data : list EnergyData) (windowSize : num)
    : Prop :=
  exists start : Q,
    JS.max windowSize (Fin 24) = Fin start /\
    (start < inject_Z (Z.of_nat (length data)))%Q /\
    ~ (inject_Z (Qfloor start) == start)%Q.

(** The tolerance of the energy balance of [optimize] over doubles, for
    inputs of magnitude at most [M]: the rounding of three fields to two
    decimals, and the rounding of the arithmetic, [(M + 1) * 2^-47]. *)
Definition bound64 (M : Q) : Q :=
  (15 # 1000) + (M + 1) * (1 # 140737488355328).

(** The energy balance of a result for a demand [d], within the
    tolerance for magnitude [M]. *)
Definition balanced64 (M d : Q) (r : Optimizer.OptimizationResult) : Prop :=
  exists S B G : Q,
    Optimizer.solarKwh r = Fin S /\ Optimizer.batteryKwh r = Fin B /\
    Optimizer.gridKwh r = Fin G /\
    (Qabs (S + B + G - d) <= bound64 M)%Q.

(** A rational of magnitude at most [M]. *)
Definition magnitude_within (M q : Q) : Prop := (- M <= q <= M)%Q.

(** A number that is not below zero: zero, a positive number,
    [Infinity], or [NaN]. *)
Definition not_negative (a : num) : Prop := lt a (Fin 0) = false.

(** A rational that is a double. *)
Definition is_double (q : Q) : Prop := (Binary64.rnd q == q)%Q.

(** The tolerance of the sum of the two percentages of the energy mix:
    [2^-43]. *)
Definition mix_tolerance : Q := 1 # 8796093022208.

(** How far apart the reported [gridStressReduction],
    [renewablePercentage] and [peakDemandReduction] can lie: two
    roundings to one decimal, and the rounding of the arithmetic. *)
Definition metric_tolerance : Q := (1 # 10) + (1 # 1000000).

(** The samples of the window that the contextual detector takes as
    similar to [current]: the [similarConditions] of
    [detectContextualAnomaly]. *)
Definition contextual_peers (current : EnergyData)
    (window : list EnergyData) : list EnergyData :=
  List.filter (fun d =>
            (abs (temperature d - temperature current) <? Fin 5)
            && (abs (occupancy d - occupancy current) <? Fin (2 # 10))
            && Bool.eqb (Anomaly.isBusinessHour current)
                 (Anomaly.isBusinessHour d))
    window.

(** A sample whose plotted values, consumption and solar generation,
    are finite numbers. *)
Definition plottable (d : EnergyData) : Prop :=
  Finite (e_kwh d) /\
  match solarGeneration d with Some v => Finite v | None => True end.

(** ** Sample inputs *)

(** A 10 kWh load that may run at hour 0, 1 or 2. *)
Definition ev_charger : Optimizer.FlexibleLoad :=
  {| Optimizer.name := "ev_charger"; Optimizer.kwh := Fin 10;
     Optimizer.timeWindow := [0; 1; 2]%Z |}.


(** One sample per hour from the epoch on, with the given consumption
    values, a constant weather and a constant occupancy. *)
Definition hourly_sample (i : nat) (consumption : num) : EnergyData :=
  {| timestamp := Z.of_nat i; e_kwh := consumption;
     temperature := Fin 20; irradiance := Fin 300; windSpeed := Fin 3;
     occupancy := Fin (5 # 10); solarGeneration := None |}.

Definition hourly_history (consumption : list num) : list EnergyData :=
  map (fun p => hourly_sample (fst p) (snd p))
    (combine (seq 0 (length consumption)) consumption).

(** Forty-two hours at 100 kWh, six hours at 1 kWh, then 3 kWh. *)
Definition masked_spike_history : list EnergyData :=
  hourly_history (repeat (Fin 100) 42 ++ repeat (Fin 1) 6 ++ [Fin 3]).

(** Forty-two hours alternating between 0 and 60 kWh, six hours at
    10 kWh, then 30 kWh. *)
Definition noisy_spike_history : list EnergyData :=
  hourly_history
    (concat (repeat [Fin 0; Fin 60] 21) ++ repeat (Fin 10) 6 ++ [Fin 30]).

(** Fifty hours at 10 kWh. *)
Definition fractional_window_history : list EnergyData :=
  hourly_history (repeat (Fin 10) 50).

(** Forty-eight hours at 10 kWh, then 30 kWh. *)
Definition plain_spike_history : list EnergyData :=
  hourly_history (repeat (Fin 10) 48 ++ [Fin 30]).

(** Four night hours at 10, 10, 30 and 30 kWh. *)
Definition uneven_night : list EnergyData :=
  hourly_history [Fin 10; Fin 10; Fin 30; Fin 30].

(** A building that draws nothing for 48 hours. *)
Definition idle_history : list EnergyData :=
  hourly_history (repeat (Fin 0) 48).

(** * Properties *)

(** ** Reasoning about numbers *)

Section NumFacts.

Lemma Qltb_true (x y : Q) : Qltb x y = true <-> (x < y)%Q.
Proof.
  unfold Qltb. rewrite negb_true_iff. split.
  - intros H. apply Qnot_le_lt. intros Hle.
    apply Qle_bool_iff in Hle. congruence.
  - intros H. destruct (Qle_bool y x) eqn:E; [|reflexivity].
    apply Qle_bool_iff in E. lra.
Qed.

Lemma Qltb_false (x y : Q) : Qltb x y = false <-> (y <= x)%Q.
Proof.
  unfold Qltb. rewrite negb_false_iff. apply Qle_bool_iff.
Qed.

Lemma Qltb_cases (x y : Q) : Qlt_cases x y (Qltb x y).
Proof.
  destruct (Qltb x y) eqn:E; constructor.
  - now apply Qltb_true.
  - now apply Qltb_false.
Qed.

Lemma Qle_bool_cases (x y : Q) : Qle_cases x y (Qle_bool x y).
Proof.
  destruct (Qle_bool x y) eqn:E; constructor.
  - now apply Qle_bool_iff.
  - apply Qnot_le_lt. intros H. apply Qle_bool_iff in H. congruence.
Qed.

Lemma Qeq_bool_cases (x y : Q) : Qeq_cases x y (Qeq_bool x y).
Proof.
  destruct (Qeq_bool x y) eqn:E; constructor.
  - now apply Qeq_bool_iff.
  - now apply Qeq_bool_neq.
Qed.

End NumFacts.

(** Unfold the number operations on constructors, leaving the rational
    arithmetic alone. *)
Ltac js_simpl :=
  cbn [add sub neg mul div lt gt le ge strict_eq min max abs round floor
       truthy inf_signed is_fin is_nan JS.Eq andb orb negb fst snd
       Optimizer.d_solar Optimizer.d_charge Optimizer.d_excess
       Optimizer.d_discharge Optimizer.d_grid Optimizer.is_peak
       Optimizer.priceMultipliers Optimizer.multiplierQ] in *.

(** Split on one comparison of rationals in the goal. *)
Ltac q_case :=
  match goal with
  | |- context [Qltb ?a ?b] => destruct (Qltb_cases a b)
  | |- context [Qle_bool ?a ?b] => destruct (Qle_bool_cases a b)
  | |- context [Qeq_bool ?a ?b] => destruct (Qeq_bool_cases a b)
  end.

Ltac q_cases := js_simpl; repeat (q_case; js_simpl).

(** Close a conjunction of linear facts about rationals. *)
Ltac q_solve :=
  repeat match goal with
         | |- _ /\ _ => split
         | |- Fin _ = Fin _ => reflexivity
         | |- _ -> _ => intros
         end;
  try lra; try (left; lra); try (right; lra).

Section RoundFacts.

Lemma round_to_fin (k x : Q) :
  (0 < k)%Q ->
  round_to k (Fin x) = Fin (inject_Z (Qfloor (x * k + (1 # 2))) / k).
Proof.
  intros Hk. unfold round_to. js_simpl.
  destruct (Qeq_bool_cases k 0); [lra | reflexivity].
Qed.

(** Rounding to a grid of step [1/k] moves a value by at most half a
    step. *)
Lemma round_to_near (k x : Q) :
  (0 < k)%Q ->
  exists y, round_to k (Fin x) = Fin y /\
            (x * k - (1 # 2) < y * k)%Q /\ (y * k <= x * k + (1 # 2))%Q /\
            (y * k == inject_Z (Qfloor (x * k + (1 # 2))))%Q.
Proof.
  intros Hk. rewrite round_to_fin by assumption.
  eexists; split; [reflexivity|].
  pose proof (Qfloor_le (x * k + (1 # 2))) as Hlo.
  pose proof (Qlt_floor (x * k + (1 # 2))) as Hhi.
  rewrite inject_Z_plus in Hhi.
  set (f := inject_Z (Qfloor (x * k + (1 # 2)))) in *.
  assert (E : (f / k * k == f)%Q) by (field; lra).
  change (inject_Z 1) with 1%Q in Hhi.
  rewrite E. split; [lra | split; [lra | reflexivity]].
Qed.

(** A rounded value stays on the same side of any grid point. *)
Lemma round_to_ge_grid (k x : Q) (n : Z) :
  (0 < k)%Q -> (inject_Z n <= x * k)%Q ->
  exists y, round_to k (Fin x) = Fin y /\ (inject_Z n <= y * k)%Q.
Proof.
  intros Hk Hn. destruct (round_to_near k x Hk) as (y & Hy & _ & _ & Hf).
  exists y; split; [assumption|]. rewrite Hf. rewrite <- Zle_Qle.
  assert (H : (Qfloor (inject_Z n) <= Qfloor (x * k + (1 # 2)))%Z)
    by (apply Qfloor_resp_le; lra).
  now rewrite Qfloor_Z in H.
Qed.

Lemma round_to_le_grid (k x : Q) (n : Z) :
  (0 < k)%Q -> (x * k <= inject_Z n)%Q ->
  exists y, round_to k (Fin x) = Fin y /\ (y * k <= inject_Z n)%Q.
Proof.
  intros Hk Hn. destruct (round_to_near k x Hk) as (y & Hy & _ & _ & Hf).
  exists y; split; [assumption|]. rewrite Hf. rewrite <- Zle_Qle.
  assert (H : (Qfloor (x * k + (1 # 2)) < n + 1)%Z).
  { rewrite Zlt_Qlt. pose proof (Qfloor_le (x * k + (1 # 2))).
    rewrite inject_Z_plus. change (inject_Z 1) with 1%Q. lra. }
  lia.
Qed.

Lemma Eq_refl (a : num) : a ≃ a.
Proof. destruct a; cbn [JS.Eq]; [reflexivity | exact I ..]. Qed.

Lemma round_to_Eq (k : Q) (a b : num) :
  a ≃ b -> round_to k a ≃ round_to k b.
Proof.
  destruct a as [x| | |], b as [y| | |]; cbn [JS.Eq]; try tauto; intros E.
  2-3: apply Eq_refl.
  unfold round_to. js_simpl. destruct (Qeq_bool_cases k 0); js_simpl.
  - assert (Ef : Qfloor (x * k + (1 # 2)) = Qfloor (y * k + (1 # 2)))
      by (apply Qfloor_comp; rewrite E; reflexivity).
    rewrite Ef. apply Eq_refl.
  - assert (Ef : Qfloor (x * k + (1 # 2)) = Qfloor (y * k + (1 # 2)))
      by (apply Qfloor_comp; rewrite E; reflexivity).
    rewrite Ef. reflexivity.
Qed.

End RoundFacts.

(** ** Doubles *)

Section DoubleFacts.

Import Binary64.

Local Open Scope Q_scope.

Lemma pow2_pos (e : Z) : 0 < pow2 e.
Proof. apply Qpower_0_lt. reflexivity. Qed.

Lemma pow2_add (a b : Z) : pow2 (a + b) == pow2 a * pow2 b.
Proof. apply Qpower_plus. discriminate. Qed.

Lemma pow2_le (a b : Z) : (a <= b)%Z -> pow2 a <= pow2 b.
Proof. intros H. apply Qpower_le_compat_l; [exact H | discriminate]. Qed.

Lemma pow2_lt (a b : Z) : (a < b)%Z -> pow2 a < pow2 b.
Proof. intros H. apply Qpower_lt_compat_l; [exact H | reflexivity]. Qed.

Lemma pow2_lt_inv (a b : Z) : pow2 a < pow2 b -> (a < b)%Z.
Proof.
  intros H. destruct (Z_lt_le_dec a b) as [Hlt | Hge]; [exact Hlt|].
  pose proof (pow2_le b a Hge). lra.
Qed.

Lemma pow2_Z (n : Z) : (0 <= n)%Z -> pow2 n == inject_Z (2 ^ n).
Proof. intros H. unfold pow2. now rewrite Zpower_Qpower. Qed.

Lemma pow2_succ (a : Z) : pow2 (a + 1) == 2 * pow2 a.
Proof. rewrite pow2_add. change (pow2 1) with 2. ring. Qed.

Lemma pow2_pred (a : Z) : pow2 (a - 1) == pow2 a / 2.
Proof.
  assert (E : pow2 a == pow2 (a - 1 + 1)) by (now replace (a - 1 + 1)%Z with a by lia).
  rewrite E, pow2_succ. field.
Qed.

Lemma rne_cases (y : Q) :
  rne y = Qfloor y \/ rne y = (Qfloor y + 1)%Z.
Proof.
  unfold rne. destruct (Qcompare _ _); [destruct (Z.even _)| |]; auto.
Qed.

Lemma rne_near (y : Q) :
  y - (1 # 2) <= inject_Z (rne y) <= y + (1 # 2).
Proof.
  unfold rne.
  pose proof (Qfloor_le y) as Hlo. pose proof (Qlt_floor y) as Hhi.
  rewrite inject_Z_plus in Hhi. change (inject_Z 1) with 1 in Hhi.
  destruct (Qcompare_spec (y - inject_Z (Qfloor y)) (1 # 2)) as [E | E | E].
  - destruct (Z.even _); rewrite ?inject_Z_plus; change (inject_Z 1) with 1;
      lra.
  - lra.
  - rewrite inject_Z_plus. change (inject_Z 1) with 1. lra.
Qed.

Lemma rne_Z (k : Z) : rne (inject_Z k) = k.
Proof.
  unfold rne. rewrite Qfloor_Z.
  destruct (Qcompare_spec (inject_Z k - inject_Z k) (1 # 2)) as [E | E | E];
    [exfalso | reflexivity | exfalso]; set (q := inject_Z k) in *; lra.
Qed.

Lemma rne_mono (x y : Q) : x <= y -> (rne x <= rne y)%Z.
Proof.
  intros Hxy. pose proof (Qfloor_resp_le x y Hxy) as Hf.
  destruct (Z.eq_dec (Qfloor x) (Qfloor y)) as [E | N].
  - unfold rne. rewrite E.
    destruct (Qcompare_spec (x - inject_Z (Qfloor y)) (1 # 2));
      destruct (Qcompare_spec (y - inject_Z (Qfloor y)) (1 # 2));
      try destruct (Z.even _); try lia; exfalso; lra.
  - destruct (rne_cases x) as [-> | ->], (rne_cases y) as [-> | ->]; lia.
Qed.

Lemma rne_nonneg (y : Q) : 0 <= y -> (0 <= rne y)%Z.
Proof.
  intros H. rewrite <- (rne_Z 0). now apply rne_mono.
Qed.

Lemma pow2_opp (a : Z) : pow2 (- a) == / pow2 a.
Proof. apply Qpower_opp. Qed.

Lemma pow2_sub (a b : Z) : pow2 (a - b) == pow2 a / pow2 b.
Proof.
  unfold Z.sub. rewrite pow2_add, pow2_opp. reflexivity.
Qed.

Lemma log2_bounds (n : Z) :
  (0 < n)%Z ->
  pow2 (Z.log2 n) <= inject_Z n /\ inject_Z n < 2 * pow2 (Z.log2 n).
Proof.
  intros Hn. destruct (Z.log2_spec n Hn) as [Hlo Hhi].
  pose proof (Z.log2_nonneg n) as Hnn.
  rewrite <- pow2_succ. rewrite !pow2_Z by lia.
  rewrite <- Zle_Qle, <- Zlt_Qlt. replace (Z.log2 n + 1)%Z with (Z.succ (Z.log2 n)) by lia.
  split; assumption.
Qed.

Lemma mag_spec (x : Q) :
  0 < x -> pow2 (mag x - 1) <= x /\ x < pow2 (mag x).
Proof.
  intros Hx. unfold mag.
  set (a := Z.log2 (Qnum x)). set (b := Z.log2 (Zpos (Qden x))).
  assert (Hn : (0 < Qnum x)%Z).
  { unfold Qlt in Hx. cbn in Hx. lia. }
  destruct (log2_bounds (Qnum x) Hn) as [Ha1 Ha2]. fold a in Ha1, Ha2.
  destruct (log2_bounds (Zpos (Qden x)) eq_refl) as [Hb1 Hb2].
  fold b in Hb1, Hb2.
  assert (Ex : x == inject_Z (Qnum x) / inject_Z (Zpos (Qden x))).
  { rewrite <- Qmake_Qdiv. now destruct x. }
  pose proof (pow2_pos a) as Pa. pose proof (pow2_pos b) as Pb.
  set (N := inject_Z (Qnum x)) in *. set (D := inject_Z (Zpos (Qden x))) in *.
  set (A := pow2 a) in *. set (B := pow2 b) in *.
  assert (HD : 0 < D) by lra.
  assert (Hab : pow2 (a - b) == A / B) by apply pow2_sub.
  assert (Hlo : A / B / 2 < x).
  { rewrite Ex. apply Qlt_shift_div_l; [exact HD|].
    assert (E : A / B / 2 * D == (A * D) / (2 * B)) by (field; lra).
    rewrite E. apply Qlt_shift_div_r; [lra|]. nra. }
  assert (Hhi : x < 2 * (A / B)).
  { rewrite Ex. apply Qlt_shift_div_r; [exact HD|].
    assert (E : 2 * (A / B) * D == (2 * A * D) / B) by (field; lra).
    rewrite E. apply Qlt_shift_div_l; [lra|]. nra. }
  destruct (Qle_bool (pow2 (a - b)) x) eqn:Ecmp.
  - apply Qle_bool_iff in Ecmp.
    replace (a - b + 1 - 1)%Z with (a - b)%Z by lia.
    split; [exact Ecmp|]. rewrite pow2_succ, Hab. exact Hhi.
  - assert (Hlt : x < pow2 (a - b)).
    { apply Qnot_le_lt. intros H. apply Qle_bool_iff in H. congruence. }
    split; [|exact Hlt]. rewrite pow2_pred, Hab. lra.
Qed.

Lemma mag_unique (x : Q) (e : Z) :
  pow2 (e - 1) <= x -> x < pow2 e -> mag x = e.
Proof.
  intros Hlo Hhi.
  assert (Hx : 0 < x) by (pose proof (pow2_pos (e - 1)); lra).
  destruct (mag_spec x Hx) as [Mlo Mhi].
  assert (H1 : (e - 1 < mag x)%Z) by (apply pow2_lt_inv; lra).
  assert (H2 : (mag x - 1 < e)%Z) by (apply pow2_lt_inv; lra).
  lia.
Qed.

Lemma mag_mono (x y : Q) : 0 < x -> x <= y -> (mag x <= mag y)%Z.
Proof.
  intros Hx Hxy.
  destruct (mag_spec x Hx) as [Xlo Xhi].
  destruct (mag_spec y ltac:(lra)) as [Ylo Yhi].
  assert (H : (mag x - 1 < mag y)%Z) by (apply pow2_lt_inv; lra).
  lia.
Qed.

Lemma eps_pow2 : pow2 (-53) == eps.
Proof. reflexivity. Qed.

Lemma exponent_cases (x : Q) :
  (exponent x = mag x - 53 /\ -1074 <= mag x - 53)%Z \/
  (exponent x = -1074 /\ mag x - 53 < -1074)%Z.
Proof. unfold exponent. lia. Qed.

Lemma exponent_mono (x y : Q) :
  0 < x -> x <= y -> (exponent x <= exponent y)%Z.
Proof.
  intros Hx Hxy. pose proof (mag_mono x y Hx Hxy). unfold exponent. lia.
Qed.

Lemma round_pos_near (x : Q) :
  x - pow2 (exponent x) * (1 # 2) <= round_pos x <= x + pow2 (exponent x) * (1 # 2).
Proof.
  unfold round_pos. set (p := pow2 (exponent x)).
  pose proof (pow2_pos (exponent x)) as Hp. fold p in Hp.
  pose proof (rne_near (x / p)) as [Hlo Hhi].
  set (r := inject_Z (rne (x / p))) in *.
  assert (E : x / p * p == x) by (field; lra).
  set (y := x / p) in *.
  assert (H1 : (y - (1 # 2)) * p <= r * p)
    by (apply Qmult_le_compat_r; lra).
  assert (H2 : r * p <= (y + (1 # 2)) * p)
    by (apply Qmult_le_compat_r; lra).
  clearbody p y r. split; lra.
Qed.

Lemma round_pos_nonneg (x : Q) : 0 <= x -> 0 <= round_pos x.
Proof.
  intros Hx. unfold round_pos. pose proof (pow2_pos (exponent x)) as Hp.
  assert (H : (0 <= rne (x / pow2 (exponent x)))%Z).
  { apply rne_nonneg. apply Qle_shift_div_l; [exact Hp | lra]. }
  rewrite Zle_Qle in H. change (inject_Z 0) with 0 in H. nra.
Qed.

(** Half a unit in the last place is a relative error of [2^-53], or
    the absolute error [2^-1075] of the subnormal range. *)
Lemma half_ulp (x : Q) :
  0 < x -> pow2 (exponent x) * (1 # 2) <= eps * x + pow2 (-1075).
Proof.
  intros Hx. destruct (mag_spec x Hx) as [Hlo _].
  pose proof (pow2_pos (-1075)) as Heta.
  destruct (exponent_cases x) as [[-> _] | [-> _]].
  - assert (E : pow2 (mag x - 53) * (1 # 2) == eps * pow2 (mag x - 1)).
    { replace (mag x - 53)%Z with ((mag x - 1) + (-52))%Z by lia.
      rewrite pow2_add. change (pow2 (-52)) with (1 # 4503599627370496).
      unfold eps. field. }
    rewrite E. unfold eps in *. nra.
  - assert (E : pow2 (-1074) * (1 # 2) == pow2 (-1075)).
    { replace (-1075)%Z with (-1074 - 1)%Z by lia. rewrite pow2_pred. field. }
    rewrite E. unfold eps. nra.
Qed.

Lemma rnd_opp (x : Q) : rnd (- x) == - rnd x.
Proof.
  unfold rnd.
  destruct (Qcompare_spec x 0) as [E | E | E];
    destruct (Qcompare_spec (- x) 0) as [E' | E' | E'];
    try (exfalso; lra); try reflexivity.
  - ring.
  - assert (Hx : - - x = x) by (destruct x; unfold Qopp; cbn; now rewrite Z.opp_involutive).
    rewrite Hx. reflexivity.
Qed.

Lemma rnd_error (x : Q) :
  Qabs (rnd x - x) <= eps * Qabs x + pow2 (-1075).
Proof.
  pose proof (pow2_pos (-1075)) as Heta.
  unfold rnd. destruct (Qcompare_spec x 0) as [E | E | E].
  - rewrite E. change (Qabs (0 - 0)) with 0. change (Qabs 0) with 0. lra.
  - pose proof (round_pos_near (- x)) as [Hlo Hhi].
    pose proof (half_ulp (- x) ltac:(lra)) as Hu.
    rewrite (Qabs_neg x) by lra.
    apply Qabs_Qle_condition. split; lra.
  - pose proof (round_pos_near x) as [Hlo Hhi].
    pose proof (half_ulp x E) as Hu.
    rewrite (Qabs_pos x) by lra.
    apply Qabs_Qle_condition. split; lra.
Qed.

Lemma rnd_nonneg (x : Q) : 0 <= x -> 0 <= rnd x.
Proof.
  intros Hx. unfold rnd. destruct (Qcompare_spec x 0) as [E | E | E].
  - lra.
  - lra.
  - apply round_pos_nonneg. lra.
Qed.

Lemma rnd_nonpos (x : Q) : x <= 0 -> rnd x <= 0.
Proof.
  intros Hx. unfold rnd. destruct (Qcompare_spec x 0) as [E | E | E].
  - lra.
  - pose proof (round_pos_nonneg (- x) ltac:(lra)). lra.
  - lra.
Qed.

Lemma round_pos_upper (x : Q) :
  0 < x -> round_pos x <= pow2 (exponent x + 53).
Proof.
  intros Hx. destruct (mag_spec x Hx) as [_ Hhi].
  unfold round_pos. set (e := exponent x).
  pose proof (pow2_pos e) as Hp.
  assert (Hm : (mag x <= e + 53)%Z) by (unfold e, exponent; lia).
  assert (Hq : x / pow2 e <= inject_Z (2 ^ 53)).
  { apply Qle_shift_div_r; [exact Hp|].
    rewrite <- pow2_Z by lia. rewrite <- pow2_add.
    pose proof (pow2_le (mag x) (53 + e) ltac:(lia)). lra. }
  apply rne_mono in Hq. rewrite rne_Z in Hq.
  rewrite Zle_Qle in Hq. rewrite <- pow2_Z in Hq by lia.
  rewrite pow2_add. rewrite (Qmult_comm (pow2 e)).
  apply Qmult_le_compat_r; [exact Hq | lra].
Qed.

Lemma round_pos_lower (x : Q) :
  0 < x -> (-1074 <= mag x - 53)%Z -> pow2 (exponent x + 52) <= round_pos x.
Proof.
  intros Hx Hn. destruct (mag_spec x Hx) as [Hlo _].
  assert (He : exponent x = (mag x - 53)%Z) by (unfold exponent; lia).
  unfold round_pos. rewrite He. set (e := (mag x - 53)%Z).
  pose proof (pow2_pos e) as Hp.
  assert (Hq : inject_Z (2 ^ 52) <= x / pow2 e).
  { apply Qle_shift_div_l; [exact Hp|].
    rewrite <- pow2_Z by lia. rewrite <- pow2_add.
    replace (52 + e)%Z with (mag x - 1)%Z by (unfold e; lia). exact Hlo. }
  apply rne_mono in Hq. rewrite rne_Z in Hq.
  rewrite Zle_Qle in Hq. rewrite <- pow2_Z in Hq by lia.
  rewrite pow2_add. rewrite (Qmult_comm (pow2 e)).
  apply Qmult_le_compat_r; [exact Hq | lra].
Qed.

Lemma round_pos_mono (x y : Q) :
  0 < x -> x <= y -> round_pos x <= round_pos y.
Proof.
  intros Hx Hxy.
  pose proof (exponent_mono x y Hx Hxy) as He.
  destruct (Z.eq_dec (exponent x) (exponent y)) as [E | N].
  - unfold round_pos. rewrite E. set (p := pow2 (exponent y)).
    pose proof (pow2_pos (exponent y)) as Hp. fold p in Hp.
    assert (Hq : x / p <= y / p).
    { apply Qle_shift_div_l; [exact Hp|].
      assert (Ex : x / p * p == x) by (field; lra).
      rewrite Ex. exact Hxy. }
    apply rne_mono in Hq. rewrite Zle_Qle in Hq.
    apply Qmult_le_compat_r; [exact Hq | lra].
  - assert (Hlt : (exponent x < exponent y)%Z) by lia.
    assert (Hn : (-1074 <= mag y - 53)%Z).
    { unfold exponent in Hlt. lia. }
    pose proof (round_pos_upper x Hx) as Hu.
    pose proof (round_pos_lower y ltac:(lra) Hn) as Hl.
    pose proof (pow2_le (exponent x + 53) (exponent y + 52) ltac:(lia)).
    lra.
Qed.

Lemma rnd_mono (x y : Q) : x <= y -> rnd x <= rnd y.
Proof.
  intros Hxy.
  destruct (Qlt_le_dec 0 x) as [Hx | Hx].
  - unfold rnd.
    destruct (Qcompare_spec x 0); try (exfalso; lra).
    destruct (Qcompare_spec y 0); try (exfalso; lra).
    now apply round_pos_mono.
  - destruct (Qlt_le_dec y 0) as [Hy | Hy].
    + unfold rnd.
      destruct (Qcompare_spec x 0); try (exfalso; lra).
      destruct (Qcompare_spec y 0); try (exfalso; lra).
      pose proof (round_pos_mono (- y) (- x) ltac:(lra) ltac:(lra)). lra.
    + pose proof (rnd_nonpos x Hx). pose proof (rnd_nonneg y Hy). lra.
Qed.

Lemma rnd_comp (x y : Q) : x == y -> rnd x == rnd y.
Proof.
  intros E. apply Qle_antisym; apply rnd_mono; lra.
Qed.

Lemma rne_comp (x y : Q) : x == y -> rne x = rne y.
Proof.
  intros E. apply Z.le_antisymm; apply rne_mono; lra.
Qed.

(** Whole numbers below [2^53] in magnitude are doubles. *)
Lemma round_pos_int (k : Z) :
  (0 < k < 2 ^ 53)%Z -> round_pos (inject_Z k) == inject_Z k.
Proof.
  intros [Hk0 Hk1]. set (x := inject_Z k).
  assert (Hx : 0 < x).
  { unfold x. change 0 with (inject_Z 0). now rewrite <- Zlt_Qlt. }
  destruct (mag_spec x Hx) as [Hlo _].
  assert (Hx53 : x < pow2 53).
  { unfold x. rewrite pow2_Z by lia. now rewrite <- Zlt_Qlt. }
  assert (Hm : (mag x <= 53)%Z).
  { assert (H : (mag x - 1 < 53)%Z) by (apply pow2_lt_inv; lra). lia. }
  unfold round_pos. set (e := exponent x).
  assert (He : (e <= 0)%Z) by (unfold e, exponent; lia).
  pose proof (pow2_pos e) as Hp.
  assert (Ep : pow2 e * inject_Z (2 ^ (- e)) == 1).
  { rewrite <- pow2_Z by lia. rewrite <- pow2_add.
    replace (e + - e)%Z with 0%Z by lia. reflexivity. }
  assert (Eq : x / pow2 e == inject_Z (k * 2 ^ (- e))).
  { rewrite inject_Z_mult. fold x.
    set (t := inject_Z (2 ^ (- e))) in *. set (p := pow2 e) in *.
    clearbody t p. field_simplify_eq; [|lra]. nra. }
  rewrite (rne_comp _ _ Eq), rne_Z, inject_Z_mult. fold x.
  set (t := inject_Z (2 ^ (- e))) in *. set (p := pow2 e) in *.
  clearbody t p. nra.
Qed.

Lemma rnd_int (k : Z) :
  (- 2 ^ 53 < k < 2 ^ 53)%Z -> rnd (inject_Z k) == inject_Z k.
Proof.
  intros Hk. unfold rnd.
  destruct (Qcompare_spec (inject_Z k) 0) as [E | E | E].
  - now rewrite E.
  - assert (Hneg : (k < 0)%Z).
    { rewrite Zlt_Qlt. exact E. }
    assert (Eo : - inject_Z k == inject_Z (- k)) by now rewrite inject_Z_opp.
    assert (Er : round_pos (- inject_Z k) == round_pos (inject_Z (- k))).
    { apply Qle_antisym; apply round_pos_mono; lra. }
    rewrite Er, round_pos_int by lia. rewrite inject_Z_opp. ring.
  - assert (Hpos : (0 < k)%Z).
    { rewrite Zlt_Qlt. exact E. }
    apply round_pos_int. lia.
Qed.

(** A coarse form of the error bound, for intervals. *)
Lemma rnd_close (x M : Q) :
  - M <= x <= M ->
  x - eps * (M + 1) <= rnd x <= x + eps * (M + 1).
Proof.
  intros Hx. pose proof (rnd_error x) as He.
  apply Qabs_Qle_condition in He.
  assert (Ha : Qabs x <= M) by (apply Qabs_Qle_condition; lra).
  assert (Heta : pow2 (-1075) <= eps).
  { rewrite <- eps_pow2. apply pow2_le. lia. }
  unfold eps in *. set (a := Qabs x) in *. set (t := pow2 (-1075)) in *.
  clearbody a t. split; lra.
Qed.

Lemma round_pos_comp (x y : Q) : 0 < x -> x == y -> round_pos x == round_pos y.
Proof.
  intros Hx E. apply Qle_antisym; apply round_pos_mono; lra.
Qed.

(** A whole multiple [n * 2^e] of a power of two, with [n] below
    [2^53] and [e] at least -1074, is a double. *)
Lemma round_pos_grid (n e : Z) :
  (0 < n < 2 ^ 53)%Z -> (-1074 <= e)%Z ->
  round_pos (inject_Z n * pow2 e) == inject_Z n * pow2 e.
Proof.
  intros [Hn0 Hn1] He. set (y := inject_Z n * pow2 e).
  pose proof (pow2_pos e) as Hpe.
  assert (Hn0' : 0 < inject_Z n).
  { change 0 with (inject_Z 0). now rewrite <- Zlt_Qlt. }
  assert (Hn1' : inject_Z n < pow2 53).
  { rewrite pow2_Z by lia. now rewrite <- Zlt_Qlt. }
  assert (Hy : 0 < y) by (unfold y; nra).
  destruct (mag_spec y Hy) as [Hlo _].
  assert (Hy53 : y < pow2 (e + 53)).
  { rewrite pow2_add. unfold y. set (p := pow2 e) in *.
    set (q := pow2 53) in *. clearbody p q. nra. }
  assert (Hm : (mag y <= e + 53)%Z).
  { assert (H : (mag y - 1 < e + 53)%Z) by (apply pow2_lt_inv; lra). lia. }
  unfold round_pos. set (e' := exponent y).
  assert (He' : (e' <= e)%Z) by (unfold e', exponent; lia).
  pose proof (pow2_pos e') as Hp.
  assert (Ep : pow2 e == inject_Z (2 ^ (e - e')) * pow2 e').
  { rewrite <- pow2_Z by lia. rewrite <- pow2_add.
    replace (e - e' + e')%Z with e by lia. reflexivity. }
  assert (Eq : y / pow2 e' == inject_Z (n * 2 ^ (e - e'))).
  { rewrite inject_Z_mult. unfold y. rewrite Ep.
    set (t := inject_Z (2 ^ (e - e'))) in *. set (p := pow2 e') in *.
    clearbody t p. field. lra. }
  rewrite (rne_comp _ _ Eq), rne_Z, inject_Z_mult. unfold y. rewrite Ep.
  ring.
Qed.

Lemma rnd_round_pos (x : Q) : 0 < x -> rnd (round_pos x) == round_pos x.
Proof.
  intros Hx.
  pose proof (round_pos_nonneg x ltac:(lra)) as H0.
  pose proof (round_pos_upper x Hx) as Hup.
  set (e := exponent x) in *. pose proof (pow2_pos e) as Hp.
  assert (He : (-1074 <= e)%Z) by (unfold e, exponent; lia).
  set (n := rne (x / pow2 e)).
  assert (Er : round_pos x == inject_Z n * pow2 e) by reflexivity.
  assert (Hn : (0 <= n)%Z).
  { unfold n. apply rne_nonneg. apply Qle_shift_div_l; [exact Hp | lra]. }
  assert (Hn53 : (n <= 2 ^ 53)%Z).
  { rewrite Zle_Qle. rewrite <- pow2_Z by lia.
    rewrite Er, pow2_add in Hup.
    set (p := pow2 e) in *. set (q := pow2 53) in *.
    set (k := inject_Z n) in *. clearbody p q k. nra. }
  destruct (Z.eq_dec n 0%Z) as [Z0 | NZ].
  { assert (E0 : round_pos x == 0) by (rewrite Er, Z0; ring).
    rewrite (rnd_comp _ _ E0), E0. reflexivity. }
  assert (Hpos : 0 < round_pos x).
  { rewrite Er. assert (0 < inject_Z n).
    { change 0 with (inject_Z 0). rewrite <- Zlt_Qlt. lia. }
    nra. }
  unfold rnd at 1. destruct (Qcompare_spec (round_pos x) 0) as [E | E | E];
    try (exfalso; lra).
  destruct (Z.eq_dec n (2 ^ 53)%Z) as [Top | NTop].
  - assert (E2 : round_pos x == inject_Z (2 ^ 52) * pow2 (e + 1)).
    { rewrite Er, Top, pow2_succ.
      change (inject_Z (2 ^ 53)) with (2 * inject_Z (2 ^ 52)). ring. }
    rewrite (round_pos_comp _ _ Hpos E2).
    rewrite round_pos_grid by lia. now symmetry.
  - rewrite (round_pos_comp _ _ Hpos Er).
    rewrite round_pos_grid by lia. now symmetry.
Qed.

(** Rounding a double leaves it as it is. *)
Lemma rnd_idem (x : Q) : rnd (rnd x) == rnd x.
Proof.
  destruct (Qcompare_spec x 0) as [E | E | E].
  - assert (E0 : rnd x == 0) by (rewrite (rnd_comp _ _ E); reflexivity).
    rewrite (rnd_comp _ _ E0), E0. reflexivity.
  - assert (Ex : rnd x == - round_pos (- x)).
    { unfold rnd. destruct (Qcompare_spec x 0); try (exfalso; lra).
      reflexivity. }
    rewrite (rnd_comp _ _ Ex), rnd_opp, rnd_round_pos by lra.
    now symmetry.
  - assert (Ex : rnd x == round_pos x).
    { unfold rnd. destruct (Qcompare_spec x 0); try (exfalso; lra).
      reflexivity. }
    rewrite (rnd_comp _ _ Ex), rnd_round_pos by lra.
    now symmetry.
Qed.

(** On the samples, sums, differences, products and quotients rounded
    by [rnd] are those of the machine, down to the subnormal range; so
    are the decimal constants of the source. *)
Lemma rnd_agrees_with_hardware :
  forallb (fun x => forallb (Hardware.agree x) Hardware.samples)
    Hardware.samples = true /\
  forallb (fun x =>
             Hardware.agree (PrimFloat.mul x Hardware.tiny)
               (PrimFloat.mul (Hardware.quotient 3 1) Hardware.tiny))
    Hardware.samples = true /\
  forallb (fun p => Qeq_bool (rnd (inject_Z (fst p) / inject_Z (snd p)))
                      (Hardware.Q_of_float
                         (Hardware.quotient (fst p) (snd p))))
    [(1, 10); (15, 100); (18, 10); (6, 10); (8, 10); (7, 10); (12, 100);
     (1867, 100); (133, 100); (497, 10); (129, 1000); (86, 1000)]%Z = true.
Proof. vm_compute. repeat split. Qed.

End DoubleFacts.

(** ** Operations on doubles *)

Section RoundedFacts.

Import Binary64.

Lemma pow2_ladder :
  (1 <= pow2 1000 /\ pow2 1020 == 1048576 * pow2 1000 /\
   pow2 1024 == 16 * pow2 1020)%Q.
Proof.
  split; [|split].
  - change 1%Q with (pow2 0). apply pow2_le. lia.
  - replace 1020%Z with (20 + 1000)%Z by lia. rewrite pow2_add. reflexivity.
  - replace 1024%Z with (4 + 1020)%Z by lia. rewrite pow2_add. reflexivity.
Qed.

Lemma to_double_fin (q M : Q) :
  (- M <= q <= M)%Q -> (M <= pow2 1020)%Q ->
  Fl.to_double (Fin q) = Fin (rnd q).
Proof.
  intros Hq HM.
  pose proof (rnd_close q M Hq) as Hc.
  destruct pow2_ladder as (L1 & L2 & L3).
  assert (Hsmall : (Qabs (rnd q) < pow2 1024)%Q).
  { apply Qabs_Qlt_condition. unfold eps in Hc.
    set (P := pow2 1000) in *. set (P2 := pow2 1020) in *.
    set (P3 := pow2 1024) in *. set (r := rnd q) in *.
    clearbody P P2 P3 r. split; lra. }
  unfold Fl.to_double.
  destruct (Qle_bool (pow2 1024) (Qabs (rnd q))) eqn:E; [|reflexivity].
  apply Qle_bool_iff in E. lra.
Qed.

Lemma to_double_near (q M : Q) :
  (- M <= q <= M)%Q -> (M <= pow2 1020)%Q ->
  exists z : Q,
    Fl.to_double (Fin q) = Fin z /\
    (q - eps * (M + 1) <= z <= q + eps * (M + 1))%Q /\
    (0 <= q -> 0 <= z)%Q /\ (q <= 0 -> z <= 0)%Q.
Proof.
  intros Hq HM. exists (rnd q).
  split; [now apply (to_double_fin q M)|].
  split; [now apply rnd_close|].
  split; [apply rnd_nonneg | apply rnd_nonpos].
Qed.

Lemma fl_sub_near (x y M : Q) :
  (- M <= x - y <= M)%Q -> (M <= pow2 1020)%Q ->
  exists z : Q,
    Fin x ⊖ Fin y = Fin z /\
    (x - y - eps * (M + 1) <= z <= x - y + eps * (M + 1))%Q /\
    (0 <= x - y -> 0 <= z)%Q /\ (x - y <= 0 -> z <= 0)%Q.
Proof.
  intros Hq HM. unfold Fl.sub. cbn [JS.sub JS.add JS.neg].
  apply (to_double_near (x + - y) M); assumption.
Qed.

Lemma fl_add_near (x y M : Q) :
  (- M <= x + y <= M)%Q -> (M <= pow2 1020)%Q ->
  exists z : Q,
    Fin x ⊕ Fin y = Fin z /\
    (x + y - eps * (M + 1) <= z <= x + y + eps * (M + 1))%Q /\
    (0 <= x + y -> 0 <= z)%Q /\ (x + y <= 0 -> z <= 0)%Q.
Proof.
  intros Hq HM. unfold Fl.add. cbn [JS.add].
  apply (to_double_near (x + y) M); assumption.
Qed.

Lemma fl_mul_near (x y M : Q) :
  (- M <= x * y <= M)%Q -> (M <= pow2 1020)%Q ->
  exists z : Q,
    Fin x ⊗ Fin y = Fin z /\
    (x * y - eps * (M + 1) <= z <= x * y + eps * (M + 1))%Q /\
    (0 <= x * y -> 0 <= z)%Q /\ (x * y <= 0 -> z <= 0)%Q.
Proof.
  intros Hq HM. unfold Fl.mul. cbn [JS.mul].
  apply (to_double_near (x * y) M); assumption.
Qed.

Lemma fl_div_near (x y M : Q) :
  ~ (y == 0)%Q -> (- M <= x / y <= M)%Q -> (M <= pow2 1020)%Q ->
  exists z : Q,
    Fin x ⊘ Fin y = Fin z /\
    (x / y - eps * (M + 1) <= z <= x / y + eps * (M + 1))%Q /\
    (0 <= x / y -> 0 <= z)%Q /\ (x / y <= 0 -> z <= 0)%Q.
Proof.
  intros Hy Hq HM. unfold Fl.div. cbn [JS.div].
  destruct (Qeq_bool_cases y 0) as [E | _]; [contradiction|].
  apply (to_double_near (x / y) M); assumption.
Qed.

(** Whole-number literals below [2^53] are exact. *)
Lemma lit_int (k : Z) :
  (- 2 ^ 53 < k < 2 ^ 53)%Z ->
  exists c : Q, Fl.lit (inject_Z k) = Fin c /\ (c == inject_Z k)%Q.
Proof.
  intros Hk. unfold Fl.lit.
  rewrite (to_double_fin (inject_Z k) (pow2 1020)).
  2: { assert (H : (Qabs (inject_Z k) <= pow2 1020)%Q).
    { assert (H53 : (Qabs (inject_Z k) <= pow2 53)%Q).
      { apply Qabs_Qle_condition. rewrite pow2_Z by lia.
        rewrite <- inject_Z_opp, <- !Zle_Qle. lia. }
      pose proof (pow2_le 53 1020 ltac:(lia)). lra. }
    now apply Qabs_Qle_condition. }
  2: lra.
  exists (rnd (inject_Z k)). split; [reflexivity | now apply rnd_int].
Qed.

(** [Math.round(x * 100) / 100] in doubles is within half a cent of [x],
    up to the rounding of the product and of the quotient. *)
Lemma round2_near (x K : Q) :
  (- K <= x <= K)%Q -> (K <= 8 * pow2 1000)%Q ->
  exists z : Q,
    Rounded.round2 (Fin x) = Fin z /\
    (x - ((5 # 1000) + eps * (3 * K + 3)) <= z <= x + ((5 # 1000) + eps * (3 * K + 3)))%Q /\
    (0 <= x -> 0 <= z)%Q.
Proof.
  intros Hx HK. unfold Rounded.round2, Rounded.round_to.
  destruct pow2_ladder as (L1 & L2 & L3).
  destruct (lit_int 100 ltac:(lia)) as (c & Elit & Hc).
  change (inject_Z 100) with 100%Q in Elit, Hc. rewrite Elit.
  assert (HK0 : (0 <= K)%Q) by lra.
  assert (Exc : (x * c == x * 100)%Q) by (now rewrite Hc).
  destruct (fl_mul_near x c (100 * K)) as (y1 & -> & Hy1 & Hy1pos & _).
  { rewrite Exc. lra. }
  { set (P := pow2 1000) in *. set (P2 := pow2 1020) in *.
    clearbody P P2. lra. }
  rewrite Exc in Hy1, Hy1pos.
  cbn [JS.round].
  pose proof (Qfloor_le (y1 + (1 # 2))) as Hf1.
  pose proof (Qlt_floor (y1 + (1 # 2))) as Hf2.
  rewrite inject_Z_plus in Hf2. change (inject_Z 1) with 1%Q in Hf2.
  set (N := inject_Z (Qfloor (y1 + (1 # 2)))) in *.
  assert (Hcn : ~ (c == 0)%Q) by (rewrite Hc; discriminate).
  assert (ENc : (N / c == N * (1 # 100))%Q).
  { rewrite Hc. field. }
  assert (Heps : (0 < eps)%Q) by reflexivity.
  assert (Heps1 : (eps <= 1 # 1000)%Q) by (unfold eps; unfold Qle; cbn; lia).
  assert (HepsK : (0 <= eps * K)%Q) by nra.
  assert (HepsK1 : (eps * K <= K * (1 # 1000))%Q) by nra.
  destruct (fl_div_near N c (2 * K + 1) Hcn) as (z & -> & Hz & Hzpos & _).
  { rewrite ENc. clearbody N. lra. }
  { set (P := pow2 1000) in *. set (P2 := pow2 1020) in *.
    clearbody P P2. lra. }
  rewrite ENc in Hz, Hzpos.
  exists z. split; [reflexivity|]. split.
  - clearbody N. lra.
  - intros Hx0. apply Hzpos.
    assert (H0 : (0 <= y1)%Q) by (apply Hy1pos; lra).
    assert (HN : (0 <= N)%Q).
    { unfold N. change 0%Q with (inject_Z 0). rewrite <- Zle_Qle.
      rewrite <- (Qfloor_Z 0). apply Qfloor_resp_le. change (inject_Z 0) with 0%Q. lra. }
    clearbody N. lra.
Qed.

End RoundedFacts.

(** ** The energy balance over doubles *)

Section Balance64.

Import Binary64 Optimizer.

Variable self : EnergyOptimizer.

Lemma dispatch_balance64 (d s M : Q) (adj l : num) (tou : TimeOfUse) :
  (- M <= d <= M)%Q -> (- M <= s <= M)%Q -> (M <= pow2 1000)%Q ->
  exists sol dis g : Q,
    d_solar (Rounded.dispatch self d s adj l tou) = Fin sol /\
    d_discharge (Rounded.dispatch self d s adj l tou) = Fin dis /\
    d_grid (Rounded.dispatch self d s adj l tou) = Fin g /\
    (- M <= sol <= M)%Q /\ (0 <= dis <= 3 * M + 1)%Q /\
    (- (4 * M + 2) <= g <= 4 * M + 2)%Q /\
    (d - eps * (5 * M + 3) <= sol + dis + g <= d + eps * (5 * M + 3))%Q /\
    (0 <= d -> 0 <= s -> 0 <= sol /\ 0 <= g)%Q.
Proof.
  intros Hd Hs HM.
  destruct pow2_ladder as (L1 & L2 & L3).
  assert (HM0 : (0 <= M)%Q) by lra.
  assert (Heps : (0 < eps)%Q) by reflexivity.
  assert (Heps1 : (eps <= 1 # 1000)%Q) by (unfold eps, Qle; cbn; lia).
  assert (HepsM : (0 <= eps * M)%Q) by nra.
  assert (HepsM1 : (eps * M <= M * (1 # 1000))%Q) by nra.
  assert (Hsol : exists sol : Q,
            min (Fin s) (Fin d) = Fin sol /\ (- M <= sol <= M)%Q /\
            (sol <= d)%Q /\ (0 <= d -> 0 <= s -> 0 <= sol)%Q).
  { q_cases; eexists; (split; [reflexivity|]); repeat split; intros; lra. }
  destruct Hsol as (sol & Esol & Hsol & Hsold & Hsol0).
  unfold Rounded.dispatch. rewrite Esol.
  destruct (fl_sub_near d sol (2 * M)) as (r & -> & Hr & Hr0 & _).
  { lra. }
  { set (P := pow2 1000) in *. set (P2 := pow2 1020) in *.
    clearbody P P2. lra. }
  assert (Hr1 : (0 <= r)%Q) by (apply Hr0; lra).
  destruct (Fin s ⊖ Fin sol >? Fin 0).
  all: cbn [fst snd].
  all: destruct ((Fin r >? Fin 0) && (l >? Fin 0)) eqn:Eguard.
  all: try destruct (is_peak tou || (adj >? Fl.lit (15 # 100))).
  all: cbn [d_solar d_discharge d_grid].
  all: try (exists sol, 0%Q, r; split; [reflexivity|]; split; [reflexivity|];
            split; [reflexivity|]; repeat split; try lra;
            intros H1 H2; specialize (Hsol0 H1 H2); lra).
  all: apply andb_prop in Eguard as [Er El].
  all: assert (Hrpos : (0 < r)%Q) by (apply Qltb_true in Er; exact Er).
  all: assert (Hdis : exists dis : Q,
            min (Fin r) l = Fin dis /\ (0 < dis <= r)%Q)
         by (destruct l as [q | | |]; try discriminate El;
             [apply Qltb_true in El; q_cases; eexists;
              (split; [reflexivity | lra])
             | exists r; split; [reflexivity | lra]]).
  all: destruct Hdis as (dis & -> & Hdis).
  all: destruct (fl_sub_near r dis (3 * M + 1)) as (g & -> & Hg & Hg0 & _);
         [lra | set (P := pow2 1000) in *; set (P2 := pow2 1020) in *;
                clearbody P P2; lra |].
  all: exists sol, dis, g; split; [reflexivity|]; split; [reflexivity|];
         split; [reflexivity|].
  all: assert (0 <= g)%Q by (apply Hg0; lra).
  all: repeat split; try lra; intros H1 H2; specialize (Hsol0 H1 H2); lra.
Qed.

(** C1.  For every call of [optimize] on finite numbers of magnitude at
    most [M], evaluated in doubles, the returned [solarKwh], [batteryKwh]
    and [gridKwh] are numbers whose sum differs from the demand by at
    most the rounding of the three fields to two decimals (0.005 each)
    and the rounding of the arithmetic, [(M + 1) * 2^-47]; this holds
    for the sum of the three doubles as real numbers, and for
    [solarKwh + batteryKwh + gridKwh - demand] evaluated in doubles.
    The grid takes the residual whatever the price, the period, the
    battery level ([NaN] and the infinities included) and the battery
    are. *)
Theorem optimize_energy_balance_binary64 (d s M : Q) (p l : num)
    (tou : TimeOfUse) :
  (- M <= d <= M)%Q -> (- M <= s <= M)%Q -> (M <= pow2 1000)%Q ->
  let r := Rounded.optimize self d s p l tou in
  exists S B G T : Q,
    solarKwh r = Fin S /\ batteryKwh r = Fin B /\ gridKwh r = Fin G /\
    (Qabs (S + B + G - d) <= bound64 M)%Q /\
    solarKwh r ⊕ batteryKwh r ⊕ gridKwh r ⊖ Fin d = Fin T /\
    (Qabs T <= bound64 M)%Q.
Proof.
  intros Hd Hs HM. cbn zeta. unfold Rounded.optimize.
  cbn [solarKwh batteryKwh gridKwh].
  destruct (dispatch_balance64 d s M (p ⊗ Rounded.priceMultipliers tou) l
              tou Hd Hs HM)
    as (sol & dis & g & -> & -> & -> & Hsol & Hdis & Hg & Hbal & _).
  destruct pow2_ladder as (L1 & L2 & L3).
  assert (HM0 : (0 <= M)%Q) by lra.
  destruct (round2_near sol M Hsol) as (S & -> & HS & _); [lra|].
  destruct (round2_near dis (3 * M + 1)) as (B & -> & HB & _); [lra | lra |].
  destruct (round2_near g (4 * M + 2)) as (G & -> & HG & _); [lra | lra |].
  assert (Heps : (eps == 1 # 9007199254740992)%Q) by reflexivity.
  rewrite Heps in HS, HB, HG, Hbal.
  assert (HP : (9 * M + 9 <= pow2 1020)%Q).
  { set (P := pow2 1000) in *. set (P2 := pow2 1020) in *.
    clearbody P P2. lra. }
  destruct (fl_add_near S B (5 * M + 5)) as (T1 & -> & HT1 & _);
    [lra | apply (Qle_trans _ (9 * M + 9)); [lra | exact HP] |].
  rewrite Heps in HT1.
  destruct (fl_add_near T1 G (9 * M + 9)) as (T2 & -> & HT2 & _);
    [lra | exact HP |].
  rewrite Heps in HT2.
  destruct (fl_sub_near T2 d (M + 1)) as (T & -> & HT & _);
    [lra | apply (Qle_trans _ (9 * M + 9)); [lra | exact HP] |].
  rewrite Heps in HT.
  exists S, B, G, T. repeat split.
  - apply Qabs_Qle_condition. unfold bound64. split; lra.
  - apply Qabs_Qle_condition. unfold bound64. split; lra.
Qed.

End Balance64.

Section Balance64Samples.

Import Optimizer.

(** A demand of 0.375 kWh with 0.125 kWh of solar and a battery at
    0.125 kWh in a peak period: solar, battery and grid are each
    reported as 0.13. *)
Lemma optimize_energy_balance_binary64_witness :
  ((- 1 <= 375 # 1000 <= 1)%Q /\ (- 1 <= 125 # 1000 <= 1)%Q /\
   (1 <= Binary64.pow2 1000)%Q) /\
  exists S B G T : Q,
    solarKwh (Rounded.optimize default_optimizer (Fin (375 # 1000))
                (Fin (125 # 1000)) (Fin (12 # 100)) (Fin (125 # 1000)) Peak)
      = Fin S /\
    batteryKwh (Rounded.optimize default_optimizer (Fin (375 # 1000))
                  (Fin (125 # 1000)) (Fin (12 # 100)) (Fin (125 # 1000)) Peak)
      = Fin B /\
    gridKwh (Rounded.optimize default_optimizer (Fin (375 # 1000))
               (Fin (125 # 1000)) (Fin (12 # 100)) (Fin (125 # 1000)) Peak)
      = Fin G /\
    (Qabs (S + B + G - (375 # 1000)) <= bound64 1)%Q /\
    solarKwh (Rounded.optimize default_optimizer (Fin (375 # 1000))
                (Fin (125 # 1000)) (Fin (12 # 100)) (Fin (125 # 1000)) Peak)
    ⊕ batteryKwh (Rounded.optimize default_optimizer (Fin (375 # 1000))
                    (Fin (125 # 1000)) (Fin (12 # 100)) (Fin (125 # 1000))
                    Peak)
    ⊕ gridKwh (Rounded.optimize default_optimizer (Fin (375 # 1000))
                 (Fin (125 # 1000)) (Fin (12 # 100)) (Fin (125 # 1000)) Peak)
    ⊖ Fin (375 # 1000) = Fin T /\
    (Qabs T <= bound64 1)%Q.
Proof.
  assert (H1 : (- 1 <= 375 # 1000 <= 1)%Q) by (split; lra).
  assert (H2 : (- 1 <= 125 # 1000 <= 1)%Q) by (split; lra).
  assert (H3 : (1 <= Binary64.pow2 1000)%Q) by apply pow2_ladder.
  split; [repeat split; lra|].
  exact (optimize_energy_balance_binary64 default_optimizer
           (375 # 1000) (125 # 1000) 1 (Fin (12 # 100)) (Fin (125 # 1000))
           Peak H1 H2 H3).
Defined.

(** On that call the three fields add up to more than the demand plus
    0.015: the three roundings to two decimals add 0.015, and the
    doubles nearest to 0.13 lie above it. *)
Example optimize_balance_above_three_half_cents :
  exists S B G : Q,
    solarKwh (Rounded.optimize default_optimizer (Fin (375 # 1000))
                (Fin (125 # 1000)) (Fin (12 # 100)) (Fin (125 # 1000)) Peak)
      = Fin S /\
    batteryKwh (Rounded.optimize default_optimizer (Fin (375 # 1000))
                  (Fin (125 # 1000)) (Fin (12 # 100)) (Fin (125 # 1000)) Peak)
      = Fin B /\
    gridKwh (Rounded.optimize default_optimizer (Fin (375 # 1000))
               (Fin (125 # 1000)) (Fin (12 # 100)) (Fin (125 # 1000)) Peak)
      = Fin G /\
    ((15 # 1000) < S + B + G - (375 # 1000))%Q.
Proof.
  do 3 eexists.
  split; [vm_compute; reflexivity|].
  split; [vm_compute; reflexivity|].
  split; [vm_compute; reflexivity|].
  vm_compute. reflexivity.
Qed.

End Balance64Samples.

(** ** The optimizer *)

Section OptimizerFacts.

Import Optimizer.

Variable self : EnergyOptimizer.

Lemma adjusted_price_fin (p : Q) (tou : TimeOfUse) :
  exists a, Fin p * priceMultipliers tou = Fin a /\
            (a == p * multiplierQ tou)%Q.
Proof.
  destruct tou; eexists; (split; [reflexivity|]); cbn [multiplierQ]; lra.
Qed.

(** On finite inputs the merit-order dispatch is finite: solar is the
    smaller of supply and demand, discharge is bounded by what is left,
    and the grid takes the residual exactly. *)
Lemma dispatch_balance (d s p l : Q) (tou : TimeOfUse) :
  exists sol dis g,
    d_solar (dispatch self d s p l tou) = Fin sol /\
    d_discharge (dispatch self d s p l tou) = Fin dis /\
    d_grid (dispatch self d s p l tou) = Fin g /\
    (g == d - sol - dis)%Q /\
    (sol <= d)%Q /\ (sol <= s)%Q /\ (sol == d \/ sol == s)%Q /\
    (0 <= dis)%Q /\ (0 <= g)%Q /\
    (0 < dis -> s < d /\ 0 < l)%Q.
Proof.
  unfold dispatch. destruct tou; q_cases; do 3 eexists; q_solve.
Qed.


(** Excess solar and unmet demand never occur together, so one of the
    two battery flows is the literal zero. *)
Lemma dispatch_exclusive (d s a l : Q) (tou : TimeOfUse) :
  d_charge (dispatch self d s a l tou) = Fin 0 \/
  d_discharge (dispatch self d s a l tou) = Fin 0.
Proof.
  unfold dispatch. js_simpl.
  destruct (Qltb_cases d s); js_simpl.
  - right. destruct (Qltb_cases 0 (s + - d)); js_simpl;
      destruct (Qltb_cases 0 (d + - d)); js_simpl; solve [reflexivity | lra].
  - left. destruct (Qltb_cases 0 (s + - s)); js_simpl; [lra|].
    destruct (Qltb 0 (d + - s) && Qltb 0 l);
      [destruct (is_peak tou || Qltb (15 # 100) a)|]; reflexivity.
Qed.

Lemma round2_zero :
  round2 (Fin 0) ≃ Fin 0 /\ lt (Fin 0) (round2 (Fin 0)) = false.
Proof. split; reflexivity. Qed.

(** C10.  In one call of [optimize] with non-negative inputs the battery
    is never both charged and discharged: a positive [batteryCharge]
    comes with a zero [batteryKwh], and a positive [batteryKwh] with a
    zero [batteryCharge]. *)
Theorem charge_discharge_exclusive (d s p l : Q) (tou : TimeOfUse) :
  (0 <= d)%Q -> (0 <= s)%Q -> (0 <= l)%Q ->
  let r := optimize self d s p l tou in
  (Lt (Fin 0) (batteryCharge r) -> batteryKwh r ≃ Fin 0) /\
  (Lt (Fin 0) (batteryKwh r) -> batteryCharge r ≃ Fin 0).
Proof.
  intros _ _ _. cbn zeta. unfold optimize. cbn [batteryCharge batteryKwh].
  destruct (adjusted_price_fin p tou) as (a & -> & _).
  destruct round2_zero as [Hz Hnz]. unfold Lt.
  destruct (dispatch_exclusive d s a l tou) as [-> | ->]; split; intros H;
    solve [exact Hz | congruence].
Qed.

(** C9, the zero-demand case.  [renewablePercentage] is guarded and is 0,
    but [calculateGridStressReduction] divides by the demand without a
    guard: with no demand the grid share is [0 / 0] and the returned
    [gridStressReduction] is [NaN], which lies in no interval. *)
Theorem optimize_zero_demand (s p l : Q) (tou : TimeOfUse) :
  (0 <= s)%Q ->
  let r := optimize self 0 s p l tou in
  renewablePercentage r ≃ Fin 0 /\
  gridStressReduction r = NaN /\
  le (Fin 0) (gridStressReduction r) = false /\
  le (gridStressReduction r) (Fin 100) = false.
Proof.
  intros Hs. cbn zeta. unfold optimize.
  cbn [renewablePercentage gridStressReduction].
  destruct (adjusted_price_fin p tou) as (a & -> & _).
  assert (Hg : d_grid (dispatch self 0 s a l tou) ≃ Fin 0).
  { unfold dispatch. destruct tou; q_cases; lra. }
  destruct (d_grid (dispatch self 0 s a l tou)) as [g| | |];
    cbn [JS.Eq] in Hg; try contradiction.
  assert (E : calculateGridStressReduction g 0 = NaN).
  { unfold calculateGridStressReduction. q_cases; solve [reflexivity | lra]. }
  rewrite E. repeat split; reflexivity.
Qed.

Lemma round1_percent (x : num) :
  (exists q : Q, x = Fin q /\ (0 <= q <= 100)%Q) ->
  Le (Fin 0) (round1 x) /\ Le (round1 x) (Fin 100).
Proof.
  intros (q & -> & Hq0 & Hq1).
  destruct (round_to_ge_grid 10 q 0) as (y & Ey & Hy);
    [lra | change (inject_Z 0) with 0%Q; lra |].
  destruct (round_to_le_grid 10 q 1000) as (y' & Ey' & Hy');
    [lra | change (inject_Z 1000) with 1000%Q; lra |].
  unfold round1. rewrite Ey in *. injection Ey' as <-.
  unfold Le. js_simpl. rewrite !Qle_bool_iff.
  change (inject_Z 0) with 0%Q in Hy.
  change (inject_Z 1000) with 1000%Q in Hy'. lra.
Qed.

(** For a positive demand the three percentages do lie in [0, 100]. *)
Lemma optimize_percentages_bounded (d s p l : Q) (tou : TimeOfUse) :
  (0 < d)%Q -> (0 <= s)%Q ->
  let r := optimize self d s p l tou in
  let in_range (x : num) := Le (Fin 0) x /\ Le x (Fin 100) in
  in_range (renewablePercentage r) /\
  in_range (peakDemandReduction r) /\
  in_range (gridStressReduction r).
Proof.
  intros Hd Hs. cbn zeta. unfold optimize.
  cbn [renewablePercentage peakDemandReduction gridStressReduction].
  destruct (adjusted_price_fin p tou) as (a & -> & _).
  destruct (dispatch_balance d s a l tou)
    as (sol & dis & g & -> & -> & -> & Hbal & H1 & H2 & H3 & H4 & H5 & _).
  assert (Hsol : (0 <= sol)%Q) by (destruct H3; lra).
  assert (Hfrac : forall x : Q, (0 <= x)%Q -> (x <= d)%Q ->
             (0 <= x / d * 100)%Q /\ (x / d * 100 <= 100)%Q).
  { intros x Hx0 Hx1.
    assert (0 <= x / d)%Q by (apply Qle_shift_div_l; lra).
    assert (x / d <= 1)%Q by (apply Qle_shift_div_r; lra).
    lra. }
  assert (Hrenew : (0 <= (sol + dis) / d * 100 <= 100)%Q)
    by (apply Hfrac; lra).
  assert (Hgrid : (0 <= g / d * 100 <= 100)%Q) by (apply Hfrac; lra).
  split; [|split]; apply round1_percent.
  - q_cases; try lra; eexists; (split; [reflexivity | lra]).
  - unfold calculatePeakReduction.
    q_cases; try lra; eexists; (split; [reflexivity|]); try lra.
    apply Hfrac; lra.
  - unfold calculateGridStressReduction.
    q_cases; try lra; eexists; (split; [reflexivity | lra]).
Qed.

(** *** Day-ahead rollout *)

(** With a finite battery (level, capacity, efficiency) both battery
    flows are finite whatever the demand, the solar forecast and the
    price are, [NaN] and the infinities included. *)
Lemma dispatch_battery_finite (demand solar adj : num) (l cap eff : Q)
    (tou : TimeOfUse) :
  batteryCapacity self = Fin cap -> batteryEfficiency self = Fin eff ->
  exists c dis : Q,
    d_charge (dispatch self demand solar adj l tou) = Fin c /\
    d_discharge (dispatch self demand solar adj l tou) = Fin dis.
Proof.
  intros Hc He. unfold dispatch. rewrite Hc, He.
  destruct demand, solar, adj, tou; q_cases; do 2 eexists; split; reflexivity.
Qed.

Lemma clamp_range (cap x : Q) :
  (0 <= cap)%Q ->
  exists y : Q, max (Fin 0) (min (Fin cap) (Fin x)) = Fin y /\
                (0 <= y <= cap)%Q.
Proof.
  intros Hcap. q_cases; eexists; (split; [reflexivity | lra]).
Qed.

Lemma dayAhead_step_range (solar prices : list num)
    (schedule : list TimeOfUse) (i : nat) (demand : num) (l cap eff : Q) :
  batteryCapacity self = Fin cap -> batteryEfficiency self = Fin eff ->
  (0 <= cap)%Q ->
  let out := dayAhead_step self solar prices schedule i demand l in
  (exists y : Q, snd out = Fin y /\ (0 <= y <= cap)%Q) /\
  snd out = max (Fin 0) (min (Fin cap)
              (Fin l - batteryKwh (fst out) + batteryCharge (fst out))).
Proof.
  intros Hc He Hcap. cbn zeta. unfold dayAhead_step.
  cbn [fst snd batteryKwh batteryCharge]. rewrite Hc. split; [|reflexivity].
  unfold optimize. cbn [batteryKwh batteryCharge].
  destruct (dispatch_battery_finite demand (get_num solar i)
              (nth i prices (Fin (12 # 100)) * priceMultipliers (nth i schedule MidPeak))
              l cap eff (nth i schedule MidPeak) Hc He)
    as (c & dis & -> & ->).
  destruct (round_to_near 100 c) as (c' & Ec & _); [lra|].
  destruct (round_to_near 100 dis) as (dis' & Ed & _); [lra|].
  unfold round2. rewrite Ec, Ed. js_simpl. now apply clamp_range.
Qed.

Lemma dayAhead_loop_range (solar prices : list num)
    (schedule : list TimeOfUse) (cap eff : Q) (demands : list num) :
  batteryCapacity self = Fin cap -> batteryEfficiency self = Fin eff ->
  (0 <= cap)%Q ->
  forall (i : nat) (l : Q),
    let out := dayAhead_loop self solar prices schedule i demands l in
    length out = length demands /\
    Forall (fun lv => Le (Fin 0) lv /\ Le lv (Fin cap)) (map snd out) /\
    (forall (k : nat) (r : OptimizationResult) (lv prev : num),
        map fst out !! k = Some r -> map snd out !! k = Some lv ->
        (Fin l :: map snd out) !! k = Some prev ->
        lv = max (Fin 0) (min (Fin cap)
               (prev - batteryKwh r + batteryCharge r))).
Proof.
  intros Hc He Hcap. induction demands as [|demand rest IH]; intros i l.
  - cbn. split; [reflexivity|]. split; [constructor|].
    intros k r lv prev H. now destruct k.
  - cbn zeta. cbn [dayAhead_loop].
    pose proof (dayAhead_step_range solar prices schedule i demand l cap eff
                  Hc He Hcap) as Hstep. cbn zeta in Hstep.
    destruct (dayAhead_step self solar prices schedule i demand l)
      as [r1 l1] eqn:Estep.
    cbn [fst snd] in Hstep. destruct Hstep as [(y & -> & Hy) Hupd].
    specialize (IH (S i) y). cbn zeta in IH.
    destruct IH as (Hlen & Hall & Hrel).
    cbn [map fst snd length]. split; [now rewrite Hlen|]. split.
    + constructor; [|exact Hall].
      unfold Le. js_simpl. rewrite !Qle_bool_iff. lra.
    + intros k r lv prev Hr Hlv Hprev. destruct k as [|k].
      * cbn in Hr, Hlv, Hprev.
        injection Hr as <-. injection Hlv as <-. injection Hprev as <-.
        exact Hupd.
      * cbn in Hr, Hlv. change ((Fin y :: map snd
            (dayAhead_loop self solar prices schedule (S i) rest y)) !! k
            = Some prev) in Hprev.
        eapply Hrel; eassumption.
Qed.

(** C6.  Starting from a level within [0, capacity], the battery level
    that [optimizeDayAhead] threads through the periods is within
    [0, capacity] after every period, each level being
    [max(0, min(capacity, level - batteryKwh + batteryCharge))] of the
    level before it and of the result of that period.  The periods are
    arbitrary: demands, forecasts and prices may be [NaN] or infinite,
    and the arrays may be shorter than [demands]. *)
Theorem dayAhead_battery_within_capacity
    (demands solar prices : list num) (schedule : list TimeOfUse)
    (l0 cap eff : Q) :
  batteryCapacity self = Fin cap -> batteryEfficiency self = Fin eff ->
  (0 <= l0 <= cap)%Q ->
  let results := optimizeDayAhead self demands solar prices schedule l0 in
  let levels := dayAhead_levels self demands solar prices schedule l0 in
  length levels = length demands /\
  Forall (fun lv => Le (Fin 0) lv /\ Le lv (Fin cap)) levels /\
  (forall (k : nat) (r : OptimizationResult) (lv prev : num),
      results !! k = Some r -> levels !! k = Some lv ->
      (Fin l0 :: levels) !! k = Some prev ->
      lv = max (Fin 0) (min (Fin cap)
             (prev - batteryKwh r + batteryCharge r))).
Proof.
  intros Hc He Hl. cbn zeta. unfold optimizeDayAhead, dayAhead_levels.
  destruct (dayAhead_loop_range solar prices schedule cap eff demands Hc He
              ltac:(lra) 0%nat l0) as (Hlen & Hall & Hrel).
  split; [now rewrite length_map|]. split; assumption.
Qed.

End OptimizerFacts.

Section OptimizerWitnesses.

Import Optimizer.

Lemma optimize_zero_demand_witness :
  (0 <= 0)%Q /\
  gridStressReduction (optimize default_optimizer 0 0 (12 # 100) 25 MidPeak)
    = NaN.
Proof.
  split; [lra|].
  exact (proj1 (proj2 (optimize_zero_demand default_optimizer
                         0 (12 # 100) 25 MidPeak ltac:(lra)))).
Defined.


Lemma charge_discharge_exclusive_witness :
  ((0 <= 10)%Q /\ (0 <= 30)%Q /\ (0 <= 25)%Q) /\
  let r := optimize default_optimizer 10 30 (12 # 100) 25 Peak in
  (Lt (Fin 0) (batteryCharge r) -> batteryKwh r ≃ Fin 0) /\
  (Lt (Fin 0) (batteryKwh r) -> batteryCharge r ≃ Fin 0).
Proof.
  split; [repeat split; lra|].
  apply (charge_discharge_exclusive default_optimizer 10 30 (12 # 100) 25 Peak);
    lra.
Defined.

Lemma dayAhead_battery_within_capacity_witness :
  (0 <= 25 <= 50)%Q /\
  Forall (fun lv => Le (Fin 0) lv /\ Le lv (Fin 50))
    (dayAhead_levels default_optimizer
       [Fin 50; Fin 10; Fin 60] [Fin 10; Fin 80; Fin 0]
       [Fin (12 # 100); Fin (12 # 100); Fin (20 # 100)]
       [OffPeak; MidPeak; Peak] 25).
Proof.
  split; [lra|].
  apply (dayAhead_battery_within_capacity default_optimizer
           [Fin 50; Fin 10; Fin 60] [Fin 10; Fin 80; Fin 0]
           [Fin (12 # 100); Fin (12 # 100); Fin (20 # 100)]
           [OffPeak; MidPeak; Peak] 25 50 (95 # 100));
    [reflexivity | reflexivity | lra].
Defined.

End OptimizerWitnesses.

(** ** Load shifting *)

Section OrderFacts.

Lemma lt_trans (a b c : num) : Lt a b -> Lt b c -> Lt a c.
Proof.
  unfold Lt. destruct a, b, c; js_simpl; try congruence.
  rewrite !Qltb_true. lra.
Qed.

Lemma lt_le_trans (a b c : num) : Lt a b -> Le b c -> Lt a c.
Proof.
  unfold Lt, Le. destruct a, b, c; js_simpl; try congruence.
  rewrite !Qltb_true, Qle_bool_iff. lra.
Qed.

Lemma lt_le (a b : num) : Lt a b -> Le a b.
Proof.
  unfold Lt, Le. destruct a, b; js_simpl; try congruence.
  rewrite Qltb_true, Qle_bool_iff. lra.
Qed.

Lemma not_lt_le (x y : Q) : lt (Fin x) (Fin y) = false -> Le (Fin y) (Fin x).
Proof.
  unfold Le. js_simpl. rewrite Qltb_false, Qle_bool_iff. tauto.
Qed.

(** [c - b] is not negative when [b] is [c] or below it. *)
Lemma sub_not_negative (b c : num) :
  b = c \/ Lt b c -> lt (c - b) (Fin 0) = false.
Proof.
  unfold Lt. intros [-> | H].
  - destruct c; js_simpl; try reflexivity. apply Qltb_false. lra.
  - destruct b, c; js_simpl; try congruence.
    apply Qltb_true in H. apply Qltb_false. lra.
Qed.

(** Rounding to two decimals does not make a number negative. *)
Lemma round2_negative (x : num) :
  lt (round2 x) (Fin 0) = true -> lt x (Fin 0) = true.
Proof.
  destruct x as [q| | |]; try (vm_compute; congruence).
  destruct (round_to_near 100 q) as (y & Ey & _ & _ & Hy); [lra|].
  unfold round2. rewrite Ey. js_simpl. rewrite !Qltb_true. intros Hneg.
  assert (Hf : (Qfloor (q * 100 + (1 # 2)) < 0)%Z).
  { rewrite Zlt_Qlt. rewrite <- Hy. change (inject_Z 0) with 0%Q. lra. }
  pose proof (Qlt_floor (q * 100 + (1 # 2))) as Hlt.
  assert (Hle : (inject_Z (Qfloor (q * 100 + (1 # 2)) + 1) <= 0)%Q).
  { change 0%Q with (inject_Z 0). rewrite <- Zle_Qle. lia. }
  lra.
Qed.

End OrderFacts.

Section LoadShiftingFacts.

Import Optimizer.

Variables demands solarForecasts gridPrices : list num.

(** The best cost never goes up while the window is scanned. *)
Lemma pick_hour_descends (loadKwh : num) (best : option Z * num) (h : Z) :
  let best' := pick_hour loadKwh demands solarForecasts gridPrices best h in
  snd best' = snd best \/ Lt (snd best') (snd best).
Proof.
  cbn zeta. unfold pick_hour.
  destruct (h <? Z.of_nat (length demands))%Z; [|now left].
  destruct (lt _ (snd best)) eqn:E; [right; exact E | now left].
Qed.

Lemma scan_descends (loadKwh : num) (window : list Z) :
  forall best : option Z * num,
    let best' :=
      fold_left (pick_hour loadKwh demands solarForecasts gridPrices)
        window best in
    snd best' = snd best \/ Lt (snd best') (snd best).
Proof.
  induction window as [|h rest IH]; intros best; cbn zeta; cbn [fold_left].
  - now left.
  - destruct (IH (pick_hour loadKwh demands solarForecasts gridPrices best h))
      as [E | L];
      destruct (pick_hour_descends loadKwh best h) as [E' | L'].
    + left. congruence.
    + right. now rewrite E.
    + right. now rewrite <- E'.
    + right. eapply lt_trans; eassumption.
Qed.

(** The savings reported for a load are never negative: the default hour
    is the first candidate of the scan, so the best cost is at most the
    original cost whenever the latter is a number. *)
Lemma shift_load_savings_not_negative (load : FlexibleLoad) :
  lt (savings (fst (shift_load demands solarForecasts gridPrices load)))
     (Fin 0) = false.
Proof.
  unfold shift_load.
  destruct (fold_left _ (timeWindow load) _) as [bestHour bestCost] eqn:Efold.
  cbn [fst savings].
  destruct (lt (round2 _) (Fin 0)) eqn:Eneg; [|reflexivity].
  apply round2_negative in Eneg. exfalso.
  destruct (timeWindow load) as [|h0 rest] eqn:Ew.
  - cbn in Eneg. discriminate.
  - cbn [head fold_left] in *.
    pose proof (scan_descends (kwh load) rest
                  (pick_hour (kwh load) demands solarForecasts gridPrices
                     (Some h0, PInf) h0)) as Hdesc.
    cbn zeta in Hdesc. rewrite Efold in Hdesc. cbn [snd] in Hdesc.
    set (c0 := calculateLoadCost (kwh load) (Some h0)
                 demands solarForecasts gridPrices) in *.
    assert (Hfirst :
      snd (pick_hour (kwh load) demands solarForecasts gridPrices
             (Some h0, PInf) h0) = c0 \/ c0 = NaN).
    { unfold pick_hour. fold c0. cbn [snd].
      destruct (h0 <? Z.of_nat (length demands))%Z eqn:Er.
      - destruct c0; cbn; auto.
      - right. subst c0. unfold calculateLoadCost, at_hour.
        apply Z.ltb_ge in Er.
        destruct (h0 <? 0)%Z; [reflexivity|].
        rewrite (nth_overflow demands) by lia. reflexivity. }
    destruct Hfirst as [Hfirst | Hnan].
    + rewrite Hfirst in Hdesc.
      pose proof (sub_not_negative bestCost c0 Hdesc). congruence.
    + rewrite Hnan in Eneg. cbn in Eneg. discriminate.
Qed.

Lemma shiftedLoads_map (loads : list FlexibleLoad) :
  shiftedLoads (optimizeLoadShifting loads demands solarForecasts gridPrices)
  = map (fun load => fst (shift_load demands solarForecasts gridPrices load))
      loads.
Proof.
  unfold optimizeLoadShifting.
  set (step := fun (acc : list ShiftedLoad * num) (load : FlexibleLoad) =>
                 let '(entry, savings) :=
                   shift_load demands solarForecasts gridPrices load in
                 (fst acc ++ [entry], snd acc + savings)).
  assert (H : forall l acc,
             fst (fold_left step l acc)
             = fst acc ++ map (fun load =>
                 fst (shift_load demands solarForecasts gridPrices load)) l).
  { induction l as [|load l IH]; intros acc; cbn [fold_left map].
    - now rewrite app_nil_r.
    - rewrite IH. unfold step.
      destruct (shift_load demands solarForecasts gridPrices load).
      cbn [fst]. now rewrite <- app_assoc. }
  specialize (H loads ([], Fin 0)).
  destruct (fold_left step loads ([], Fin 0)). exact H.
Qed.

(** *** The chosen hour, for arrays of finite numbers and a window of
    valid hours *)

Hypothesis demands_finite : Forall Finite demands.
Hypothesis solar_finite : Forall Finite solarForecasts.
Hypothesis prices_finite : Forall Finite gridPrices.
Hypothesis solar_covers : (length demands <= length solarForecasts)%nat.
Hypothesis prices_cover : (length demands <= length gridPrices)%nat.

Local Abbreviation cost := (cost_at demands solarForecasts gridPrices).
Local Abbreviation valid := (valid_hour demands).

Lemma at_hour_finite (a : list num) (h : Z) :
  Forall Finite a -> (0 <= h < Z.of_nat (length a))%Z ->
  exists q : Q, at_hour a (Some h) = Fin q.
Proof.
  intros Ha [H0 H1]. unfold at_hour.
  destruct (Z.ltb_spec h 0); [lia|].
  assert (Hin : In (nth (Z.to_nat h) a NaN) a) by (apply nth_In; lia).
  rewrite Forall_forall in Ha. apply list_elem_of_In, Ha in Hin.
  unfold Finite in Hin. destruct (nth (Z.to_nat h) a NaN); try discriminate.
  now eexists.
Qed.

Lemma cost_finite (k : Q) (h : Z) : valid h -> exists q : Q, cost k h = Fin q.
Proof.
  intros Hv. unfold cost_at, calculateLoadCost. unfold valid_hour in Hv.
  destruct (at_hour_finite demands h demands_finite Hv) as (x & ->).
  destruct (at_hour_finite solarForecasts h solar_finite) as (y & ->); [lia|].
  destruct (at_hour_finite gridPrices h prices_finite) as (z & ->); [lia|].
  q_cases; now eexists.
Qed.

(** Scanning the rest of the window from a state that holds the first
    cheapest hour of the part already seen ends in the first cheapest
    hour of the whole. *)
Lemma scan_choice (k : Q) (rest : list Z) :
  forall (bef : list Z) (best : Z) (aft : list Z),
    valid best -> Forall valid rest ->
    Forall (fun h => Lt (cost k best) (cost k h)) bef ->
    Forall (fun h => Le (cost k best) (cost k h)) aft ->
    exists (best' : Z) (bef' aft' : list Z),
      fold_left (pick_hour k demands solarForecasts gridPrices) rest
        (Some best, cost k best) = (Some best', cost k best') /\
      bef ++ best :: aft ++ rest = bef' ++ best' :: aft' /\
      Forall (fun h => Lt (cost k best') (cost k h)) bef' /\
      Forall (fun h => Le (cost k best') (cost k h)) aft'.
Proof.
  induction rest as [|h rest IH]; intros bef best aft Hb Hrest Hbef Haft.
  - exists best, bef, aft. rewrite app_nil_r. cbn [fold_left]. auto.
  - apply Forall_cons_1 in Hrest as [Hh Hrest]. cbn [fold_left].
    unfold pick_hour at 2. cbn [snd].
    destruct (Z.ltb_spec h (Z.of_nat (length demands)));
      [|unfold valid_hour in Hh; lia].
    fold (cost k h).
    destruct (lt (cost k h) (cost k best)) eqn:Elt.
    + destruct (IH (bef ++ best :: aft) h [] Hh Hrest)
        as (best' & bef' & aft' & Hfold & Hshape & Hb' & Ha').
      * apply Forall_app. split; [|constructor].
        -- eapply Forall_impl; [exact Hbef|].
           intros x Hx. eapply lt_trans; eassumption.
        -- exact Elt.
        -- eapply Forall_impl; [exact Haft|].
           intros x Hx. eapply lt_le_trans; eassumption.
      * constructor.
      * exists best', bef', aft'. split; [exact Hfold|].
        split; [|auto]. rewrite <- Hshape. cbn [app].
        now rewrite <- app_assoc.
    + destruct (IH bef best (aft ++ [h]) Hb Hrest Hbef)
        as (best' & bef' & aft' & Hfold & Hshape & Hb' & Ha').
      * apply Forall_app. split; [exact Haft|]. constructor; [|constructor].
        destruct (cost_finite k h Hh) as (x & Ex).
        destruct (cost_finite k best Hb) as (y & Ey).
        rewrite Ex, Ey in *. now apply not_lt_le.
      * exists best', bef', aft'. split; [exact Hfold|].
        split; [|auto]. rewrite <- Hshape.
        now rewrite <- (app_assoc aft [h] rest).
Qed.

Lemma shift_load_chosen (load : FlexibleLoad) :
  Finite (kwh load) -> timeWindow load <> [] ->
  Forall valid (timeWindow load) ->
  chosen demands solarForecasts gridPrices load
    (fst (shift_load demands solarForecasts gridPrices load)).
Proof.
  intros Hk Hne Hw.
  pose proof (shift_load_savings_not_negative load) as Hnn.
  unfold chosen, shift_load in *.
  destruct (kwh load) as [k| | |] eqn:Ek; try discriminate.
  destruct (timeWindow load) as [|h0 rest] eqn:Ew; [congruence|].
  apply Forall_cons_1 in Hw as [Hh0 Hrest].
  cbn [fold_left head] in *.
  assert (Hfirst : pick_hour k demands solarForecasts gridPrices
                     (Some h0, PInf) h0 = (Some h0, cost k h0)).
  { unfold pick_hour. cbn [snd].
    destruct (Z.ltb_spec h0 (Z.of_nat (length demands)));
      [|unfold valid_hour in Hh0; lia].
    fold (cost k h0). destruct (cost_finite k h0 Hh0) as (x & ->).
    reflexivity. }
  rewrite Hfirst in *.
  destruct (scan_choice k rest [] h0 [] Hh0 Hrest)
    as (best & bef & aft & Hfold & Hshape & Hbef & Haft); [constructor ..|].
  rewrite Hfold in *. cbn [fst savings originalHour optimalHour] in *.
  fold (cost k h0) in *.
  assert (Hvb : valid best).
  { assert (Hin : In best (h0 :: rest))
      by (cbn [app] in Hshape; rewrite Hshape; apply in_elt).
    destruct Hin as [<- | Hin]; [exact Hh0|].
    rewrite Forall_forall in Hrest. now apply Hrest, list_elem_of_In. }
  destruct (cost_finite k h0 Hh0) as (x & Ex).
  destruct (cost_finite k best Hvb) as (y & Ey).
  rewrite Ex, Ey in *. js_simpl.
  destruct (round_to_near 100 (x + - y)) as (z & Ez & _); [lra|].
  unfold round2 in *. rewrite Ez in *.
  exists h0, best, bef, aft. rewrite Ey, Ex.
  repeat (split; [first [reflexivity | assumption]|]).
  split; [js_simpl; now rewrite Ez | now apply not_lt_le].
Qed.

End LoadShiftingFacts.

Section LoadShiftingResults.

Import Optimizer.



(** The first example of the specification: the default hour 0 costs
    more than hour 2, and the reported savings is the difference. *)
Example loadShifting_saves :
  let r := optimizeLoadShifting [ev_charger]
             [Fin 30; Fin 20; Fin 10] [Fin 0; Fin 0; Fin 5]
             [Fin (20 # 100); Fin (15 # 100); Fin (10 # 100)] in
  map optimalHour (shiftedLoads r) = [Some 2%Z] /\
  Forall (fun e => savings e ≃ Fin (65 # 10)) (shiftedLoads r) /\
  totalSavings r ≃ Fin (65 # 10).
Proof.
  vm_compute. split; [reflexivity|]. split; [|reflexivity].
  constructor; [reflexivity | constructor].
Qed.


End LoadShiftingResults.

(** ** Finite numbers *)

Section FiniteFacts.

Lemma Finite_inv (a : num) : Finite a -> exists q : Q, a = Fin q.
Proof. destruct a; try discriminate. eauto. Qed.

Lemma Finite_Fin (q : Q) : Finite (Fin q).
Proof. reflexivity. Qed.

Lemma Finite_add (a b : num) : Finite a -> Finite b -> Finite (a + b).
Proof. destruct a, b; try discriminate. reflexivity. Qed.

Lemma Finite_sub (a b : num) : Finite a -> Finite b -> Finite (a - b).
Proof. destruct a, b; try discriminate. reflexivity. Qed.

Lemma Finite_mul (a b : num) : Finite a -> Finite b -> Finite (a * b).
Proof. destruct a, b; try discriminate. reflexivity. Qed.

Lemma Finite_abs (a : num) : Finite a -> Finite (abs a).
Proof. destruct a; try discriminate. reflexivity. Qed.

Lemma Finite_div_nat (a : num) (n : nat) :
  Finite a -> n <> 0%nat -> Finite (a / of_nat n).
Proof.
  destruct a as [x| | |]; try discriminate. intros _ Hn.
  unfold of_nat, of_Z. js_simpl.
  destruct (Qeq_bool_cases (inject_Z (Z.of_nat n)) 0) as [E|]; [|reflexivity].
  exfalso. unfold Qeq, inject_Z in E. cbn [Qnum Qden] in E. lia.
Qed.

Lemma Finite_fold {A : Type} (f : num -> A -> num) (l : list A) :
  (forall acc x, Finite acc -> In x l -> Finite (f acc x)) ->
  forall init, Finite init -> Finite (fold_left f l init).
Proof.
  induction l as [|x l IH]; intros Hf init Hi; cbn [fold_left]; [exact Hi|].
  apply IH.
  - intros acc y Ha Hy. apply Hf; [exact Ha | now right].
  - apply Hf; [exact Hi | now left].
Qed.

Lemma Finite_sum (l : list num) : Forall Finite l -> Finite (sum l).
Proof.
  intros Hl. unfold sum. apply Finite_fold; [|reflexivity].
  intros acc x Ha Hx. apply Finite_add; [exact Ha|].
  rewrite Forall_forall in Hl. now apply Hl, list_elem_of_In.
Qed.

Lemma Finite_abs_changes (l : list num) :
  Forall Finite l -> Forall Finite (Forecaster.abs_changes l).
Proof.
  intros Hl. induction Hl as [|a l Ha Hl IH]; [constructor|].
  destruct Hl as [|b l Hb Hl]; [constructor|].
  cbn [Forecaster.abs_changes]. constructor; [|exact IH].
  now apply Finite_abs, Finite_sub.
Qed.

Lemma length_abs_changes (l : list num) :
  length (Forecaster.abs_changes l) = (length l - 1)%nat.
Proof.
  induction l as [|a l IH]; [reflexivity|].
  destruct l as [|b l]; [reflexivity|].
  cbn [Forecaster.abs_changes length] in *. rewrite IH. lia.
Qed.

Lemma slice_last_length {A : Type} (l : list A) (n : nat) :
  (n <= length l)%nat -> length (slice_last l n) = n.
Proof. intros H. unfold slice_last. rewrite length_skipn. lia. Qed.

Lemma slice_last_In {A : Type} (l : list A) (n : nat) (x : A) :
  In x (slice_last l n) -> In x l.
Proof.
  unfold slice_last. intros H.
  rewrite <- (firstn_skipn (length l - n) l). apply in_or_app. now right.
Qed.

Lemma last_In {A : Type} (l : list A) (d : A) : l <> [] -> In (List.last l d) l.
Proof.
  induction l as [|a l IH]; [congruence|]. intros _.
  destruct l as [|b l]; [now left|].
  right. apply IH. discriminate.
Qed.

End FiniteFacts.

(** ** The forecaster *)

Section ForecasterFacts.

Import Forecaster.

Context `{M : Math}.

(** [forecastNextHour] throws, with the insufficient-history error,
    exactly when the history holds fewer than 48 samples; with 48 or
    more it returns a result. *)
Lemma forecastNextHour_throws_iff (data : list EnergyData) :
  (forecastNextHour data = Thrown insufficient_history
   <-> (length data < 48)%nat) /\
  ((exists r, forecastNextHour data = Returned r)
   <-> (48 <= length data)%nat).
Proof.
  unfold forecastNextHour.
  destruct (Nat.ltb_spec (length data) 48) as [Hlt | Hge].
  - split; split; intros H; try reflexivity; try lia.
    destruct H as (r & H). discriminate.
  - split; split; intros H; try discriminate; try lia.
    eexists. reflexivity.
Qed.

(** C5, the failing case.  On 48 samples of zero consumption the mean is
    zero, the coefficient of variation is [0 / 0], and the clamp
    [Math.min(0.98, Math.max(0.65, confidence))] lets the [NaN]
    through: the returned confidence is in no interval. *)
Theorem forecast_confidence_idle :
  exists r, forecastNextHour idle_history = Returned r /\
            confidence r = NaN /\
            le (Fin (65 # 100)) (confidence r) = false /\
            le (confidence r) (Fin (98 # 100)) = false.
Proof.
  unfold forecastNextHour.
  change (length idle_history <? 48)%nat with false. cbn iota.
  eexists. split; [reflexivity|]. cbn [confidence].
  assert (E : calculateConfidence idle_history = NaN) by (vm_compute; reflexivity).
  rewrite E. repeat split; reflexivity.
Qed.

(** *** The four sub-forecasts are finite on finite histories *)

Lemma mean_kwh_finite (l : list EnergyData) :
  l <> [] -> (forall d, In d l -> finite_sample d) -> Finite (mean_kwh l).
Proof.
  intros Hne Hl. unfold mean_kwh. apply Finite_div_nat.
  - apply Finite_fold; [|reflexivity].
    intros acc d Ha Hd. apply Finite_add; [exact Ha | apply (Hl d Hd)].
  - destruct l; [congruence | discriminate].
Qed.

Lemma pow_positive (n : nat) :
  exists q : Q, pow (Fin (11 # 10)) n = Fin q /\ (0 < q)%Q.
Proof.
  induction n as [|n (q & E & Hq)]; cbn [pow].
  - exists 1%Q. split; [reflexivity | lra].
  - rewrite E. eexists. split; [reflexivity | lra].
Qed.

(** The weights add up to a positive total. *)
Lemma weighted_fold (entries : list (nat * EnergyData)) :
  (forall e, In e entries -> Finite (e_kwh (snd e))) ->
  forall ws t : Q, (0 <= t)%Q ->
    exists ws' t' : Q,
      fold_left
        (fun (acc : num * num) (entry : nat * EnergyData) =>
           (fst acc + e_kwh (snd entry) * pow (Fin (11 # 10)) (fst entry),
            snd acc + pow (Fin (11 # 10)) (fst entry)))
        entries (Fin ws, Fin t) = (Fin ws', Fin t') /\
      (t <= t')%Q /\ (entries <> [] -> t < t')%Q.
Proof.
  induction entries as [|e entries IH]; intros Hfin ws t Ht; cbn [fold_left].
  - exists ws, t. split; [reflexivity|]. split; [lra | congruence].
  - destruct (Finite_inv (e_kwh (snd e))) as (k & Ek);
      [apply Hfin; now left|].
    destruct (pow_positive (fst e)) as (q & Eq & Hq).
    cbn zeta. cbn [fst snd]. rewrite Ek, Eq. js_simpl.
    destruct (IH (fun x Hx => Hfin x (or_intror Hx)) (ws + k * q)%Q (t + q)%Q)
      as (ws' & t' & Efold & Hle & _); [lra|].
    exists ws', t'. split; [exact Efold|]. split; [lra | intros _; lra].
Qed.

Section FiniteHistory.

Variable data : list EnergyData.
Hypothesis enough : (48 <= length data)%nat.
Hypothesis finite_data : forall d, In d data -> finite_sample d.

Lemma latest_finite : finite_sample (latest_of data).
Proof.
  apply finite_data. apply last_In. destruct data; [cbn in enough; lia|].
  discriminate.
Qed.

Lemma historical_finite : Finite (historicalPatternForecast data).
Proof.
  unfold historicalPatternForecast. cbn zeta.
  set (similar := List.filter _ data).
  destruct (Nat.ltb_spec (length similar) 3) as [_ | Hsim].
  - set (sameHour := List.filter _ data).
    destruct (Nat.ltb_spec 0 (length sameHour)) as [Hpos | _].
    + apply mean_kwh_finite.
      * destruct sameHour; [cbn in Hpos; lia | discriminate].
      * intros d Hd. apply filter_In in Hd as [Hd _]. now apply finite_data.
    + apply latest_finite.
  - set (recent := slice_last similar 10).
    assert (Hrec : recent <> []).
    { intros E. assert (Hl : length recent = 0%nat) by now rewrite E.
      unfold recent, slice_last in Hl. rewrite length_skipn in Hl. lia. }
    destruct (weighted_fold (combine (seq 0 (length recent)) recent))
      with (ws := 0%Q) (t := 0%Q) as (ws & t & -> & _ & Hpos); [|lra|].
    + intros [i d] Hin. apply in_combine_r in Hin. cbn [snd].
      apply slice_last_In in Hin. apply filter_In in Hin as [Hin _].
      apply (finite_data d Hin).
    + assert (Ht : (0 < t)%Q).
      { apply Hpos. destruct recent; [congruence|]. discriminate. }
      q_cases; solve [reflexivity | lra].
Qed.

Lemma trend_finite : Finite (trendBasedForecast data).
Proof.
  unfold trendBasedForecast. cbn zeta.
  rewrite !length_map, slice_last_length by lia.
  set (values := map e_kwh (slice_last data 24)).
  assert (Hvalues : forall v, In v values -> Finite v).
  { intros v Hv. apply in_map_iff in Hv as (d & <- & Hd).
    apply slice_last_In in Hd. apply (finite_data d Hd). }
  assert (EX : fold_left add (map of_nat (seq 0 24)) (Fin 0) = Fin 276)
    by (vm_compute; reflexivity).
  assert (EXX : fold_left (fun sum xi => sum + xi * xi)
                  (map of_nat (seq 0 24)) (Fin 0) = Fin 4324)
    by (vm_compute; reflexivity).
  rewrite EX, EXX. change (of_nat 24) with (Fin 24).
  destruct (Finite_inv (fold_left add values (Fin 0))) as (y & ->).
  { apply Finite_fold; [|reflexivity].
    intros acc v Ha Hv. apply Finite_add; auto. }
  destruct (Finite_inv
              (fold_left (fun sum (p : num * num) => sum + fst p * snd p)
                 (combine (map of_nat (seq 0 24)) values) (Fin 0)))
    as (xy & ->).
  { apply Finite_fold; [|reflexivity].
    intros acc [a b] Ha Hp. apply Finite_add; [exact Ha|].
    apply Finite_mul; cbn [fst snd].
    - apply in_combine_l, in_map_iff in Hp as (n & <- & _). reflexivity.
    - apply in_combine_r in Hp. auto. }
  q_cases; solve [reflexivity | lra].
Qed.

Lemma weather_finite : Finite (weatherBasedForecast data).
Proof.
  unfold weatherBasedForecast. cbn zeta.
  set (similar := List.filter _ (slice_last data 48)).
  destruct (Nat.ltb_spec (length similar) 3) as [_ | Hsim].
  - apply latest_finite.
  - apply mean_kwh_finite.
    + destruct similar; [cbn in Hsim; lia | discriminate].
    + intros d Hd. apply filter_In in Hd as [Hd _].
      apply slice_last_In in Hd. now apply finite_data.
Qed.

Lemma occupancy_finite (hour : Z) (isWeekend : bool) :
  Finite (occupancyBasedForecast data hour isWeekend).
Proof.
  unfold occupancyBasedForecast, Math_sin, of_Z. cbn zeta.
  destruct (negb isWeekend && _ && _); [|destruct (isWeekend && _ && _)];
    q_cases; solve [reflexivity | lra].
Qed.

Lemma solar_finite : Finite (forecastSolarGeneration data).
Proof.
  unfold forecastSolarGeneration, Math_sin, of_Z. cbn zeta.
  destruct latest_finite as (_ & Ht & Hi).
  destruct (Finite_inv _ Ht) as (t & ->).
  destruct (Finite_inv _ Hi) as (irr & ->).
  destruct (_ || _); [reflexivity|].
  q_cases; solve [reflexivity | lra].
Qed.

(** A sum of squares, so never below zero: the square root is a
    number. *)
Lemma variance_fold (values : list num) (mu : Q) :
  (forall v, In v values -> Finite v) ->
  forall a : Q, (0 <= a)%Q ->
    exists a' : Q,
      fold_left (fun sum v => sum + pow (v - Fin mu) 2) values (Fin a)
        = Fin a' /\ (0 <= a')%Q.
Proof.
  induction values as [|v values IH]; intros Hfin a Ha; cbn [fold_left].
  - exists a. split; [reflexivity | exact Ha].
  - destruct (Finite_inv v) as (x & ->); [apply Hfin; now left|].
    cbn [pow]. js_simpl. apply IH.
    + intros w Hw. apply Hfin. now right.
    + pose proof (Qsqr_nonneg (x + - mu)) as Hsq.
      assert (E : ((x + - mu) * ((x + - mu) * 1) == (x + - mu) ^ 2)%Q)
        by ring.
      lra.
Qed.

Lemma confidence_finite :
  ~ mean_of (map e_kwh (slice_last data 48)) ≃ Fin 0 ->
  Finite (calculateConfidence data).
Proof.
  intros Hmean. unfold calculateConfidence. cbn zeta.
  set (recent := slice_last data 48) in *.
  assert (Hlen : length recent = 48%nat) by (apply slice_last_length; lia).
  assert (Hrecent : forall d, In d recent -> finite_sample d).
  { intros d Hd. apply slice_last_In in Hd. now apply finite_data. }
  set (values := map e_kwh recent) in *.
  assert (Hvalues : forall v, In v values -> Finite v).
  { intros v Hv. apply in_map_iff in Hv as (d & <- & Hd). apply (Hrecent d Hd). }
  assert (Hn : length values = 48%nat) by (unfold values; now rewrite length_map).
  (* the mean *)
  destruct (Finite_inv (mean_of values)) as (mu & Emu).
  { unfold mean_of. rewrite Hn. apply Finite_div_nat; [|discriminate].
    apply Finite_sum. apply Forall_forall. intros v Hv.
    now apply Hvalues, list_elem_of_In. }
  rewrite Emu in *. cbn [JS.Eq] in Hmean.
  (* the variance and its root *)
  destruct (variance_fold values mu Hvalues 0%Q) as (a & Ea & Ha); [lra|].
  unfold variance_of. rewrite Ea, Hn. change (of_nat 48) with (Fin 48).
  assert (Hsq : exists s : Q, Math_sqrt (Fin a / Fin 48) = Fin s).
  { unfold Math_sqrt. js_simpl.
    destruct (Qeq_bool_cases 48 0); [lra|].
    assert (0 <= a / 48)%Q by (apply Qle_shift_div_l; lra).
    repeat q_case; eauto. lra. }
  destruct Hsq as (sd & ->).
  (* the data-quality scores *)
  rewrite Hlen. change (of_nat 48) with (Fin 48).
  destruct (Finite_inv (calculateRecentVariability recent)) as (rv & ->).
  { unfold calculateRecentVariability. rewrite Hlen. cbn iota.
    change (48 <? 2)%nat with false. cbn iota.
    apply Finite_div_nat.
    - apply Finite_sum, Finite_abs_changes, Forall_forall.
      intros v Hv. now apply Hvalues, list_elem_of_In.
    - rewrite length_abs_changes. fold values. rewrite Hn. discriminate. }
  destruct (Finite_inv (calculateWeatherConsistency recent)) as (wc & ->).
  { unfold calculateWeatherConsistency. rewrite Hlen.
    change (48 <? 6)%nat with false. cbn iota zeta.
    assert (H6 : length (slice_last recent 6) = 6%nat)
      by (apply slice_last_length; lia).
    rewrite !length_abs_changes, !length_map, H6.
    change (of_nat (6 - 1)) with (Fin 5).
    destruct (Finite_inv
                (sum (abs_changes (map temperature (slice_last recent 6)))))
      as (tc & ->).
    { apply Finite_sum, Finite_abs_changes, Forall_forall.
      intros v Hv. apply list_elem_of_In, in_map_iff in Hv as (d & <- & Hd).
      apply slice_last_In in Hd. apply (Hrecent d Hd). }
    destruct (Finite_inv
                (sum (abs_changes (map irradiance (slice_last recent 6)))))
      as (ic & ->).
    { apply Finite_sum, Finite_abs_changes, Forall_forall.
      intros v Hv. apply list_elem_of_In, in_map_iff in Hv as (d & <- & Hd).
      apply slice_last_In in Hd. apply (Hrecent d Hd). }
    q_cases; solve [reflexivity | lra]. }
  q_cases; solve [reflexivity | lra | tauto].
Qed.

(** On a finite history of 48 samples or more the demand forecast is at
    least 5 and the solar forecast at least 0; the confidence is within
    [0.65, 0.98] as soon as the mean consumption of the last 48 samples
    is not zero. *)
Lemma forecast_bounds :
  exists r,
    forecastNextHour data = Returned r /\
    Le (Fin 5) (nextHourDemand r) /\
    Le (Fin 0) (solarAvailable r) /\
    (~ mean_of (map e_kwh (slice_last data 48)) ≃ Fin 0 ->
     Le (Fin (65 # 100)) (confidence r) /\
     Le (confidence r) (Fin (98 # 100))).
Proof.
  unfold forecastNextHour.
  destruct (Nat.ltb_spec (length data) 48); [lia|]. cbn zeta.
  eexists. split; [reflexivity|].
  cbn [nextHourDemand solarAvailable confidence].
  destruct (Finite_inv _ historical_finite) as (h & ->).
  destruct (Finite_inv _ trend_finite) as (t & ->).
  destruct (Finite_inv _ weather_finite) as (w & ->).
  destruct (Finite_inv _ (occupancy_finite
              (getHours (timestamp (latest_of data)))
              ((getDay (timestamp (latest_of data)) =? 0)%Z
               || (getDay (timestamp (latest_of data)) =? 6)%Z)))
    as (o & ->).
  destruct (Finite_inv _ solar_finite) as (sol & ->).
  unfold Le. split; [|split].
  - q_cases; rewrite ?Qle_bool_iff; lra.
  - q_cases; rewrite ?Qle_bool_iff; lra.
  - intros Hmean.
    destruct (Finite_inv _ (confidence_finite Hmean)) as (c & ->).
    split; q_cases; rewrite ?Qle_bool_iff; lra.
Qed.

End FiniteHistory.

End ForecasterFacts.

(** ** The anomaly detector *)

Section AnomalyFacts.

Import Anomaly.

Context `{M : Math}.

(** *** The baseline under reuse of a detector *)

Lemma collect_fold_keys (data : list EnergyData) :
  forall (acc : gmap (Z * Z) (list num)) (k : Z * Z),
    is_Some (acc !! k) \/ (exists d, In d data /\ key_of d = k) ->
    is_Some
      (fold_left
         (fun patterns d =>
            <[key_of d := default [] (patterns !! key_of d) ++ [e_kwh d]]>
              patterns)
         data acc !! k).
Proof.
  induction data as [|d data IH]; intros acc k H; cbn [fold_left].
  - destruct H as [H | (d & [] & _)]. exact H.
  - apply IH. destruct (decide (key_of d = k)) as [E | N].
    + left. rewrite E. rewrite lookup_insert_eq. eauto.
    + destruct H as [H | (d' & [<- | Hin] & E)].
      * left. rewrite lookup_insert_ne by exact N. exact H.
      * contradiction.
      * right. eauto.
Qed.

(** Every sample of the history finds a freshly computed entry: the
    entries a previous call left behind are overwritten or never read. *)
Lemma baseline_lookup_fresh (self : AnomalyDetector)
    (data : list EnergyData) (d : EnergyData) :
  In d data ->
  historicalBaseline (buildHistoricalBaseline self data) !! key_of d
  = (median <$> collect_patterns data) !! key_of d.
Proof.
  intros Hin. cbn [buildHistoricalBaseline historicalBaseline].
  apply lookup_union_l'. rewrite lookup_fmap. apply fmap_is_Some.
  apply collect_fold_keys. right. eauto.
Qed.

Lemma detect_at_ext (self1 self2 : AnomalyDetector)
    (data : list EnergyData) (w i : nat) (current : EnergyData) :
  sensitivityLevel self1 = sensitivityLevel self2 ->
  historicalBaseline self1 !! key_of current
  = historicalBaseline self2 !! key_of current ->
  detect_at self1 data w i current = detect_at self2 data w i current.
Proof.
  intros Hs Hb. unfold detect_at, anomalyResults.
  unfold detectStatisticalAnomaly, detectPatternAnomaly.
  rewrite Hs, Hb. reflexivity.
Qed.

(** The records of a call depend on the detector through its
    sensitivity only. *)
Lemma detect_any_state (self : AnomalyDetector)
    (data : list EnergyData) (w : nat) :
  fst (detectAnomalies self data w)
  = fst (detectAnomalies (new_detector (sensitivityLevel self)) data w).
Proof.
  unfold detectAnomalies. cbn [fst]. apply map_ext_in. intros i Hi.
  unfold scored_indices in Hi. apply in_seq in Hi.
  apply detect_at_ext; [reflexivity|].
  assert (Hin : In (nth i data no_sample) data) by (apply nth_In; lia).
  now rewrite !baseline_lookup_fresh.
Qed.

(** C7.  [detect(h2)] on a detector that has already run [detect(h1)]
    returns the records a fresh detector of the same sensitivity
    returns. *)
Theorem detect_reuse (sensitivity : Severity)
    (h1 h2 : list EnergyData) (w1 w2 : nat) :
  let used := snd (detectAnomalies (new_detector sensitivity) h1 w1) in
  fst (detectAnomalies used h2 w2)
  = fst (detectAnomalies (new_detector sensitivity) h2 w2).
Proof.
  cbn zeta. rewrite detect_any_state. reflexivity.
Qed.

(** *** Fusion of the sub-detectors *)

Lemma more_severe_keeps_high (prev curr : AnomalyData) :
  severity prev = High -> more_severe prev curr = prev.
Proof.
  intros E. unfold more_severe. rewrite E.
  destruct (severity curr); reflexivity.
Qed.

Lemma most_severe_from_high (l : list AnomalyData) :
  forall first, severity first = High -> fold_left more_severe l first = first.
Proof.
  induction l as [|a l IH]; intros first E; cbn [fold_left]; [reflexivity|].
  rewrite more_severe_keeps_high by exact E. now apply IH.
Qed.

(** The reduction returns the first entry of the highest severity
    present; in particular a [High] entry makes the result [High]. *)
Lemma most_severe_high (l : list AnomalyData) :
  forall first,
    (exists a, In a (first :: l) /\ severity a = High) ->
    severity (fold_left more_severe l first) = High.
Proof.
  induction l as [|x l IH]; intros first (a & Hin & Ea).
  - destruct Hin as [<- | []]. exact Ea.
  - destruct (severity first) eqn:Ef.
    3: now rewrite most_severe_from_high.
    all: cbn [fold_left]; apply IH.
    all: destruct Hin as [<- | [<- | Hin]]; [congruence | |].
    all: try (exists a; split; [now right | exact Ea]).
    all: exists x; split; [left | exact Ea].
    all: unfold more_severe; rewrite Ea, Ef; reflexivity.
Qed.

Lemma most_severe_in (l : list AnomalyData) :
  forall first, In (fold_left more_severe l first) (first :: l).
Proof.
  induction l as [|x l IH]; intros first; cbn [fold_left]; [now left|].
  destruct (IH (more_severe first x)) as [E | Hin].
  - unfold more_severe in E at 1.
    destruct (_ >? _); [right; left | left]; exact E.
  - right. right. exact Hin.
Qed.

(** The reduction keeps the first entry of severity [High]: the
    entries before it are not [High], and no later entry replaces it. *)
Lemma most_severe_first_high (l : list AnomalyData) :
  forall first,
    (exists a, In a (first :: l) /\ severity a = High) ->
    exists pre a post,
      first :: l = pre ++ a :: post /\
      Forall (fun x => severity x <> High) pre /\
      severity a = High /\
      fold_left more_severe l first = a.
Proof.
  induction l as [|x l IH]; intros first (a0 & Hin & Ea).
  - destruct Hin as [<- | []].
    exists [], first, []. repeat split; [constructor | exact Ea].
  - assert (Hdec : forall v : Severity, v = High \/ v <> High)
      by (intros [| |]; [right | right | left]; congruence).
    destruct (Hdec (severity first)) as [Ef | Nf].
    { exists [], first, (x :: l). split; [reflexivity|].
      split; [constructor|]. split; [exact Ef|].
      now apply most_severe_from_high. }
    cbn [fold_left].
    destruct (Hdec (severity x)) as [Ex | Nx].
    { assert (Hacc : more_severe first x = x).
      { unfold more_severe. rewrite Ex.
        destruct (severity first); [reflexivity | reflexivity | congruence]. }
      rewrite Hacc. exists [first], x, l. split; [reflexivity|].
      split; [constructor; [exact Nf | constructor]|].
      split; [exact Ex|]. now apply most_severe_from_high. }
    assert (Hacc : severity (more_severe first x) <> High)
      by (unfold more_severe; destruct (_ >? _); assumption).
    destruct Hin as [<- | [<- | Hin]]; [congruence | congruence |].
    destruct (IH (more_severe first x))
      as (pre & a & post & Hsplit & Hpre & Ha & Hfold);
      [exists a0; split; [now right | exact Ea]|].
    destruct pre as [|y pre]; cbn [app] in Hsplit;
      injection Hsplit as <- Hrest; [congruence|].
    apply Forall_cons_1 in Hpre as [_ Hpre].
    exists (first :: x :: pre), a, post.
    split; [now rewrite Hrest|].
    split; [constructor; [exact Nf|]; constructor; [exact Nx | exact Hpre]|].
    split; assumption.
Qed.

(** An entry of a filtered list, back in the list that was filtered. *)
Lemma filter_split {A : Type} (f : A -> bool) (l : list A) :
  forall pre a post,
    List.filter f l = pre ++ a :: post ->
    exists pre0 post0,
      l = pre0 ++ a :: post0 /\ List.filter f pre0 = pre.
Proof.
  induction l as [|x l IH]; intros pre a post E; cbn [List.filter] in E.
  - destruct pre; discriminate.
  - destruct (f x) eqn:Ex.
    + destruct pre as [|y pre]; cbn [app] in E; injection E as <- E.
      * exists [], l. split; reflexivity.
      * destruct (IH pre a post E) as (pre0 & post0 & -> & Hpre).
        exists (x :: pre0), post0. split; [reflexivity|].
        cbn [List.filter]. now rewrite Ex, Hpre.
    + destruct (IH pre a post E) as (pre0 & post0 & -> & Hpre).
      exists (x :: pre0), post0. split; [reflexivity|].
      cbn [List.filter]. now rewrite Ex.
Qed.

(** *** The equipment detector on a threefold value *)

Lemma slice_length {A : Type} (a : list A) (start stop : nat) :
  (stop <= length a)%nat -> length (slice a start stop) = (stop - start)%nat.
Proof.
  intros H. unfold slice. rewrite length_skipn, length_firstn. lia.
Qed.

Lemma equipment_spike (current : EnergyData) (recent : list EnergyData)
    (m c : Q) :
  (3 <= length recent)%nat ->
  sum (map e_kwh recent) / of_nat (length (map e_kwh recent)) = Fin m ->
  e_kwh current = Fin c -> (0 < m)%Q -> (c == 3 * m)%Q ->
  detectEquipmentAnomaly current recent = flagged current High Spike.
Proof.
  intros Hlen Hm Hc Hpos E. unfold detectEquipmentAnomaly.
  destruct (Nat.ltb_spec (length recent) 3); [lia|].
  cbn zeta. rewrite Hm, Hc. q_cases; solve [reflexivity | lra].
Qed.


End AnomalyFacts.

Section AnomalyWitnesses.

Import Anomaly.



(** The map itself is not emptied between calls: after a call on a
    sample of hour 0 and a call on a sample of hour 1, the entry of
    hour 0 is still there.  No record depends on it. *)
Example baseline_keeps_old_entries :
  let first_call :=
    detectAnomalies (H := approx_math) (new_detector Medium)
      [hourly_sample 0 (Fin 5)] 48 in
  let second_call :=
    detectAnomalies (H := approx_math) (snd first_call)
      [hourly_sample 1 (Fin 7)] 48 in
  historicalBaseline (snd second_call) !! key_of (hourly_sample 0 (Fin 5))
  = Some (Fin 5).
Proof. vm_compute. reflexivity. Qed.

End AnomalyWitnesses.

(** ** Calls that throw *)

Section FailureModes.

Import Anomaly Binary64.

Local Open Scope Q_scope.

Context `{M : Math}.

(** The difference of two array indices is exact in doubles. *)
Lemma fl_sub_nat (i w : nat) :
  (w <= i)%nat -> (Z.of_nat i < 2 ^ 53)%Z ->
  exists q, Fl.sub (of_nat i) (of_nat w) = Fin q /\
            q == inject_Z (Z.of_nat (i - w)).
Proof.
  intros Hw Hi.
  change (Fl.sub (of_nat i) (of_nat w))
    with (Fl.to_double (Fin (inject_Z (Z.of_nat i) - inject_Z (Z.of_nat w)))).
  assert (E : inject_Z (Z.of_nat i) - inject_Z (Z.of_nat w)
              == inject_Z (Z.of_nat (i - w))).
  { rewrite Nat2Z.inj_sub by exact Hw. unfold Z.sub. rewrite inject_Z_plus, inject_Z_opp. reflexivity. }
  destruct pow2_ladder as (L1 & L2 & L3).
  assert (Hp : pow2 53 <= pow2 1020) by (apply pow2_le; lia).
  assert (Hb : - pow2 53 <= inject_Z (Z.of_nat i) - inject_Z (Z.of_nat w) <= pow2 53).
  { rewrite E. unfold pow2. 
    change (2 ^ 53)%Q with (inject_Z (2 ^ 53)).
    rewrite <- inject_Z_opp. rewrite <- !Zle_Qle. lia. }
  rewrite (to_double_fin _ _ Hb Hp).
  eexists. split; [reflexivity|].
  rewrite (rnd_comp _ _ E). apply rnd_int. lia.
Qed.

(** With a whole window size, the window of an index of the loop is
    [data.slice(i - windowSize, i)] with whole bounds. *)
Lemma window_at_whole (data : list EnergyData) (w i : nat) :
  (w <= i)%nat -> (i < length data)%nat ->
  (Z.of_nat (length data) < 2 ^ 53)%Z ->
  AnyWindow.window_at data (of_nat w) i = slice data (i - w) i.
Proof.
  intros Hw Hi Hlen. unfold AnyWindow.window_at.
  destruct (fl_sub_nat i w Hw) as (q & -> & Eq); [lia|].
  f_equal. unfold AnyWindow.slice_bound.
  assert (Hq0 : Qltb q 0 = false).
  { destruct (Qltb_cases q 0) as [Hc | Hc]; [|reflexivity].
    rewrite Eq in Hc. exfalso.
    change 0 with (inject_Z 0) in Hc. rewrite <- Zlt_Qlt in Hc. lia. }
  rewrite Hq0.
  rewrite (Qfloor_comp _ _ Eq), Qfloor_Z.
  destruct (Z.ltb_spec (Z.of_nat (i - w)) 0) as [Hneg | _]; [lia|].
  lia.
Qed.

Lemma detect_in_whole (self : AnomalyDetector) (data : list EnergyData)
    (w i : nat) (current : EnergyData) :
  (w <= i)%nat -> (i < length data)%nat ->
  (Z.of_nat (length data) < 2 ^ 53)%Z ->
  AnyWindow.detect_in self data (AnyWindow.window_at data (of_nat w) i)
    i current
  = Anomaly.detect_at self data w i current.
Proof.
  intros Hw Hi Hlen. rewrite window_at_whole by assumption. reflexivity.
Qed.

Lemma max_whole (w : nat) :
  JS.max (of_nat w) (Fin 24) = Fin (inject_Z (Z.of_nat (Nat.max w 24))).
Proof.
  unfold JS.max, of_nat, of_Z, JS.lt.
  destruct (Qltb_cases (inject_Z (Z.of_nat w)) 24) as [Hc | Hc].
  - change 24 with (inject_Z 24) in Hc. rewrite <- Zlt_Qlt in Hc.
    replace (Nat.max w 24) with 24%nat by lia. reflexivity.
  - change 24 with (inject_Z 24) in Hc. rewrite <- Zle_Qle in Hc.
    replace (Nat.max w 24) with w by lia. reflexivity.
Qed.

(** On a whole window size the call returns, and returns the records
    and the detector of [Anomaly.detectAnomalies]. *)
Lemma detectAnomalies_whole (self : AnomalyDetector)
    (data : list EnergyData) (w : nat) :
  (Z.of_nat (length data) < 2 ^ 53)%Z ->
  AnyWindow.detectAnomalies self data (of_nat w)
  = (Returned (fst (Anomaly.detectAnomalies self data w)),
     snd (Anomaly.detectAnomalies self data w)).
Proof.
  intros Hlen. unfold AnyWindow.detectAnomalies, Anomaly.detectAnomalies.
  rewrite max_whole. cbn [fst snd].
  set (s := Nat.max w 24).
  destruct (Qltb_cases (inject_Z (Z.of_nat s))
              (inject_Z (Z.of_nat (length data)))) as [Hc | Hc].
  - rewrite Qfloor_Z.
    destruct (Qeq_bool_cases (inject_Z (Z.of_nat s)) (inject_Z (Z.of_nat s)))
      as [_ | Hne]; [|exfalso; apply Hne; reflexivity].
    cbv zeta. rewrite Nat2Z.id. f_equal. f_equal.
    unfold Anomaly.scored_indices. fold s.
    apply map_ext_in. intros i Hin. apply in_seq in Hin.
    apply detect_in_whole; [subst s; lia | lia | exact Hlen].
  - rewrite <- Zle_Qle in Hc. f_equal. f_equal.
    unfold Anomaly.scored_indices. fold s.
    replace (length data - s)%nat with 0%nat by lia. reflexivity.
Qed.

(** The call throws when the loop starts between two samples, and
    returns otherwise. *)
Lemma detectAnomalies_outcome (self : AnomalyDetector)
    (data : list EnergyData) (windowSize : num) :
  (fractional_start data windowSize /\
   fst (AnyWindow.detectAnomalies self data windowSize)
   = Thrown AnyWindow.undefined_sample) \/
  (~ fractional_start data windowSize /\
   exists records,
     fst (AnyWindow.detectAnomalies self data windowSize) = Returned records).
Proof.
  unfold AnyWindow.detectAnomalies, fractional_start.
  destruct (JS.max windowSize (Fin 24)) as [start | | |] eqn:Emax;
    try (right; split; [intros (q & Hq & _); discriminate
                       | eexists; reflexivity]).
  destruct (Qltb_cases start (inject_Z (Z.of_nat (length data)))) as [Hc | Hc].
  - destruct (Qeq_bool_cases (inject_Z (Qfloor start)) start) as [He | He].
    + right. split; [|eexists; reflexivity].
      intros (q & Hq & _ & Hn). injection Hq as <-. apply Hn, He.
    + left. split; [|reflexivity]. exists start. auto.
  - right. split; [|eexists; reflexivity].
    intros (q & Hq & Hlt & _). injection Hq as <-. lra.
Qed.

(** C4.  [forecastNextHour] throws the insufficient-history error exactly
    when the history has fewer than 48 samples, and returns exactly when
    it has 48 or more.  The forecaster is not the only call that
    throws: [detectAnomalies(data, windowSize)] throws a [TypeError]
    exactly when [Math.max(windowSize, 24)] is a number below
    [data.length] that is not whole, and returns otherwise; on a whole
    window size it returns the records of [Anomaly.detectAnomalies]. *)
Theorem raising_calls (self : AnomalyDetector) (data : list EnergyData)
    (windowSize : num) :
  (Forecaster.forecastNextHour data = Thrown Forecaster.insufficient_history
   <-> (length data < 48)%nat) /\
  ((exists r, Forecaster.forecastNextHour data = Returned r)
   <-> (48 <= length data)%nat) /\
  (fst (AnyWindow.detectAnomalies self data windowSize)
   = Thrown AnyWindow.undefined_sample
   <-> fractional_start data windowSize) /\
  ((exists records,
      fst (AnyWindow.detectAnomalies self data windowSize) = Returned records)
   <-> ~ fractional_start data windowSize) /\
  (forall w : nat,
     (Z.of_nat (length data) < 2 ^ 53)%Z ->
     AnyWindow.detectAnomalies self data (of_nat w)
     = (Returned (fst (Anomaly.detectAnomalies self data w)),
        snd (Anomaly.detectAnomalies self data w))).
Proof.
  destruct (forecastNextHour_throws_iff data) as (F1 & F2).
  split; [exact F1|]. split; [exact F2|].
  destruct (detectAnomalies_outcome self data windowSize)
    as [(Hf & E) | (Hf & (rs & E))]; rewrite E.
  - split; [tauto|]. split.
    + split; [intros (r & Hr); discriminate | tauto].
    + intros w. apply detectAnomalies_whole.
  - split; [split; [discriminate | tauto]|]. split.
    + split; [tauto | eexists; reflexivity].
    + intros w. apply detectAnomalies_whole.
Qed.

End FailureModes.

Section FailureSamples.

Import Anomaly.

(** 47 samples throw and 48 do not; the detector returns on a window of
    48 samples. *)
Lemma raising_calls_witness :
  Forecaster.forecastNextHour (H := approx_math) (repeat no_sample 47)
    = Thrown Forecaster.insufficient_history /\
  (exists r,
     Forecaster.forecastNextHour (H := approx_math) (repeat no_sample 48)
       = Returned r) /\
  (Z.of_nat (length plain_spike_history) < 2 ^ 53)%Z /\
  AnyWindow.detectAnomalies (H := approx_math) (new_detector Medium)
    plain_spike_history (of_nat 48)
  = (Returned (fst (Anomaly.detectAnomalies (H := approx_math)
                      (new_detector Medium) plain_spike_history 48)),
     snd (Anomaly.detectAnomalies (H := approx_math)
            (new_detector Medium) plain_spike_history 48)).
Proof.
  assert (Hlen : (Z.of_nat (length plain_spike_history) < 2 ^ 53)%Z)
    by (vm_compute; reflexivity).
  split; [|split; [|split; [exact Hlen|]]].
  - apply (raising_calls (M := approx_math) (new_detector Medium)
             (repeat no_sample 47) (of_nat 48)).
    rewrite repeat_length. lia.
  - apply (raising_calls (M := approx_math) (new_detector Medium)
             (repeat no_sample 48) (of_nat 48)).
    rewrite repeat_length. lia.
  - apply (raising_calls (M := approx_math) (new_detector Medium)
             plain_spike_history (of_nat 48)).
    exact Hlen.
Defined.

(** C4, the failing case.  On fifty samples and a window size of 48.5
    the loop starts at index 48.5: [data[48.5]] is [undefined] and
    [detectStatisticalAnomaly] throws on [current.kwh]. *)
Lemma detector_raises_on_fractional_window :
  length fractional_window_history = 50%nat /\
  fst (AnyWindow.detectAnomalies (H := approx_math) (new_detector Medium)
         fractional_window_history (Fin (485 # 10)))
  = Thrown AnyWindow.undefined_sample.
Proof. split; vm_compute; reflexivity. Qed.

End FailureSamples.


(** * Further properties of the optimizer *)

Section OptimizerMore.

Import Optimizer.

Variable self : EnergyOptimizer.

(** Rounding to a grid keeps the order. *)
Lemma round_to_monotone (k x y : Q) :
  (0 < k)%Q -> (x <= y)%Q ->
  Le (round_to k (Fin x)) (round_to k (Fin y)).
Proof.
  intros Hk Hxy. rewrite !round_to_fin by assumption.
  unfold Le. js_simpl. apply Qle_bool_iff.
  assert (Hf : (Qfloor (x * k + (1 # 2)) <= Qfloor (y * k + (1 # 2)))%Z).
  { apply Qfloor_resp_le. nra. }
  rewrite Zle_Qle in Hf.
  apply Qle_shift_div_l; [exact Hk|].
  assert (E : (inject_Z (Qfloor (x * k + (1 # 2))) / k * k
               == inject_Z (Qfloor (x * k + (1 # 2))))%Q) by (field; lra).
  rewrite E. exact Hf.
Qed.

(** More solar, like more charge in the battery, never means more grid
    energy or a higher cost at a price that is not negative. *)
Theorem grid_monotone (d s1 s2 p l1 l2 : Q) (tou : TimeOfUse) :
  (s1 <= s2)%Q -> (l1 <= l2)%Q -> (0 <= p)%Q ->
  let r1 := optimize self d s1 p l1 tou in
  let r2 := optimize self d s2 p l2 tou in
  Le (gridKwh r2) (gridKwh r1) /\ Le (totalCost r2) (totalCost r1).
Proof.
  intros Hs Hl Hp. cbn zeta. unfold optimize. cbn [gridKwh totalCost].
  destruct (adjusted_price_fin p tou) as (a & -> & Ea).
  assert (Ha : (0 <= a)%Q) by (destruct tou; cbn [multiplierQ] in Ea; lra).
  destruct (dispatch_balance self d s1 a l1 tou)
    as (sol1 & dis1 & g1 & _ & _ & E1 & _ & _ & _ & _ & _ & Hg1 & _).
  destruct (dispatch_balance self d s2 a l2 tou)
    as (sol2 & dis2 & g2 & _ & _ & E2 & _ & _ & _ & _ & _ & Hg2 & _).
  assert (Hg : (g2 <= g1)%Q).
  { assert (H : Le (d_grid (dispatch self d s2 a l2 tou))
                   (d_grid (dispatch self d s1 a l1 tou))).
    { unfold dispatch, Le. destruct tou; q_cases;
        solve [reflexivity | apply Qle_bool_iff; lra | exfalso; lra]. }
    rewrite E1, E2 in H. unfold Le in H. js_simpl.
    now apply Qle_bool_iff in H. }
  rewrite E1, E2. js_simpl. split.
  - apply round_to_monotone; lra.
  - apply round_to_monotone; [lra | nra].
Qed.

(** *** The two battery flows and the live loop *)

(** Whatever the arguments are, [NaN] and the infinities included, one of
    the two unrounded battery flows is the literal zero. *)
Lemma dispatch_exclusive_any (d s a l : num) (tou : TimeOfUse) :
  d_charge (dispatch self d s a l tou) = Fin 0 \/
  d_discharge (dispatch self d s a l tou) = Fin 0.
Proof.
  unfold dispatch.
  assert (H : (s - min s d >? Fin 0) = false \/
              (d - min s d >? Fin 0) = false).
  { destruct d, s; q_cases; solve [now left | now right | exfalso; lra]. }
  destruct H as [-> | ->]; [left | right].
  - destruct (_ && _); [destruct (_ || _)|]; reflexivity.
  - destruct (s - min s d >? Fin 0); reflexivity.
Qed.

(** The live loop updates the battery level only when both [batteryKwh]
    and [batteryCharge] of the result are truthy; no result of
    [optimize] is such, so the update never changes the level. *)
Theorem live_battery_never_updated (d s p l prev : num) (tou : TimeOfUse) :
  App.live_battery_update prev (optimize self d s p l tou) = prev.
Proof.
  unfold App.live_battery_update, optimize. cbn [batteryKwh batteryCharge].
  destruct (dispatch_exclusive_any d s (p * priceMultipliers tou) l tou)
    as [-> | ->].
  - change (truthy (round2 (Fin 0))) with false.
    now rewrite andb_false_r.
  - change (truthy (round2 (Fin 0))) with false. reflexivity.
Qed.

End OptimizerMore.

(** * Real-time price response *)

Section PriceResponse64.

Import Optimizer Binary64.

(** Rounding, products and literals keep a number from being
    negative. *)
Lemma to_double_not_negative (a : num) :
  not_negative a -> not_negative (Fl.to_double a).
Proof.
  unfold not_negative. destruct a as [q | | |]; cbn [Fl.to_double lt];
    try (intros H; exact H).
  intros H. apply Qltb_false in H.
  destruct (Qle_bool_cases (pow2 1024) (Qabs (rnd q))) as [Hov | _].
  - destruct (Qltb_cases 0 q) as [_ | Hz]; [reflexivity|].
    exfalso. assert (E : (q == 0)%Q) by lra.
    rewrite (rnd_comp _ _ E) in Hov.
    assert (E0 : (rnd 0 == 0)%Q) by reflexivity.
    rewrite E0 in Hov. pose proof (pow2_pos 1024).
    change (Qabs 0) with 0%Q in Hov. lra.
  - cbn [lt]. apply Qltb_false. now apply rnd_nonneg.
Qed.

Lemma mul_not_negative (a b : num) :
  not_negative a -> not_negative b -> not_negative (a ⊗ b).
Proof.
  intros Ha Hb. unfold Fl.mul. apply to_double_not_negative.
  unfold not_negative in *.
  destruct a as [x | | |], b as [y | | |]; cbn [mul lt inf_signed] in *;
    try discriminate; try reflexivity.
  - apply Qltb_false in Ha, Hb. apply Qltb_false. nra.
  - apply Qltb_false in Ha.
    destruct (Qltb_cases 0 x); [reflexivity|].
    destruct (Qltb_cases x 0); [lra | reflexivity].
  - apply Qltb_false in Hb.
    destruct (Qltb_cases 0 y); [reflexivity|].
    destruct (Qltb_cases y 0); [lra | reflexivity].
Qed.

Lemma lit_not_negative (q : Q) : (0 <= q)%Q -> not_negative (Fl.lit q).
Proof.
  intros Hq. apply to_double_not_negative. unfold not_negative. cbn [lt].
  now apply Qltb_false.
Qed.

Lemma fin_not_negative (q : Q) : (0 <= q)%Q -> not_negative (Fin q).
Proof. intros Hq. unfold not_negative. cbn [lt]. now apply Qltb_false. Qed.

(** A quotient of a price by a smaller positive price is not below 0.7
    once rounded. *)
Lemma ratio_below_seven_tenths (cur avg : Q) :
  (0 < avg)%Q ->
  (Fin cur ⊘ Fin avg <? Fl.lit (7 # 10)) = true -> (cur < avg)%Q.
Proof.
  intros Havg Hlt.
  destruct (Qlt_le_dec cur avg) as [H | H]; [exact H|]. exfalso.
  assert (Hq : (1 <= cur / avg)%Q).
  { apply Qle_shift_div_l; lra. }
  assert (E1 : (rnd 1 == 1)%Q) by (apply (rnd_int 1); lia).
  assert (Hr : (1 <= rnd (cur / avg))%Q).
  { rewrite <- E1. now apply rnd_mono. }
  assert (Hc : exists c, Fl.lit (7 # 10) = Fin c /\ (c <= 1)%Q).
  { exists (rnd (7 # 10)). split; [vm_compute; reflexivity|].
    rewrite <- E1. apply rnd_mono. lra. }
  destruct Hc as (c & Ec & Hc). rewrite Ec in Hlt.
  unfold Fl.div in Hlt. cbn [div] in Hlt.
  destruct (Qeq_bool_cases avg 0) as [E | _]; [lra|].
  cbn [Fl.to_double] in Hlt.
  destruct (Qle_bool (pow2 1024) (Qabs (rnd (cur / avg)))).
  - destruct (Qltb_cases 0 (cur / avg)) as [_ | Hneg]; [|lra].
    cbn [lt] in Hlt. discriminate.
  - cbn [lt] in Hlt. apply Qltb_true in Hlt. lra.
Qed.

(** With a positive average price and a price and a demand that are
    not negative, the savings estimated by [optimizeForRealTimePrice],
    computed in doubles, are never negative, whichever action is
    advised. *)
Theorem price_savings_never_negative (cur avg d : Q) (solar level : num) :
  (0 < avg)%Q -> (0 <= cur)%Q -> (0 <= d)%Q ->
  not_negative
    (potentialSavings
       (Rounded.optimizeForRealTimePrice cur avg d solar level)).
Proof.
  intros Havg Hcur Hd. unfold Rounded.optimizeForRealTimePrice.
  destruct ((Fin cur ⊘ Fin avg >? Fl.lit (15 # 10)) && (level >? Fl.lit 10)).
  { cbn [potentialSavings]. repeat apply mul_not_negative;
      try (apply fin_not_negative; assumption).
    apply lit_not_negative. lra. }
  destruct ((Fin cur ⊘ Fin avg <? Fl.lit (7 # 10)) && (solar >? Fin d))
    eqn:Echarge.
  { cbn [potentialSavings]. apply andb_prop in Echarge as [Eratio Esolar].
    pose proof (ratio_below_seven_tenths cur avg Havg Eratio) as Hlt.
    apply mul_not_negative.
    - unfold Fl.sub. apply to_double_not_negative.
      destruct solar as [x | | |]; cbn [gt lt] in Esolar; try discriminate.
      + apply Qltb_true in Esolar. cbn [sub add neg].
        apply fin_not_negative. lra.
      + reflexivity.
    - unfold Fl.sub. apply to_double_not_negative. cbn [sub add neg].
      apply fin_not_negative. lra. }
  destruct (Fin cur ⊘ Fin avg >? Fl.lit (12 # 10)).
  { cbn [potentialSavings]. repeat apply mul_not_negative;
      try (apply fin_not_negative; assumption).
    apply lit_not_negative. lra. }
  cbn [potentialSavings]. reflexivity.
Qed.

End PriceResponse64.

(** * Further properties of load shifting *)

Section LoadShiftingMore.

Import Optimizer.

Variables demands solarForecasts gridPrices : list num.

Lemma add_NaN_r (a : num) : a + NaN = NaN.
Proof. destruct a; reflexivity. Qed.

Lemma add_not_negative (a b : num) :
  lt a (Fin 0) = false -> lt b (Fin 0) = false -> lt (a + b) (Fin 0) = false.
Proof.
  destruct a, b; js_simpl; try congruence.
  rewrite !Qltb_false. lra.
Qed.

Lemma round2_not_negative (x : num) :
  lt x (Fin 0) = false -> lt (round2 x) (Fin 0) = false.
Proof.
  destruct x as [q| | |]; try (vm_compute; congruence).
  js_simpl. rewrite Qltb_false. intros Hq.
  destruct (round_to_ge_grid 100 q 0) as (y & Ey & Hy);
    [lra | change (inject_Z 0) with 0%Q; lra |].
  unfold round2. rewrite Ey. js_simpl. apply Qltb_false.
  change (inject_Z 0) with 0%Q in Hy. lra.
Qed.

(** The total the outer loop accumulates is the sum of the unrounded
    savings of the loads, in order. *)
Lemma totalSavings_sum (loads : list FlexibleLoad) :
  totalSavings (optimizeLoadShifting loads demands solarForecasts gridPrices)
  = round2
      (fold_left add
         (map (fun load =>
                 snd (shift_load demands solarForecasts gridPrices load))
            loads) (Fin 0)).
Proof.
  unfold optimizeLoadShifting.
  set (step := fun (acc : list ShiftedLoad * num) (load : FlexibleLoad) =>
                 let '(entry, savings) :=
                   shift_load demands solarForecasts gridPrices load in
                 (fst acc ++ [entry], snd acc + savings)).
  assert (H : forall l acc,
             snd (fold_left step l acc)
             = fold_left add
                 (map (fun load =>
                         snd (shift_load demands solarForecasts gridPrices load))
                    l) (snd acc)).
  { induction l as [|load l IH]; intros acc; cbn [fold_left map];
      [reflexivity|].
    rewrite IH. unfold step.
    destruct (shift_load demands solarForecasts gridPrices load).
    reflexivity. }
  specialize (H loads ([], Fin 0)).
  destruct (fold_left step loads ([], Fin 0)). cbn [snd] in H.
  cbn [totalSavings]. now rewrite H.
Qed.

(** The unrounded savings of a load are not negative either. *)
Lemma shift_load_raw_savings (load : FlexibleLoad) :
  lt (snd (shift_load demands solarForecasts gridPrices load)) (Fin 0)
  = false.
Proof.
  unfold shift_load.
  destruct (fold_left _ (timeWindow load) _) as [bestHour bestCost] eqn:Efold.
  cbn [snd].
  destruct (timeWindow load) as [|h0 rest] eqn:Ew; [reflexivity|].
  cbn [head fold_left] in *.
  pose proof (scan_descends demands solarForecasts gridPrices (kwh load) rest
                (pick_hour (kwh load) demands solarForecasts gridPrices
                   (Some h0, PInf) h0)) as Hdesc.
  cbn zeta in Hdesc. rewrite Efold in Hdesc. cbn [snd] in Hdesc.
  set (c0 := calculateLoadCost (kwh load) (Some h0)
               demands solarForecasts gridPrices) in *.
  assert (Hfirst :
    snd (pick_hour (kwh load) demands solarForecasts gridPrices
           (Some h0, PInf) h0) = c0 \/ c0 = NaN).
  { unfold pick_hour. fold c0. cbn [snd].
    destruct (h0 <? Z.of_nat (length demands))%Z eqn:Er.
    - destruct c0; cbn; auto.
    - right. subst c0. unfold calculateLoadCost, at_hour.
      apply Z.ltb_ge in Er.
      destruct (h0 <? 0)%Z; [reflexivity|].
      rewrite (nth_overflow demands) by lia. reflexivity. }
  destruct Hfirst as [Hfirst | Hnan].
  - rewrite Hfirst in Hdesc. now apply sub_not_negative.
  - rewrite Hnan. reflexivity.
Qed.

(** Whatever the loads and the arrays are, [totalSavings] is never
    negative. *)
Theorem totalSavings_never_negative (loads : list FlexibleLoad) :
  lt (totalSavings
        (optimizeLoadShifting loads demands solarForecasts gridPrices))
     (Fin 0) = false.
Proof.
  rewrite totalSavings_sum. apply round2_not_negative.
  assert (H : forall l acc, lt acc (Fin 0) = false ->
            lt (fold_left add
                  (map (fun load =>
                          snd (shift_load demands solarForecasts gridPrices
                                 load)) l) acc) (Fin 0) = false).
  { induction l as [|load l IH]; intros acc Hacc; cbn [map fold_left];
      [exact Hacc|].
    apply IH. apply add_not_negative; [exact Hacc|].
    apply shift_load_raw_savings. }
  apply H. reflexivity.
Qed.

(** A load whose default hour does not index the demand array (an empty
    window, a negative first hour or one past the end) gets [NaN] for
    savings, and that one [NaN] makes the whole [totalSavings] a
    [NaN]. *)
Theorem invalid_default_hour_poisons_total
    (loads : list FlexibleLoad) (load : FlexibleLoad) :
  In load loads ->
  (forall h, head (timeWindow load) = Some h -> ~ valid_hour demands h) ->
  savings (fst (shift_load demands solarForecasts gridPrices load)) = NaN /\
  totalSavings
    (optimizeLoadShifting loads demands solarForecasts gridPrices) = NaN.
Proof.
  intros Hin Hbad.
  assert (Hraw : snd (shift_load demands solarForecasts gridPrices load)
                 = NaN).
  { unfold shift_load.
    destruct (fold_left _ (timeWindow load) _) as [bestHour bestCost].
    cbn [snd].
    assert (E : at_hour demands (head (timeWindow load)) = NaN).
    { destruct (head (timeWindow load)) as [h|] eqn:Eh; [|reflexivity].
      specialize (Hbad h eq_refl). unfold valid_hour in Hbad. unfold at_hour.
      destruct (Z.ltb_spec h 0); [reflexivity|].
      apply nth_overflow. lia. }
    unfold calculateLoadCost. rewrite E. reflexivity. }
  split.
  - unfold shift_load in *.
    destruct (fold_left _ (timeWindow load) _) as [bestHour bestCost].
    cbn [fst snd savings] in *. now rewrite Hraw.
  - rewrite totalSavings_sum.
    assert (H : forall l acc,
              (acc = NaN \/ In load l) ->
              fold_left add
                (map (fun x =>
                        snd (shift_load demands solarForecasts gridPrices x))
                   l) acc = NaN).
    { induction l as [|x l IH]; intros acc [Hacc | Hl]; cbn [map fold_left].
      - exact Hacc.
      - destruct Hl.
      - apply IH. left. now rewrite Hacc.
      - apply IH. destruct Hl as [-> | Hl]; [left | now right].
        rewrite Hraw. apply add_NaN_r. }
    rewrite H by now right. reflexivity.
Qed.

End LoadShiftingMore.

(** * Further properties of the anomaly detector *)

Section AnomalyMore.

Import Anomaly.

Context `{M : Math}.

(** *** The statistical detector *)

(** The cut-offs grow from [high] to [low], so the tests for medium and
    low severity can never succeed after the test for high has failed:
    whatever the statistical detector flags, it flags as high. *)
Theorem statistical_only_high (self : AnomalyDetector)
    (current : EnergyData) (window : list EnergyData) :
  isAnomaly (detectStatisticalAnomaly self current window) = true ->
  severity (detectStatisticalAnomaly self current window) = High.
Proof.
  unfold detectStatisticalAnomaly. cbn zeta.
  set (z := abs _).
  assert (Hdead : forall lo hi : Q, (lo < hi)%Q ->
            (z >? Fin lo) = false -> (z >? Fin hi) = false).
  { intros lo hi Hlt Hlo. destruct (z >? Fin hi) eqn:Ehi; [|reflexivity].
    assert (Lt (Fin lo) z).
    { eapply lt_trans; [|exact Ehi]. unfold Lt. js_simpl.
      now apply Qltb_true. }
    unfold Lt, gt in *. congruence. }
  destruct (sensitivityLevel self); cbn [thresholds];
    (destruct (z >? _) eqn:E1; [reflexivity|]).
  - rewrite (Hdead 2 (25 # 10)), (Hdead 2 3);
      solve [discriminate | lra | exact E1].
  - rewrite (Hdead (18 # 10) (22 # 10)), (Hdead (18 # 10) (28 # 10));
      solve [discriminate | lra | exact E1].
  - rewrite (Hdead (15 # 10) 2), (Hdead (15 # 10) (25 # 10));
      solve [discriminate | lra | exact E1].
Qed.

(** *** Sums of finite values *)

Lemma sum_map_Fin (qs : list Q) :
  forall a : Q,
    fold_left add (map Fin qs) (Fin a) = Fin (fold_left Qplus qs a).
Proof.
  induction qs as [|q qs IH]; intros a; cbn [map fold_left]; [reflexivity|].
  js_simpl. apply IH.
Qed.

Lemma count_succ (n : nat) :
  (inject_Z (Z.of_nat (S n)) == inject_Z (Z.of_nat n) + 1)%Q.
Proof. rewrite Nat2Z.inj_succ, <- Z.add_1_r, inject_Z_plus. reflexivity. Qed.

Lemma count_positive (n : nat) :
  (0 < n)%nat -> (0 < inject_Z (Z.of_nat n))%Q.
Proof.
  intros H. change 0%Q with (inject_Z 0). rewrite <- Zlt_Qlt. lia.
Qed.

(** A sum of values that are all above (below) [t] is above (below)
    [t] times their number. *)
Lemma sum_above (t : Q) (qs : list Q) :
  Forall (fun q => (t < q)%Q) qs ->
  forall a : Q,
    (a + inject_Z (Z.of_nat (length qs)) * t <= fold_left Qplus qs a)%Q /\
    (qs <> [] ->
     (a + inject_Z (Z.of_nat (length qs)) * t < fold_left Qplus qs a)%Q).
Proof.
  induction 1 as [|q qs Hq _ IH]; intros a.
  - cbn [fold_left length]. change (inject_Z (Z.of_nat 0)) with 0%Q.
    split; [lra | congruence].
  - cbn [fold_left length]. destruct (IH (a + q)%Q) as [Hle _].
    pose proof (count_succ (length qs)) as E.
    split; [|intros _]; rewrite E; lra.
Qed.

Lemma sum_below (t : Q) (qs : list Q) :
  Forall (fun q => (q < t)%Q) qs ->
  forall a : Q,
    (fold_left Qplus qs a <= a + inject_Z (Z.of_nat (length qs)) * t)%Q /\
    (qs <> [] ->
     (fold_left Qplus qs a < a + inject_Z (Z.of_nat (length qs)) * t)%Q).
Proof.
  induction 1 as [|q qs Hq _ IH]; intros a.
  - cbn [fold_left length]. change (inject_Z (Z.of_nat 0)) with 0%Q.
    split; [lra | congruence].
  - cbn [fold_left length]. destruct (IH (a + q)%Q) as [Hle _].
    pose proof (count_succ (length qs)) as E.
    split; [|intros _]; rewrite E; lra.
Qed.

Lemma sum_not_negative (qs : list Q) :
  Forall (fun q => (0 <= q)%Q) qs ->
  forall a : Q, (a <= fold_left Qplus qs a)%Q.
Proof.
  induction 1 as [|q qs Hq _ IH]; intros a; cbn [fold_left]; [lra|].
  specialize (IH (a + q)%Q). lra.
Qed.

(** *** The equipment detector *)

(** Not all of the recent values can lie above 1.3 times their own
    mean, nor all below 0.7 times it, when that mean is not negative:
    on consumption readings that are not negative the equipment
    detector never reports the type [sustained]. *)
Lemma equipment_never_sustained (current : EnergyData)
    (recent : list EnergyData) (qs : list Q) :
  map e_kwh recent = map Fin qs ->
  Forall (fun q => (0 <= q)%Q) qs ->
  type (detectEquipmentAnomaly current recent) <> Some Sustained.
Proof.
  intros Hvals Hpos. unfold detectEquipmentAnomaly.
  destruct (Nat.ltb_spec (length recent) 3) as [_ | Hlen];
    [discriminate|].
  cbn zeta. rewrite Hvals. unfold sum. rewrite sum_map_Fin, length_map.
  assert (Hn : length qs = length recent).
  { rewrite <- (length_map Fin qs), <- Hvals. apply length_map. }
  assert (Hne : qs <> []) by (destruct qs; [cbn in Hn; lia | discriminate]).
  set (sigma := fold_left Qplus qs 0).
  assert (Hsigma : (0 <= sigma)%Q) by (apply sum_not_negative; exact Hpos).
  pose proof (count_positive (length qs) ltac:(lia)) as HN.
  unfold of_nat, of_Z. set (N := inject_Z (Z.of_nat (length qs))) in *.
  js_simpl. destruct (Qeq_bool_cases N 0) as [E | _]; [lra|].
  set (m := (sigma / N)%Q).
  assert (Em : (m * N == sigma)%Q) by (unfold m; field; lra).
  destruct (_ <? _); [discriminate|].
  destruct (_ >? _); [discriminate|].
  assert (Hhigh : forallb (fun v => v >? Fin m * Fin (13 # 10))
                    (map Fin qs ++ [e_kwh current]) = false).
  { destruct (forallb _ _) eqn:E; [exfalso | reflexivity].
    rewrite forallb_app in E. apply andb_prop in E as [E _].
    assert (Hall : Forall (fun q => (m * (13 # 10) < q)%Q) qs).
    { apply Forall_forall. intros q Hq. rewrite forallb_forall in E.
      specialize (E (Fin q) (in_map Fin qs q (proj1 (list_elem_of_In _ _) Hq))).
      js_simpl. now apply Qltb_true in E. }
    destruct (sum_above _ qs Hall 0%Q) as [_ Hlt].
    specialize (Hlt Hne). fold sigma N in Hlt. nra. }
  assert (Hlow : forallb (fun v => v <? Fin m * Fin (7 # 10))
                   (map Fin qs ++ [e_kwh current]) = false).
  { destruct (forallb (fun v => v <? _) _) eqn:E; [exfalso | reflexivity].
    rewrite forallb_app in E. apply andb_prop in E as [E _].
    assert (Hall : Forall (fun q => (q < m * (7 # 10))%Q) qs).
    { apply Forall_forall. intros q Hq. rewrite forallb_forall in E.
      specialize (E (Fin q) (in_map Fin qs q (proj1 (list_elem_of_In _ _) Hq))).
      js_simpl. now apply Qltb_true in E. }
    destruct (sum_below _ qs Hall 0%Q) as [_ Hlt].
    specialize (Hlt Hne). fold sigma N in Hlt. nra. }
  rewrite Hhigh, Hlow. discriminate.
Qed.

(** *** The records of a call *)

Lemma statistical_type (self : AnomalyDetector) (current : EnergyData)
    (window : list EnergyData) :
  type (detectStatisticalAnomaly self current window) = Some Spike \/
  type (detectStatisticalAnomaly self current window) = Some Drop.
Proof.
  unfold detectStatisticalAnomaly. cbn zeta.
  destruct (thresholds _) as [[t1 t2] t3].
  destruct (_ >? t1); [|destruct (_ >? t2); [|destruct (_ >? t3)]];
    cbn [type]; destruct (e_kwh current >? _); auto.
Qed.

Lemma pattern_type (self : AnomalyDetector) (current : EnergyData) :
  isAnomaly (detectPatternAnomaly self current) = true ->
  type (detectPatternAnomaly self current) = Some Pattern.
Proof.
  unfold detectPatternAnomaly.
  destruct (historicalBaseline self !! key_of current) as [v|];
    [|discriminate].
  destruct (negb (truthy v)); [discriminate|]. cbn zeta.
  destruct (_ >? _); [|destruct (_ >? _); [|destruct (_ >? _)]]; reflexivity.
Qed.

Lemma contextual_type (current : EnergyData) (window : list EnergyData) :
  isAnomaly (detectContextualAnomaly current window) = true ->
  type (detectContextualAnomaly current window) = Some Pattern.
Proof.
  unfold detectContextualAnomaly. cbn zeta.
  destruct (_ <? 3)%nat; [discriminate|].
  destruct (calculateExpectedRange _). reflexivity.
Qed.

Lemma equipment_type (current : EnergyData) (recent : list EnergyData) :
  isAnomaly (detectEquipmentAnomaly current recent) = true ->
  type (detectEquipmentAnomaly current recent) <> None.
Proof.
  unfold detectEquipmentAnomaly. cbn zeta.
  destruct (_ <? 3)%nat; [discriminate|].
  destruct (_ <? _); [discriminate|].
  destruct (_ >? _); [discriminate|].
  destruct (_ || _); discriminate.
Qed.

(** What one iteration of the loop pushes: either the record of a quiet
    sample, or a record that takes severity and type from one of the
    sub-detector results that flag. *)
Lemma detect_at_cases (self : AnomalyDetector) (data : list EnergyData)
    (w i : nat) (current : EnergyData) :
  let r := detect_at self data w i current in
  a_timestamp r = timestamp current /\ value r = e_kwh current /\
  ((isAnomaly r = false /\ severity r = Low /\ type r = None /\
    a_confidence r = Some (Fin (95 # 100))) \/
   (exists (a : AnomalyData) (detected : list AnomalyData),
      In a (anomalyResults self data w i current) /\
      isAnomaly a = true /\ detected <> [] /\
      isAnomaly r = true /\ severity r = severity a /\ type r = type a /\
      a_confidence r = Some (calculateAnomalyConfidence detected))).
Proof.
  cbn zeta. unfold detect_at.
  destruct (List.filter _ _) as [|first rest] eqn:Ed.
  - split; [reflexivity|]. split; [reflexivity|]. left. auto.
  - split; [reflexivity|]. split; [reflexivity|]. right.
    pose proof (most_severe_in rest first) as Hin.
    rewrite <- Ed in Hin. apply filter_In in Hin as [Hin Hflag].
    exists (fold_left more_severe rest first), (first :: rest).
    repeat split; try assumption. discriminate.
Qed.

Lemma detect_records_nth (self : AnomalyDetector)
    (data : list EnergyData) (w k : nat) (r : AnomalyData) :
  nth_error (fst (detectAnomalies self data w)) k = Some r ->
  let i := (Nat.max w 24 + k)%nat in
  (i < length data)%nat /\
  r = detect_at (buildHistoricalBaseline self data) data w i
        (nth i data no_sample).
Proof.
  unfold detectAnomalies. cbn [fst]. intros Hr. cbn zeta.
  rewrite nth_error_map in Hr. unfold scored_indices in Hr.
  rewrite nth_error_seq in Hr.
  destruct (Nat.ltb_spec k (length data - Nat.max w 24)) as [Hk|];
    [|discriminate].
  cbn [option_map] in Hr. injection Hr as <-. split; [lia | reflexivity].
Qed.

(** There is one record for each sample from index [max(windowSize, 24)]
    on, none for a history that short, and the record at position [k]
    carries the timestamp and the value of the sample at
    [max(windowSize, 24) + k]. *)
Theorem detect_records_aligned (self : AnomalyDetector)
    (data : list EnergyData) (w : nat) :
  let records := fst (detectAnomalies self data w) in
  length records = (length data - Nat.max w 24)%nat /\
  forall (k : nat) (r : AnomalyData),
    nth_error records k = Some r ->
    a_timestamp r = timestamp (nth (Nat.max w 24 + k) data no_sample) /\
    value r = e_kwh (nth (Nat.max w 24 + k) data no_sample).
Proof.
  cbn zeta. split.
  - unfold detectAnomalies, scored_indices. cbn [fst].
    now rewrite length_map, length_seq.
  - intros k r Hr. apply detect_records_nth in Hr as [_ ->].
    split; apply detect_at_cases.
Qed.

(** *** Confidence *)

Lemma sum_between (lo hi : Q) (qs : list Q) :
  Forall (fun q => (lo <= q <= hi)%Q) qs ->
  forall a : Q,
    (a + inject_Z (Z.of_nat (length qs)) * lo <= fold_left Qplus qs a)%Q /\
    (fold_left Qplus qs a <= a + inject_Z (Z.of_nat (length qs)) * hi)%Q.
Proof.
  induction 1 as [|q qs Hq _ IH]; intros a.
  - cbn [fold_left length]. change (inject_Z (Z.of_nat 0)) with 0%Q.
    split; lra.
  - cbn [fold_left length]. destruct (IH (a + q)%Q) as [Hlo Hhi].
    pose proof (count_succ (length qs)) as E.
    split; rewrite E; lra.
Qed.

(** The confidence of a flagged record: at least 0.65, capped at 0.98. *)
Lemma anomaly_confidence_range (detected : list AnomalyData) :
  detected <> [] ->
  exists c : Q, calculateAnomalyConfidence detected = Fin c /\
                (65 # 100 <= c <= 98 # 100)%Q.
Proof.
  intros Hne. unfold calculateAnomalyConfidence.
  destruct (Nat.eqb_spec (length detected) 0) as [E | Hlen];
    [destruct detected; [congruence | discriminate]|].
  cbn zeta. rewrite length_map.
  set (score := fun s => match s with High => 3 | Medium => 2 | Low => 1 end : Q).
  assert (Escore : map (fun a => getSeverityScore (severity a)) detected
                   = map Fin (map (fun a => score (severity a)) detected)).
  { rewrite map_map. apply map_ext. intros a. now destruct (severity a). }
  rewrite Escore. unfold sum. rewrite sum_map_Fin.
  destruct (sum_between 1 3 (map (fun a => score (severity a)) detected))
    with (a := 0%Q) as [Hlo Hhi].
  { apply Forall_forall. intros q Hq.
    apply list_elem_of_In, in_map_iff in Hq as (a & <- & _).
    destruct (severity a); cbn; lra. }
  rewrite length_map in Hlo, Hhi.
  pose proof (count_positive (length detected) ltac:(lia)) as HN.
  assert (H1 : (1 <= inject_Z (Z.of_nat (length detected)))%Q).
  { change 1%Q with (inject_Z 1). rewrite <- Zle_Qle. lia. }
  unfold of_nat, of_Z.
  set (N := inject_Z (Z.of_nat (length detected))) in *.
  set (sigma := fold_left Qplus _ 0) in *.
  assert (Havg : (1 <= sigma / N <= 3)%Q).
  { split; [apply Qle_shift_div_l | apply Qle_shift_div_r]; lra. }
  assert (Hd3 : forall x : Q, (x / 3 == x * (1 # 3))%Q) by (intros; field).
  assert (Hd4 : forall x : Q, (x / 4 == x * (1 # 4))%Q) by (intros; field).
  q_cases; try lra; eexists; (split; [reflexivity|]);
    repeat match goal with
           | H : context [(?x / 3)%Q] |- _ => rewrite Hd3, Hd4 in H
           end;
    try rewrite Hd3, Hd4; lra.
Qed.

(** Every record that [detectAnomalies] returns carries a confidence
    between 0.65 and 0.98. *)
Theorem detect_confidence_range (self : AnomalyDetector)
    (data : list EnergyData) (w : nat) (r : AnomalyData) :
  In r (fst (detectAnomalies self data w)) ->
  exists c : Q, a_confidence r = Some (Fin c) /\
                (65 # 100 <= c <= 98 # 100)%Q.
Proof.
  intros Hin. apply In_nth_error in Hin as (k & Hk).
  apply detect_records_nth in Hk as [_ ->].
  destruct (detect_at_cases (buildHistoricalBaseline self data) data w
              (Nat.max w 24 + k)
              (nth (Nat.max w 24 + k) data no_sample))
    as (_ & _ & [(_ & _ & _ & Hc) | (a & det & _ & _ & Hne & _ & _ & _ & Hc)]).
  - exists (95 # 100). split; [exact Hc | lra].
  - destruct (anomaly_confidence_range det Hne) as (c & Ec & Hrange).
    exists c. split; [now rewrite Hc, Ec | exact Hrange].
Qed.

(** *** Statistics *)

Lemma severity_partition (l : list AnomalyData) :
  length l
  = (length (List.filter (is_severity High) l)
     + length (List.filter (is_severity Medium) l)
     + length (List.filter (is_severity Low) l))%nat.
Proof.
  induction l as [|a l IH]; [reflexivity|].
  cbn [List.filter length].
  assert (H : (is_severity High a = true /\ is_severity Medium a = false
               /\ is_severity Low a = false) \/
              (is_severity High a = false /\ is_severity Medium a = true
               /\ is_severity Low a = false) \/
              (is_severity High a = false /\ is_severity Medium a = false
               /\ is_severity Low a = true))
    by (unfold is_severity; destruct (severity a); tauto).
  destruct H as [(-> & -> & ->) | [(-> & -> & ->) | (-> & -> & ->)]];
    cbn [length]; lia.
Qed.

Lemma type_partition (l : list AnomalyData) :
  Forall (fun a => type a <> None) l ->
  length l
  = (length (List.filter (is_type Spike) l)
     + length (List.filter (is_type Drop) l)
     + length (List.filter (is_type Sustained) l)
     + length (List.filter (is_type Pattern) l))%nat.
Proof.
  induction 1 as [|a l Ha _ IH]; [reflexivity|].
  cbn [List.filter length].
  assert (H : exists b1 b2 b3 b4 : bool,
            is_type Spike a = b1 /\ is_type Drop a = b2 /\
            is_type Sustained a = b3 /\ is_type Pattern a = b4 /\
            (Nat.b2n b1 + Nat.b2n b2 + Nat.b2n b3 + Nat.b2n b4 = 1)%nat).
  { unfold is_type. destruct (type a) as [[]|]; [..|congruence];
      do 4 eexists; repeat split. }
  destruct H as (b1 & b2 & b3 & b4 & -> & -> & -> & -> & Hsum).
  destruct b1, b2, b3, b4; cbn in Hsum; try discriminate;
    cbn [length]; lia.
Qed.

(** The severity counts of [getAnomalyStats] add up to [total], which
    counts the flagged records only. *)
Theorem stats_by_severity (anomalies : list AnomalyData) :
  let st := getAnomalyStats anomalies in
  total st = (high st + medium st + low st)%nat /\
  (total st <= length anomalies)%nat.
Proof.
  cbn zeta. unfold getAnomalyStats. cbn [total high medium low]. split.
  - apply severity_partition.
  - apply filter_length_le.
Qed.

(** A flagged record of [detectAnomalies] always has a type. *)
Lemma detect_flagged_typed (self : AnomalyDetector)
    (data : list EnergyData) (w : nat) (r : AnomalyData) :
  In r (fst (detectAnomalies self data w)) ->
  isAnomaly r = true -> type r <> None.
Proof.
  intros Hin Hflag. apply In_nth_error in Hin as (k & Hk).
  apply detect_records_nth in Hk as [_ ->].
  destruct (detect_at_cases (buildHistoricalBaseline self data) data w
              (Nat.max w 24 + k)
              (nth (Nat.max w 24 + k) data no_sample))
    as (_ & _ & [(Hq & _) | (a & det & Hin & Ha & _ & _ & _ & Ht & _)]);
    [congruence|].
  rewrite Ht. unfold anomalyResults in Hin.
  destruct Hin as [<- | [<- | [<- | [<- | []]]]].
  - destruct (statistical_type (buildHistoricalBaseline self data)
                (nth (Nat.max w 24 + k) data no_sample)
                (slice data (Nat.max w 24 + k - w) (Nat.max w 24 + k)))
      as [-> | ->]; discriminate.
  - rewrite pattern_type by exact Ha. discriminate.
  - rewrite contextual_type by exact Ha. discriminate.
  - now apply equipment_type.
Qed.

(** On the records of [detectAnomalies] the four type counts of
    [getAnomalyStats] add up to [total] as well. *)
Theorem stats_by_type (self : AnomalyDetector)
    (data : list EnergyData) (w : nat) :
  let st := getAnomalyStats (fst (detectAnomalies self data w)) in
  (spikes (types st) + drops (types st) + sustained (types st)
   + patterns (types st))%nat = total st.
Proof.
  cbn zeta. unfold getAnomalyStats.
  cbn [total types spikes drops sustained patterns].
  symmetry. apply type_partition. apply Forall_forall. intros r Hr.
  apply list_elem_of_In, filter_In in Hr as [Hin Hflag].
  now apply (detect_flagged_typed self data w).
Qed.

(** *** No sustained anomaly on readings that are not negative *)

Lemma readings_as_rationals (l : list EnergyData) :
  Forall nonneg_reading l ->
  exists qs : list Q,
    map e_kwh l = map Fin qs /\ Forall (fun q => (0 <= q)%Q) qs.
Proof.
  induction 1 as [|d l (q & E & Hq) _ (qs & Eqs & Hqs)].
  - exists []. split; [reflexivity | constructor].
  - exists (q :: qs). cbn [map]. rewrite E, Eqs.
    split; [reflexivity | now constructor].
Qed.

(** On a history whose consumption readings are not negative no record
    has the type [sustained], and the [sustained] count of the
    statistics is zero. *)
Theorem detect_never_sustained (self : AnomalyDetector)
    (data : list EnergyData) (w : nat) :
  Forall nonneg_reading data ->
  let records := fst (detectAnomalies self data w) in
  Forall (fun r => type r <> Some Sustained) records /\
  sustained (types (getAnomalyStats records)) = 0%nat.
Proof.
  intros Hdata. cbn zeta.
  assert (Hall : Forall (fun r => type r <> Some Sustained)
                   (fst (detectAnomalies self data w))).
  { apply Forall_forall. intros r Hr.
    apply list_elem_of_In, In_nth_error in Hr as (k & Hk).
    apply detect_records_nth in Hk as [_ ->].
    destruct (detect_at_cases (buildHistoricalBaseline self data) data w
                (Nat.max w 24 + k)
                (nth (Nat.max w 24 + k) data no_sample))
      as (_ & _ & [(_ & _ & -> & _) | (a & det & Hin & Ha & _ & _ & _ & -> & _)]);
      [discriminate|].
    unfold anomalyResults in Hin.
    destruct Hin as [<- | [<- | [<- | [<- | []]]]].
    - destruct (statistical_type (buildHistoricalBaseline self data)
                  (nth (Nat.max w 24 + k) data no_sample)
                  (slice data (Nat.max w 24 + k - w) (Nat.max w 24 + k)))
        as [-> | ->]; discriminate.
    - rewrite pattern_type by exact Ha. discriminate.
    - rewrite contextual_type by exact Ha. discriminate.
    - destruct (readings_as_rationals
                  (slice data (Nat.max 0 (Nat.max w 24 + k - 6))
                     (Nat.max w 24 + k))) as (qs & Eqs & Hqs).
      { unfold slice. apply Forall_drop, Forall_take, Hdata. }
      now apply (equipment_never_sustained _ _ qs). }
  split; [exact Hall|].
  unfold getAnomalyStats. cbn [types sustained].
  set (flagged := List.filter (fun a => isAnomaly a) _).
  assert (Hfl : Forall (fun r => type r <> Some Sustained) flagged).
  { apply Forall_forall. intros r Hr.
    apply list_elem_of_In, filter_In in Hr as [Hr _].
    rewrite Forall_forall in Hall. now apply Hall, list_elem_of_In. }
  clearbody flagged. induction Hfl as [|r l Hr _ IH]; [reflexivity|].
  cbn [List.filter]. unfold is_type at 1.
  destruct (type r) as [[]|]; try exact IH. congruence.
Qed.

(** *** The baseline *)

Lemma collect_fold_lookup (data : list EnergyData) (k : Z * Z) :
  forall acc : gmap (Z * Z) (list num),
    fold_left
      (fun patterns d =>
         <[key_of d := default [] (patterns !! key_of d) ++ [e_kwh d]]>
           patterns)
      data acc !! k
    = match bucket data k with
      | [] => acc !! k
      | _ => Some (default [] (acc !! k) ++ bucket data k)
      end.
Proof.
  unfold bucket.
  induction data as [|d data IH]; intros acc; cbn [fold_left List.filter map];
    [reflexivity|].
  rewrite IH. destruct (decide (key_of d = k)) as [E | N].
  - rewrite bool_decide_eq_true_2 by exact E. cbn [map].
    rewrite E, lookup_insert_eq. cbn [default].
    destruct (map e_kwh _); [reflexivity|]. unfold id.
    now rewrite <- app_assoc.
  - rewrite bool_decide_eq_false_2 by exact N.
    now rewrite lookup_insert_ne.
Qed.

Lemma insert_sorted_In (x y : num) (l : list num) :
  In y (insert_sorted x l) <-> y = x \/ In y l.
Proof.
  induction l as [|z l IH]; cbn [insert_sorted In]; [intuition|].
  destruct (_ <? _); cbn [In]; rewrite ?IH; intuition.
Qed.

Lemma insert_sorted_length (x : num) (l : list num) :
  length (insert_sorted x l) = S (length l).
Proof.
  induction l as [|z l IH]; cbn [insert_sorted length]; [reflexivity|].
  destruct (_ <? _); cbn [length]; now rewrite ?IH.
Qed.

Lemma sort_numbers_In (y : num) (l : list num) :
  In y (sort_numbers l) <-> In y l.
Proof.
  unfold sort_numbers. induction l as [|x l IH]; cbn [fold_right In];
    [reflexivity|].
  rewrite insert_sorted_In, IH. intuition.
Qed.

Lemma sort_numbers_length (l : list num) :
  length (sort_numbers l) = length l.
Proof.
  unfold sort_numbers. induction l as [|x l IH]; cbn [fold_right length];
    [reflexivity|].
  now rewrite insert_sorted_length, IH.
Qed.

Lemma median_In (l : list num) : l <> [] -> In (median l) l.
Proof.
  intros Hne. unfold median. apply sort_numbers_In. apply nth_In.
  rewrite sort_numbers_length.
  destruct l; [congruence|]. cbn [length].
  apply Nat.div_lt; lia.
Qed.

(** After a call the baseline of the (day, hour) key of every sample of
    the history is the middle value (the upper one of two) of the
    consumption values that the history holds for that key: in
    particular a value that was observed at that day and hour. *)
Theorem baseline_is_observed (self : AnomalyDetector)
    (data : list EnergyData) (w : nat) (d : EnergyData) :
  In d data ->
  let after := snd (detectAnomalies self data w) in
  historicalBaseline after !! key_of d
    = Some (median (bucket data (key_of d))) /\
  exists d', In d' data /\ key_of d' = key_of d /\
             median (bucket data (key_of d)) = e_kwh d'.
Proof.
  intros Hd. cbn zeta. unfold detectAnomalies. cbn [snd].
  assert (Hne : bucket data (key_of d) <> []).
  { unfold bucket. intros E. apply map_eq_nil in E.
    assert (Hin : In d (List.filter
                          (fun x => bool_decide (key_of x = key_of d)) data)).
    { apply filter_In. split; [exact Hd|]. now apply bool_decide_eq_true_2. }
    rewrite E in Hin. destruct Hin. }
  split.
  - rewrite baseline_lookup_fresh by exact Hd.
    rewrite lookup_fmap. unfold collect_patterns.
    rewrite collect_fold_lookup, lookup_empty. cbn [default app].
    destruct (bucket data (key_of d)); [congruence | reflexivity].
  - pose proof (median_In _ Hne) as Hin. unfold bucket in Hin at 2.
    apply in_map_iff in Hin as (d' & E & Hd').
    apply filter_In in Hd' as [Hd' Hk].
    apply bool_decide_eq_true_1 in Hk. eauto.
Qed.

End AnomalyMore.

(** * Properties of the data generator *)

Section GeneratorFacts.

Import Generator Binary64.

Context `{M : Math}.

Local Open Scope Q_scope.

(** The floor of a number in [-1, 0). *)
Lemma Qfloor_minus_one (x : Q) : -1 <= x -> x < 0 -> Qfloor x = (-1)%Z.
Proof.
  intros H1 H0.
  pose proof (Qfloor_le x) as Hlo. pose proof (Qlt_floor x) as Hhi.
  assert (A : (Qfloor x < 0)%Z).
  { rewrite Zlt_Qlt. change (inject_Z 0) with 0. lra. }
  assert (B : (-1 < Qfloor x + 1)%Z).
  { rewrite Zlt_Qlt. change (inject_Z (-1)) with (-1). lra. }
  lia.
Qed.

(** [random()] returns a number within [0, 1] whenever the sine of the
    seed is within [-1, 1], and it returns 1 itself when that sine is
    negative and tiny: [x] is then just below zero, [Math.floor(x)] is
    -1, and [x + 1] rounds to 1. *)
Theorem random_unit_interval_binary64 (self : EnergyDataGenerator) (s : Q) :
  seed self = Fin s -> -1 <= sinQ s <= 1 ->
  exists r : Q,
    fst (random self) = Fin r /\ 0 <= r <= 1 /\
    (- pow2 (-68) <= sinQ s <= - pow2 (-1000) -> r == 1).
Proof.
  intros Hs Hsin. unfold random. rewrite Hs. cbn [fst Math_sin].
  destruct pow2_ladder as (L1 & L2 & L3).
  destruct (lit_int 10000 ltac:(lia)) as (c & Elit & Hc).
  change (inject_Z 10000) with 10000 in Elit, Hc. rewrite Elit.
  assert (Hprod : - 10000 <= sinQ s * c <= 10000) by (rewrite Hc; lra).
  assert (HP : 10000 <= pow2 1020).
  { apply Qle_trans with (pow2 14); [vm_compute; discriminate|].
    apply pow2_le. lia. }
  unfold Fl.mul. cbn [JS.mul].
  rewrite (to_double_fin (sinQ s * c) 10000) by (exact HP || lra).
  set (x := rnd (sinQ s * c)). cbn [floor].
  pose proof (Qfloor_le x) as Hlo. pose proof (Qlt_floor x) as Hhi.
  rewrite inject_Z_plus in Hhi. change (inject_Z 1) with 1 in Hhi.
  assert (Hfrac : - 1 <= x - inject_Z (Qfloor x) <= 1) by lra.
  assert (H1 : 1 <= pow2 1020) by lra.
  unfold Fl.sub. cbn [JS.sub JS.add JS.neg].
  change (x + - inject_Z (Qfloor x)) with (x - inject_Z (Qfloor x)).
  rewrite (to_double_fin (x - inject_Z (Qfloor x)) 1) by lra.
  eexists. split; [reflexivity|].
  assert (E1 : rnd 1 == 1) by (apply (rnd_int 1); lia).
  split; [split|].
  - apply rnd_nonneg. lra.
  - rewrite <- E1. apply rnd_mono. lra.
  - intros [Hlow Hup].
    assert (Ea : rnd (- pow2 (-54)) == - pow2 (-54)) by (vm_compute; reflexivity).
    assert (Eb : rnd (- pow2 (-1000)) == - pow2 (-1000))
      by (vm_compute; reflexivity).
    assert (Ec : rnd (1 - pow2 (-54)) == 1) by (vm_compute; reflexivity).
    assert (P68 : pow2 (-54) == 16384 * pow2 (-68)).
    { replace (-54)%Z with (14 + -68)%Z by lia. rewrite pow2_add. reflexivity. }
    pose proof (pow2_pos (-68)) as Hp68. pose proof (pow2_pos (-1000)) as Hp1000.
    assert (Hx1 : - pow2 (-54) <= x).
    { rewrite <- Ea. apply rnd_mono. rewrite Hc.
      set (p := pow2 (-68)) in *. set (q := pow2 (-54)) in *. clearbody p q.
      nra. }
    assert (Hx2 : x <= - pow2 (-1000)).
    { rewrite <- Eb. apply rnd_mono. rewrite Hc.
      set (p := pow2 (-1000)) in *. clearbody p. nra. }
    assert (P54 : pow2 (-54) <= 1).
    { change 1 with (pow2 0). apply pow2_le. lia. }
    assert (Hf : Qfloor x = (-1)%Z).
    { apply Qfloor_minus_one; set (p := pow2 (-1000)) in *;
        set (q := pow2 (-54)) in *; clearbody p q; lra. }
    rewrite Hf. change (inject_Z (-1)) with (-1).
    apply Qle_antisym.
    + rewrite <- E1. apply rnd_mono.
      set (p := pow2 (-1000)) in *. clearbody p. lra.
    + rewrite <- Ec. apply rnd_mono.
      set (q := pow2 (-54)) in *. clearbody q. lra.
Qed.

End GeneratorFacts.


(** * Properties of the application and of its chart *)

Section AppFacts.

Import Optimizer Forecaster App Charts.

Context `{M : Math}.

Lemma max_floor (a q : Q) :
  exists x : Q, max (Fin a) (Fin q) = Fin x /\ (a <= x)%Q.
Proof. q_cases; eexists; (split; [reflexivity | lra]). Qed.

(** With 48 finite samples or more the forecaster returns finite
    numbers. *)
Lemma forecast_finite (data : list EnergyData) :
  (48 <= length data)%nat ->
  (forall d, In d data -> finite_sample d) ->
  exists r x y,
    forecastNextHour data = Returned r /\
    nextHourDemand r = Fin x /\ (5 <= x)%Q /\
    solarAvailable r = Fin y /\ (0 <= y)%Q.
Proof.
  intros enough finite_data. unfold forecastNextHour.
  destruct (Nat.ltb_spec (length data) 48); [lia|]. cbn zeta.
  destruct (Finite_inv _ (historical_finite data enough finite_data))
    as (h & ->).
  destruct (Finite_inv _ (trend_finite data enough finite_data)) as (t & ->).
  destruct (Finite_inv _ (weather_finite data enough finite_data))
    as (w & ->).
  destruct (Finite_inv _ (occupancy_finite data
              (getHours (timestamp (latest_of data)))
              ((getDay (timestamp (latest_of data)) =? 0)%Z
               || (getDay (timestamp (latest_of data)) =? 6)%Z)))
    as (o & ->).
  destruct (Finite_inv _ (solar_finite data enough finite_data))
    as (sol & ->).
  cbn [mul add].
  destruct (max_floor 5 ((35 # 100) * h + (25 # 100) * t + (25 # 100) * w
                         + (15 # 100) * o)) as (x & Ex & Hx).
  destruct (max_floor 0 sol) as (y & Ey & Hy).
  eexists _, x, y. split; [reflexivity|].
  cbn [nextHourDemand solarAvailable]. now rewrite Ex, Ey.
Qed.

(** One refresh of the application never fails, whatever the samples
    hold: it sets nothing for a history of 48 samples or fewer, and the
    guard keeps the forecaster away from its error.  On finite samples
    the optimizer is then given a demand of at least 5 kWh, so its three
    percentages are within [0, 100], and the detector scores every
    sample after the first 48. *)
Theorem refresh_well_defined (optimizer : EnergyOptimizer)
    (detector : Anomaly.AnomalyDetector) (data : list EnergyData)
    (gridPrice batteryLevel : Q) (timeOfUse : TimeOfUse) :
  let outcome := refresh optimizer detector data gridPrice batteryLevel
                   timeOfUse in
  let in_range (x : num) := Le (Fin 0) x /\ Le x (Fin 100) in
  (exists u, outcome = Returned u /\
             (u = None <-> (length data <= 48)%nat)) /\
  ((48 < length data)%nat ->
   (forall d, In d data -> finite_sample d) ->
   exists u x,
     outcome = Returned (Some u) /\
     nextHourDemand (r_forecast u) = Fin x /\ (5 <= x)%Q /\
     in_range (renewablePercentage (r_optimization u)) /\
     in_range (peakDemandReduction (r_optimization u)) /\
     in_range (gridStressReduction (r_optimization u)) /\
     length (r_anomalies u) = (length data - 48)%nat).
Proof.
  cbn zeta. unfold refresh. split.
  - destruct (Nat.ltb_spec 48 (length data)) as [Hlong | Hshort].
    + unfold forecastNextHour.
      destruct (Nat.ltb_spec (length data) 48); [lia|]. cbn zeta.
      eexists. split; [reflexivity|]. split; [discriminate | lia].
    + eexists. split; [reflexivity|]. split; [lia | reflexivity].
  - intros Hlong Hfinite.
    destruct (Nat.ltb_spec 48 (length data)); [|lia].
    destruct (forecast_finite data ltac:(lia) Hfinite)
      as (r & x & y & -> & Hx & Hx5 & Hy & Hy0).
    eexists _, x. split; [reflexivity|].
    cbn [r_forecast r_optimization r_anomalies]. rewrite Hx, Hy.
    split; [reflexivity|]. split; [assumption|].
    pose proof (optimize_percentages_bounded optimizer x y gridPrice
                  batteryLevel timeOfUse ltac:(lra) Hy0) as Hp.
    cbn zeta in Hp. destruct Hp as (H1 & H2 & H3).
    repeat split; try apply H1; try apply H2; try apply H3.
    unfold Anomaly.detectAnomalies, Anomaly.scored_indices. cbn [fst].
    rewrite length_map, length_seq. reflexivity.
Qed.

(** The retained history ends with the newest sample and never holds
    more than 336 samples; nothing is dropped before that size is
    reached. *)
Theorem retain_keeps_latest (prevData : list EnergyData)
    (newDataPoint : EnergyData) :
  List.last (retain prevData newDataPoint) no_sample = newDataPoint /\
  length (retain prevData newDataPoint)
  = Nat.min 336 (length prevData + 1) /\
  ((length prevData < 336)%nat ->
   retain prevData newDataPoint = prevData ++ [newDataPoint]).
Proof.
  unfold retain, slice_last. rewrite length_app. cbn [length].
  split; [|split].
  - destruct (Nat.le_gt_cases (length prevData + 1 - 336) (length prevData))
      as [Hle | Hgt]; [|lia].
    rewrite skipn_app.
    replace (length prevData + 1 - 336 - length prevData)%nat with 0%nat
      by lia.
    cbn [skipn]. apply last_last.
  - rewrite length_skipn, length_app. cbn [length]. lia.
  - intros Hshort.
    replace (length prevData + 1 - 336)%nat with 0%nat by lia. reflexivity.
Qed.

End AppFacts.

(** * The entries of a load-shifting plan *)

Section LoadShiftingEntries.

Import Optimizer.

Variables demands solarForecasts gridPrices : list num.

Lemma scan_in_window (loadKwh : num) (window : list Z) :
  forall best : option Z * num,
    fst (fold_left (pick_hour loadKwh demands solarForecasts gridPrices)
           window best) = fst best \/
    exists h, fst (fold_left
                     (pick_hour loadKwh demands solarForecasts gridPrices)
                     window best) = Some h /\ In h window.
Proof.
  induction window as [|h rest IH]; intros best; cbn [fold_left];
    [now left|].
  destruct (IH (pick_hour loadKwh demands solarForecasts gridPrices best h))
    as [E | (h' & E & Hin)].
  - rewrite E. unfold pick_hour.
    destruct (h <? _)%Z; [|now left].
    destruct (_ <? snd best); [|now left].
    right. exists h. split; [reflexivity | now left].
  - right. exists h'. split; [exact E | now right].
Qed.

(** The plan has one entry per flexible load, in the order of the
    loads: the entry carries the name of its load and the first hour of
    its window as the original hour, and the hour it recommends is an
    hour of that window, whatever the arrays hold; only a load with an
    empty window gets no hour. *)
Theorem shiftedLoads_one_per_load (loads : list FlexibleLoad) :
  Forall2
    (fun load entry =>
       sl_name entry = name load /\
       originalHour entry = head (timeWindow load) /\
       match optimalHour entry with
       | Some h => In h (timeWindow load)
       | None => timeWindow load = []
       end)
    loads
    (shiftedLoads
       (optimizeLoadShifting loads demands solarForecasts gridPrices)).
Proof.
  rewrite shiftedLoads_map.
  induction loads as [|load rest IH]; cbn [map]; constructor; [|exact IH].
  unfold shift_load.
  pose proof (scan_in_window (kwh load) (timeWindow load)
                (head (timeWindow load), PInf)) as Hscan.
  destruct (fold_left _ (timeWindow load) _) as [bestHour bestCost].
  cbn [fst sl_name originalHour optimalHour] in *.
  split; [reflexivity|]. split; [reflexivity|].
  destruct Hscan as [-> | (h & -> & Hin)]; [|exact Hin].
  destruct (timeWindow load) as [|h0 rest0]; [reflexivity | now left].
Qed.

End LoadShiftingEntries.

(** * The pattern detector and its own baseline *)

Section PatternFacts.

Import Anomaly.

Context `{M : Math}.

Lemma bucket_not_empty (data : list EnergyData) (d : EnergyData) :
  In d data -> bucket data (key_of d) <> [].
Proof.
  intros Hd. unfold bucket. intros E. apply map_eq_nil in E.
  assert (Hin : In d (List.filter
                        (fun x => bool_decide (key_of x = key_of d)) data)).
  { apply filter_In. split; [exact Hd|]. now apply bool_decide_eq_true_2. }
  rewrite E in Hin. destruct Hin.
Qed.

Lemma baseline_lookup_median (self : AnomalyDetector)
    (data : list EnergyData) (d : EnergyData) :
  In d data ->
  historicalBaseline (buildHistoricalBaseline self data) !! key_of d
  = Some (median (bucket data (key_of d))).
Proof.
  intros Hd. rewrite baseline_lookup_fresh by exact Hd.
  rewrite lookup_fmap. unfold collect_patterns.
  rewrite collect_fold_lookup, lookup_empty. cbn [default app].
  pose proof (bucket_not_empty data d Hd).
  destruct (bucket data (key_of d)); [congruence | reflexivity].
Qed.

Lemma pattern_silent_at_baseline (self : AnomalyDetector)
    (current : EnergyData) :
  historicalBaseline self !! key_of current = Some (e_kwh current) ->
  isAnomaly (detectPatternAnomaly self current) = false.
Proof.
  intros Hlook. unfold detectPatternAnomaly. rewrite Hlook.
  destruct (e_kwh current) as [x| | |]; try reflexivity.
  js_simpl. destruct (Qeq_bool_cases x 0) as [E | N]; [reflexivity|].
  cbn [negb]. js_simpl. destruct (Qeq_bool_cases x 0); [contradiction|].
  js_simpl.
  assert (Hzero : (Qabs (x + - x) / x == 0)%Q).
  { assert (E0 : (x + - x == 0)%Q) by lra. rewrite E0.
    change (Qabs 0) with 0%Q. field. exact N. }
  assert (H5 : Qltb (5 # 10) (Qabs (x + - x) / x) = false)
    by (apply Qltb_false; lra).
  assert (H3 : Qltb (3 # 10) (Qabs (x + - x) / x) = false)
    by (apply Qltb_false; lra).
  assert (H2 : Qltb (2 # 10) (Qabs (x + - x) / x) = false)
    by (apply Qltb_false; lra).
  rewrite H5, H3, H2. reflexivity.
Qed.

(** The baseline a sample is compared with is built from the history
    that holds the sample itself.  So the pattern detector never flags a
    sample whose consumption is the middle value of its own (weekday,
    hour) slot, and in particular flags no sample that is alone in its
    slot, as every sample of a history shorter than a week is. *)
Theorem pattern_silent_on_own_baseline (self : AnomalyDetector)
    (data : list EnergyData) (w : nat) (d : EnergyData) :
  In d data ->
  let after := snd (detectAnomalies self data w) in
  (e_kwh d = median (bucket data (key_of d)) ->
   isAnomaly (detectPatternAnomaly after d) = false) /\
  (bucket data (key_of d) = [e_kwh d] ->
   isAnomaly (detectPatternAnomaly after d) = false).
Proof.
  intros Hd. cbn zeta. unfold detectAnomalies. cbn [snd].
  pose proof (baseline_lookup_median self data d Hd) as Hlook.
  split; intros E; apply pattern_silent_at_baseline; rewrite Hlook.
  - now rewrite E.
  - rewrite E. reflexivity.
Qed.

End PatternFacts.

(** * Day-ahead plans, period by period *)

Section DayAheadPeriods.

Import Optimizer Binary64.

Variable self : EnergyOptimizer.

(** One call of [optimize] balances, whatever the price, the level and
    the battery are. *)
Lemma balanced64_optimize (d s M : Q) (p l : num) (tou : TimeOfUse) :
  (- M <= d <= M)%Q -> (- M <= s <= M)%Q -> (M <= pow2 1000)%Q ->
  balanced64 M d (Rounded.optimize self d s p l tou).
Proof.
  intros Hd Hs HM. unfold balanced64, Rounded.optimize.
  cbn [solarKwh batteryKwh gridKwh].
  destruct (dispatch_balance64 self d s M (p ⊗ Rounded.priceMultipliers tou) l
              tou Hd Hs HM)
    as (sol & dis & g & -> & -> & -> & Hsol & Hdis & Hg & Hbal & _).
  destruct pow2_ladder as (L1 & L2 & L3).
  assert (HM0 : (0 <= M)%Q) by lra.
  destruct (round2_near sol M Hsol) as (S & -> & HS & _); [lra|].
  destruct (round2_near dis (3 * M + 1)) as (B & -> & HB & _); [lra | lra |].
  destruct (round2_near g (4 * M + 2)) as (G & -> & HG & _); [lra | lra |].
  exists S, B, G. repeat split.
  apply Qabs_Qle_condition. unfold bound64, eps in *. split; lra.
Qed.

Lemma get_num_map_Fin (a : list Q) (i : nat) :
  (i < length a)%nat -> get_num (map Fin a) i = Fin (nth i a 0%Q).
Proof.
  intros Hi. unfold get_num.
  rewrite (nth_indep (map Fin a) NaN (Fin 0)) by (now rewrite length_map).
  apply map_nth.
Qed.

Lemma dayAhead_loop_balanced64 (solar : list Q) (prices : list num)
    (schedule : list TimeOfUse) (M : Q) (demands : list Q) :
  (M <= pow2 1000)%Q ->
  Forall (magnitude_within M) solar -> Forall (magnitude_within M) demands ->
  forall (i : nat) (l : num),
    (i + length demands <= length solar)%nat ->
    Forall2 (balanced64 M) demands
      (map fst (Rounded.dayAhead_loop self (map Fin solar) prices schedule
                  i (map Fin demands) l)).
Proof.
  intros HM Hsolar Hdem. induction Hdem as [|d rest Hd Hrest IH];
    intros i l Hlen.
  - constructor.
  - cbn [map Rounded.dayAhead_loop]. cbn [length] in Hlen.
    unfold Rounded.dayAhead_step. cbn [map fst].
    constructor; [|apply IH; lia].
    unfold balanced64. cbn [solarKwh batteryKwh gridKwh].
    rewrite get_num_map_Fin by lia.
    apply balanced64_optimize; [exact Hd | | exact HM].
    rewrite List.Forall_forall in Hsolar. apply Hsolar. apply nth_In. lia.
Qed.

(** In a day-ahead plan computed in doubles every period balances:
    [solarKwh + batteryKwh + gridKwh] is the demand of the period within
    [bound64 M], for any prices, schedule, battery and initial level,
    however the battery level evolves from one period to the next. *)
Theorem dayAhead_balance_binary64 (demands solar : list Q)
    (prices : list num) (schedule : list TimeOfUse) (l : num) (M : Q) :
  (M <= pow2 1000)%Q ->
  Forall (magnitude_within M) solar -> Forall (magnitude_within M) demands ->
  (length demands <= length solar)%nat ->
  Forall2 (balanced64 M) demands
    (Rounded.optimizeDayAhead self (map Fin demands) (map Fin solar) prices
       schedule l).
Proof.
  intros HM Hs Hd Hlen. unfold Rounded.optimizeDayAhead.
  apply dayAhead_loop_balanced64; assumption || lia.
Qed.

End DayAheadPeriods.


(** * The contextual detector *)

Section ContextualFacts.

Import Anomaly.


End ContextualFacts.

(** * The line chart *)

Section ChartFacts.

Import Charts.

Lemma fold_max_finite (l : list num) :
  Forall Finite l ->
  forall a : Q, exists m : Q,
    fold_left max l (Fin a) = Fin m /\ (a <= m)%Q /\
    (forall q : Q, In (Fin q) l -> (q <= m)%Q).
Proof.
  induction 1 as [|v l Hv _ IH]; intros a; cbn [fold_left].
  - exists a. split; [reflexivity|]. split; [lra|]. intros q [].
  - destruct v as [x| | |]; try discriminate. js_simpl.
    destruct (Qltb_cases a x) as [Hax | Hxa].
    + destruct (IH x) as (m & -> & Hm & Hall). exists m.
      split; [reflexivity|]. split; [lra|].
      intros q [[= <-] | Hq]; [lra | now apply Hall].
    + destruct (IH a) as (m & -> & Hm & Hall). exists m.
      split; [reflexivity|]. split; [lra|].
      intros q [[= <-] | Hq]; [lra | now apply Hall].
Qed.

Lemma fold_min_finite (l : list num) :
  Forall Finite l ->
  forall a : Q, exists m : Q,
    fold_left min l (Fin a) = Fin m /\ (m <= a)%Q /\
    (forall q : Q, In (Fin q) l -> (m <= q)%Q).
Proof.
  induction 1 as [|v l Hv _ IH]; intros a; cbn [fold_left].
  - exists a. split; [reflexivity|]. split; [lra|]. intros q [].
  - destruct v as [x| | |]; try discriminate. js_simpl.
    destruct (Qltb_cases x a) as [Hax | Hxa].
    + destruct (IH x) as (m & -> & Hm & Hall). exists m.
      split; [reflexivity|]. split; [lra|].
      intros q [[= <-] | Hq]; [lra | now apply Hall].
    + destruct (IH a) as (m & -> & Hm & Hall). exists m.
      split; [reflexivity|]. split; [lra|].
      intros q [[= <-] | Hq]; [lra | now apply Hall].
Qed.

Lemma plotted_values (d : EnergyData) :
  plottable d ->
  exists k z : Q, e_kwh d = Fin k /\ solar_or_zero d = Fin z.
Proof.
  intros [Hk Hs]. destruct (Finite_inv _ Hk) as (k & Ek).
  exists k. unfold solar_or_zero.
  destruct (solarGeneration d) as [v|]; [|now exists 0%Q].
  destruct (Finite_inv _ Hs) as (z & ->).
  destruct (truthy (Fin z)); eauto.
Qed.

Lemma chart_bounds (data : list EnergyData) :
  data <> [] -> (forall d, In d data -> plottable d) ->
  exists lo hi : Q,
    minValue data = Fin lo /\ maxValue data = Fin hi /\
    forall d, In d data ->
      exists k z : Q,
        e_kwh d = Fin k /\ solar_or_zero d = Fin z /\
        (lo <= k <= hi)%Q /\ (lo <= z <= hi)%Q.
Proof.
  intros Hne Hplot. destruct data as [|d0 rest]; [congruence|].
  unfold minValue, maxValue, min_of, max_of. cbn [map fold_left].
  destruct (plotted_values d0 (Hplot d0 (or_introl eq_refl)))
    as (k0 & z0 & Ek0 & Ez0).
  assert (Hhi : Forall Finite
            (map (fun d => max (e_kwh d) (solar_or_zero d)) rest)).
  { apply List.Forall_forall. intros v Hv.
    apply in_map_iff in Hv as (d & <- & Hd).
    destruct (plotted_values d (Hplot d (or_intror Hd))) as (k & z & -> & ->).
    q_cases; reflexivity. }
  assert (Hlo : Forall Finite
            (map (fun d => min (e_kwh d) (solar_or_zero d)) rest)).
  { apply List.Forall_forall. intros v Hv.
    apply in_map_iff in Hv as (d & <- & Hd).
    destruct (plotted_values d (Hplot d (or_intror Hd))) as (k & z & -> & ->).
    q_cases; reflexivity. }
  rewrite Ek0, Ez0.
  assert (E1 : exists m1 : Q, min PInf (min (Fin k0) (Fin z0)) = Fin m1 /\
                              (m1 <= k0)%Q /\ (m1 <= z0)%Q)
    by (q_cases; eexists; (split; [reflexivity | lra])).
  assert (E2 : exists m2 : Q, max NInf (max (Fin k0) (Fin z0)) = Fin m2 /\
                              (k0 <= m2)%Q /\ (z0 <= m2)%Q)
    by (q_cases; eexists; (split; [reflexivity | lra])).
  destruct E1 as (m1 & -> & Hm1k & Hm1z).
  destruct E2 as (m2 & -> & Hm2k & Hm2z).
  destruct (fold_min_finite _ Hlo m1) as (lo & -> & Hlo1 & Hlo2).
  destruct (fold_max_finite _ Hhi m2) as (hi & -> & Hhi1 & Hhi2).
  exists lo, hi. split; [reflexivity|]. split; [reflexivity|].
  intros d [<- | Hd].
  - exists k0, z0. repeat split; try assumption; lra.
  - destruct (plotted_values d (Hplot d (or_intror Hd)))
      as (k & z & Ek & Ez).
    exists k, z. split; [exact Ek|]. split; [exact Ez|].
    assert (Hmin : exists q : Q, min (e_kwh d) (solar_or_zero d) = Fin q /\
                                 (q <= k)%Q /\ (q <= z)%Q)
      by (rewrite Ek, Ez; q_cases; eexists; (split; [reflexivity | lra])).
    assert (Hmax : exists q : Q, max (e_kwh d) (solar_or_zero d) = Fin q /\
                                 (k <= q)%Q /\ (z <= q)%Q)
      by (rewrite Ek, Ez; q_cases; eexists; (split; [reflexivity | lra])).
    destruct Hmin as (qmin & Eqmin & ? & ?).
    destruct Hmax as (qmax & Eqmax & ? & ?).
    assert (lo <= qmin)%Q.
    { apply Hlo2. rewrite <- Eqmin.
      apply (in_map (fun d => min (e_kwh d) (solar_or_zero d))). exact Hd. }
    assert (qmax <= hi)%Q.
    { apply Hhi2. rewrite <- Eqmax.
      apply (in_map (fun d => max (e_kwh d) (solar_or_zero d))). exact Hd. }
    repeat split; lra.
Qed.

Lemma getY_within (lo hi h v : Q) :
  (lo <= v <= hi)%Q -> (0 <= h)%Q ->
  ((lo < hi)%Q ->
   exists y : Q,
     Fin h - ((Fin v - Fin lo) / (Fin hi - Fin lo)) * Fin h = Fin y /\
     (0 <= y <= h)%Q) /\
  ((hi <= lo)%Q ->
   Fin h - ((Fin v - Fin lo) / (Fin hi - Fin lo)) * Fin h = NaN).
Proof.
  intros Hv Hh. split; intros Hrange.
  - js_simpl. destruct (Qeq_bool_cases (hi + - lo) 0) as [E | N]; [lra|].
    js_simpl. eexists. split; [reflexivity|].
    assert (0 <= (v + - lo) / (hi + - lo))%Q
      by (apply Qle_shift_div_l; lra).
    assert ((v + - lo) / (hi + - lo) <= 1)%Q
      by (apply Qle_shift_div_r; lra).
    split; nra.
  - js_simpl. destruct (Qeq_bool_cases (hi + - lo) 0) as [E | N]; [|lra].
    js_simpl. destruct (Qltb_cases 0 (v + - lo)); [lra|].
    destruct (Qltb_cases (v + - lo) 0); [lra|]. reflexivity.
Qed.

(** For a history of plottable samples and a height that is not
    negative, every point of the two lines of the chart lies within the
    frame, between 0 and the height, as soon as two plotted values
    differ; when all plotted values are equal the range is zero and
    every point is [NaN]. *)
Theorem chart_points_within_frame (data : list EnergyData) (height : Q) :
  data <> [] -> (forall d, In d data -> plottable d) -> (0 <= height)%Q ->
  exists lo hi : Q,
    minValue data = Fin lo /\ maxValue data = Fin hi /\ (lo <= hi)%Q /\
    forall d, In d data ->
      ((lo < hi)%Q ->
       (exists y : Q, getY data height (e_kwh d) = Fin y /\
                      (0 <= y <= height)%Q) /\
       (exists y : Q, getY data height (solar_or_zero d) = Fin y /\
                      (0 <= y <= height)%Q)) /\
      ((lo == hi)%Q ->
       getY data height (e_kwh d) = NaN /\
       getY data height (solar_or_zero d) = NaN).
Proof.
  intros Hne Hplot Hh.
  destruct (chart_bounds data Hne Hplot) as (lo & hi & Elo & Ehi & Hall).
  exists lo, hi. split; [exact Elo|]. split; [exact Ehi|].
  assert (Hle : (lo <= hi)%Q).
  { destruct data as [|d0 rest]; [congruence|].
    destruct (Hall d0 (or_introl eq_refl)) as (k & z & _ & _ & Hk & _). lra. }
  split; [exact Hle|].
  intros d Hd. destruct (Hall d Hd) as (k & z & Ek & Ez & Hk & Hz).
  unfold getY, range. rewrite Elo, Ehi, Ek, Ez.
  destruct (getY_within lo hi height k Hk Hh) as [Hk1 Hk2].
  destruct (getY_within lo hi height z Hz Hh) as [Hz1 Hz2].
  split.
  - intros Hlt. split; [now apply Hk1 | now apply Hz1].
  - intros Heq. split; [apply Hk2 | apply Hz2]; lra.
Qed.

(** The points of a history of two samples or more are spread from 0 to
    100 across the chart; a history of a single sample has no position:
    its only point is at [0 / 0]. *)
Theorem chart_positions (data : list EnergyData) (index : nat) :
  ((2 <= length data)%nat -> (index < length data)%nat ->
   exists x : Q, getX data index = Fin x /\ (0 <= x <= 100)%Q) /\
  (length data = 1%nat -> getX data 0 = NaN).
Proof.
  unfold getX, of_nat, of_Z. split.
  - intros Hlen Hi. js_simpl.
    assert (Hn : (2 <= inject_Z (Z.of_nat (length data)))%Q).
    { change 2%Q with (inject_Z 2). rewrite <- Zle_Qle. lia. }
    assert (Hx : (0 <= inject_Z (Z.of_nat index)
                  <= inject_Z (Z.of_nat (length data)) + - (1))%Q).
    { split.
      - change 0%Q with (inject_Z 0). rewrite <- Zle_Qle. lia.
      - change (- (1))%Q with (inject_Z (-1)). rewrite <- inject_Z_plus.
        rewrite <- Zle_Qle. lia. }
    destruct (Qeq_bool_cases (inject_Z (Z.of_nat (length data)) + - (1)) 0)
      as [E | N]; [lra|].
    js_simpl. eexists. split; [reflexivity|].
    set (n1 := (inject_Z (Z.of_nat (length data)) + - (1))%Q) in *.
    assert (0 <= inject_Z (Z.of_nat index) / n1)%Q
      by (apply Qle_shift_div_l; lra).
    assert (inject_Z (Z.of_nat index) / n1 <= 1)%Q
      by (apply Qle_shift_div_r; lra).
    lra.
  - intros ->. reflexivity.
Qed.

End ChartFacts.

(** * The energy mix *)

Section Mix64.

Import Charts Optimizer Binary64.

Local Open Scope Q_scope.

(** A share [part / whole * 100] of a positive whole, computed in
    doubles. *)
Lemma share_near (part whole : Q) :
  0 <= part <= whole -> 0 < whole ->
  exists v : Q,
    Fin part ⊘ Fin whole ⊗ Fl.lit 100 = Fin v /\
    0 <= v <= 100 /\
    part / whole * 100 - 301 * eps <= v <= part / whole * 100 + 301 * eps.
Proof.
  intros Hpart Hwhole.
  destruct pow2_ladder as (L1 & L2 & L3).
  assert (Heps : eps == 1 # 9007199254740992) by reflexivity.
  assert (Ha : 0 <= part / whole <= 1).
  { split; [apply Qle_shift_div_l | apply Qle_shift_div_r]; lra. }
  assert (E1 : rnd 1 == 1) by (apply (rnd_int 1); lia).
  assert (E100 : rnd 100 == 100) by (apply (rnd_int 100); lia).
  destruct (lit_int 100 ltac:(lia)) as (c & Elit & Hc).
  change (inject_Z 100) with 100 in Elit, Hc. rewrite Elit.
  unfold Fl.div. cbn [JS.div].
  destruct (Qeq_bool_cases whole 0) as [E | _]; [lra|].
  rewrite (to_double_fin (part / whole) 1) by lra.
  set (a := part / whole) in *.
  pose proof (rnd_close a 1 ltac:(lra)) as Hr.
  assert (Hr0 : 0 <= rnd a) by (apply rnd_nonneg; lra).
  assert (Hr1 : rnd a <= 1) by (rewrite <- E1; apply rnd_mono; lra).
  unfold Fl.mul. cbn [JS.mul].
  rewrite (to_double_fin (rnd a * c) 100) by (try rewrite Hc; nra).
  eexists. split; [reflexivity|].
  pose proof (rnd_close (rnd a * c) 100 ltac:(rewrite Hc; nra)) as Hv.
  assert (Hv0 : 0 <= rnd (rnd a * c)) by (apply rnd_nonneg; rewrite Hc; nra).
  assert (Hv1 : rnd (rnd a * c) <= 100).
  { rewrite <- E100. apply rnd_mono. rewrite Hc. nra. }
  set (r := rnd a) in *. set (v := rnd (r * c)) in *.
  clearbody r v a. split; [lra|]. rewrite Heps in *.
  assert (Erc : r * c == r * 100) by (rewrite Hc; reflexivity).
  rewrite Erc in Hv. lra.
Qed.

(** The energy-mix chart, for grid and solar energy that are doubles and
    not negative: both percentages are numbers within [0, 100]; they
    are zero when there is no energy at all, and their sum is 100
    within [mix_tolerance] as soon as the total is 0.001 kWh or more.
    Energy taken from the battery has no share in the chart. *)
Theorem mix_percentages_binary64 (r : OptimizationResult) (g s : Q) :
  gridKwh r = Fin g -> solarKwh r = Fin s ->
  is_double g -> is_double s -> 0 <= g -> 0 <= s ->
  g + s <= pow2 1000 ->
  exists gp sp : Q,
    gridPercent r = Fin gp /\ solarPercent r = Fin sp /\
    0 <= gp <= 100 /\ 0 <= sp <= 100 /\
    (g + s == 0 -> gp == 0 /\ sp == 0) /\
    (1 # 1000 <= g + s -> Qabs (gp + sp - 100) <= mix_tolerance).
Proof.
  intros Eg Es Dg Ds Hg Hs Hsum.
  destruct pow2_ladder as (L1 & L2 & L3).
  assert (Heps : eps == 1 # 9007199254740992) by reflexivity.
  unfold gridPercent, solarPercent, total. rewrite Eg, Es.
  unfold Fl.add. cbn [JS.add].
  rewrite (to_double_fin (g + s) (pow2 1000)) by lra.
  set (t := rnd (g + s)).
  assert (Ht0 : 0 <= t) by (apply rnd_nonneg; lra).
  assert (Hgt : g <= t).
  { unfold is_double in Dg. rewrite <- Dg. apply rnd_mono. lra. }
  assert (Hst : s <= t).
  { unfold is_double in Ds. rewrite <- Ds. apply rnd_mono. lra. }
  cbn [gt lt]. destruct (Qltb_cases 0 t) as [Hpos | Hzero].
  - destruct (share_near g t) as (gp & -> & Hgp & Hgp'); [lra | lra |].
    destruct (share_near s t) as (sp & -> & Hsp & Hsp'); [lra | lra |].
    exists gp, sp. split; [reflexivity|]. split; [reflexivity|].
    split; [exact Hgp|]. split; [exact Hsp|]. split.
    + intros E0. exfalso.
      assert (Et : t == 0) by (unfold t; rewrite (rnd_comp _ _ E0); reflexivity).
      lra.
    + intros Hbig. pose proof (rnd_error (g + s)) as He. fold t in He.
      rewrite (Qabs_pos (g + s)) in He by lra.
      apply Qabs_Qle_condition in He.
      assert (Heta : pow2 (-1075) <= eps * (1 # 1000))
        by (vm_compute; discriminate).
      assert (Hsplit : g / t * 100 + s / t * 100 == (g + s) / t * 100)
        by (field; lra).
      set (u := g + s) in *.
      assert (Hu : u / t * t == u) by (field; lra).
      set (w := u / t) in *. set (eta := pow2 (-1075)) in *.
      set (a := g / t) in *. set (b := s / t) in *.
      clearbody t u w eta a b.
      assert (Hw : 1 - 3 * eps <= w <= 1 + 3 * eps).
      { rewrite Heps in *. split; nra. }
      apply Qabs_Qle_condition. unfold mix_tolerance. rewrite Heps in *.
      split; lra.
  - exists 0, 0. split; [reflexivity|]. split; [reflexivity|].
    split; [lra|]. split; [lra|]. split; [intros _; split; reflexivity|].
    intros Hbig. exfalso.
    pose proof (rnd_mono (1 # 1000) (g + s) Hbig) as Hm. fold t in Hm.
    assert (Hk : 0 < rnd (1 # 1000)) by (vm_compute; reflexivity).
    lra.
Qed.

End Mix64.

(** * The three percentages of a result *)

Ltac below H := apply (Qle_trans _ 100000001); [lra | exact H].

Section Metrics64.

Import Optimizer Binary64.

Variable self : EnergyOptimizer.

Local Open Scope Q_scope.

(** Quotients by a demand of at least one. *)
Lemma quotient_close (x y d t : Q) :
  1 <= d -> - t <= x - y <= t -> - t <= x / d - y / d <= t.
Proof.
  intros Hd Ht.
  assert (E : x / d - y / d == (x - y) / d) by (field; lra).
  rewrite E. split; [apply Qle_shift_div_l | apply Qle_shift_div_r]; nra.
Qed.

Lemma quotient_bound (x d K : Q) :
  1 <= d -> - K <= x <= K -> - K <= x / d <= K.
Proof.
  intros Hd HK.
  split; [apply Qle_shift_div_l | apply Qle_shift_div_r]; nra.
Qed.

(** Rounding to one decimal, in doubles. *)
Lemma round1_near (x K : Q) :
  - K <= x <= K -> K <= 8 * pow2 1000 ->
  exists z : Q,
    Rounded.round1 (Fin x) = Fin z /\
    x - ((5 # 100) + eps * (3 * K + 3)) <= z
      <= x + ((5 # 100) + eps * (3 * K + 3)) /\
    (0 <= x -> 0 <= z).
Proof.
  intros Hx HK. unfold Rounded.round1, Rounded.round_to.
  destruct pow2_ladder as (L1 & L2 & L3).
  destruct (lit_int 10 ltac:(lia)) as (c & Elit & Hc).
  change (inject_Z 10) with 10 in Elit, Hc. rewrite Elit.
  assert (HK0 : 0 <= K) by lra.
  assert (Exc : x * c == x * 10) by (now rewrite Hc).
  destruct (fl_mul_near x c (10 * K)) as (y1 & -> & Hy1 & Hy1pos & _).
  { rewrite Exc. lra. }
  { set (P := pow2 1000) in *. set (P2 := pow2 1020) in *.
    clearbody P P2. lra. }
  rewrite Exc in Hy1, Hy1pos.
  cbn [JS.round].
  pose proof (Qfloor_le (y1 + (1 # 2))) as Hf1.
  pose proof (Qlt_floor (y1 + (1 # 2))) as Hf2.
  rewrite inject_Z_plus in Hf2. change (inject_Z 1) with 1 in Hf2.
  set (N := inject_Z (Qfloor (y1 + (1 # 2)))) in *.
  assert (Hcn : ~ c == 0) by (rewrite Hc; discriminate).
  assert (ENc : N / c == N * (1 # 10)).
  { rewrite Hc. field. }
  assert (Heps : 0 < eps) by reflexivity.
  assert (Heps1 : eps <= 1 # 1000) by (unfold eps; unfold Qle; cbn; lia).
  assert (HepsK : 0 <= eps * K) by nra.
  assert (HepsK1 : eps * K <= K * (1 # 1000)) by nra.
  destruct (fl_div_near N c (2 * K + 1) Hcn) as (z & -> & Hz & Hzpos & _).
  { rewrite ENc. clearbody N. lra. }
  { set (P := pow2 1000) in *. set (P2 := pow2 1020) in *.
    clearbody P P2. lra. }
  rewrite ENc in Hz, Hzpos.
  exists z. split; [reflexivity|]. split.
  - clearbody N. lra.
  - intros Hx0. apply Hzpos.
    assert (H0 : 0 <= y1) by (apply Hy1pos; lra).
    assert (HN : 0 <= N).
    { unfold N. change 0 with (inject_Z 0). rewrite <- Zle_Qle.
      rewrite <- (Qfloor_Z 0). apply Qfloor_resp_le.
      change (inject_Z 0) with 0. lra. }
    clearbody N. lra.
Qed.

Lemma large_double : 100000001 <= pow2 1020.
Proof.
  apply Qle_trans with (pow2 27); [vm_compute; discriminate|].
  apply pow2_le. lia.
Qed.

(** [x / d * 100] in doubles, for a demand of at least one. *)
Lemma share_of_demand (x d : Q) :
  1 <= d -> - 1000000 <= x <= 1000000 ->
  exists v : Q,
    Fin x ⊘ Fin d ⊗ Fl.lit 100 = Fin v /\
    x / d * 100 - (1 # 20000000) <= v <= x / d * 100 + (1 # 20000000) /\
    - 100000001 <= v <= 100000001.
Proof.
  intros Hd Hx.
  pose proof large_double as Hbig.
  assert (Hd0 : ~ d == 0) by (intros E; lra).
  assert (Heps : eps == 1 # 9007199254740992) by reflexivity.
  pose proof (quotient_bound x d 1000000 Hd Hx) as Hq.
  destruct (lit_int 100 ltac:(lia)) as (c & Elit & Hc).
  change (inject_Z 100) with 100 in Elit, Hc. rewrite Elit.
  destruct (fl_div_near x d 1000000 Hd0) as (q & -> & Hq1 & _);
    [lra | below Hbig |].
  assert (Eqc : q * c == q * 100) by (now rewrite Hc).
  set (a := x / d) in *. clearbody a. rewrite Heps in *.
  destruct (fl_mul_near q c 100000001) as (v & -> & Hv & _);
    [rewrite Eqc; lra | below Hbig |].
  rewrite Eqc in Hv. rewrite Heps in *.
  exists v. split; [reflexivity|]. split; lra.
Qed.

Lemma large_double8 : 100000001 <= 8 * pow2 1000.
Proof.
  apply Qle_trans with (pow2 27); [vm_compute; discriminate|].
  apply Qle_trans with (pow2 1000); [apply pow2_le; lia|].
  pose proof (pow2_pos 1000). set (P := pow2 1000) in *. clearbody P. lra.
Qed.

Ltac below8 := apply (Qle_trans _ 100000001); [lra | exact large_double8].

(** For a demand between 1 and 100000 kWh and solar up to 100000 kWh,
    [gridStressReduction] and [renewablePercentage], computed in
    doubles, are within [metric_tolerance] of each other (they are
    rounded separately and can differ by one step of 0.1), and
    [peakDemandReduction] is zero or within that tolerance of them. *)
Theorem metrics_nearly_coincide (d s : Q) (p l : num) (tou : TimeOfUse) :
  1 <= d <= 100000 -> 0 <= s <= 100000 ->
  let r := Rounded.optimize self d s p l tou in
  exists rp gs pk : Q,
    renewablePercentage r = Fin rp /\
    gridStressReduction r = Fin gs /\
    peakDemandReduction r = Fin pk /\
    Qabs (gs - rp) <= metric_tolerance /\
    (pk == 0 \/ Qabs (pk - rp) <= metric_tolerance).
Proof.
  intros Hd Hs. cbn zeta. unfold Rounded.optimize.
  cbn [renewablePercentage gridStressReduction peakDemandReduction].
  pose proof large_double as Hbig.
  assert (Hd0 : ~ d == 0) by (intros E; lra).
  assert (Heps : eps == 1 # 9007199254740992) by reflexivity.
  destruct (dispatch_balance64 self d s 100000
              (p ⊗ Rounded.priceMultipliers tou) l tou)
    as (sol & dis & g & -> & -> & -> & Hsol & Hdis & Hg & Hbal & _);
    [lra | lra | |].
  { apply Qle_trans with (pow2 17); [vm_compute; discriminate|].
    apply pow2_le. lia. }
  rewrite Heps in Hbal.
  (* renewablePercentage *)
  cbn [gt lt]. destruct (Qltb_cases 0 d) as [_ | Hdz]; [|lra].
  destruct (fl_add_near sol dis 400001) as (a1 & -> & Ha1 & _);
    [lra | below Hbig |].
  rewrite Heps in Ha1.
  destruct (share_of_demand a1 d) as (rp0 & -> & Hrp0 & Brp0); [lra | lra |].
  pose proof (quotient_close a1 (sol + dis) d (1 # 20000000000) ltac:(lra)
                ltac:(lra)) as Hqa.
  (* gridStressReduction *)
  unfold Rounded.calculateGridStressReduction.
  destruct (lit_int 1 ltac:(lia)) as (c1 & Elit1 & Hc1).
  change (inject_Z 1) with 1 in Elit1, Hc1. rewrite Elit1.
  destruct (lit_int 100 ltac:(lia)) as (c & Elit & Hc).
  change (inject_Z 100) with 100 in Elit, Hc. rewrite Elit.
  pose proof (quotient_bound g d 400002 ltac:(lra) ltac:(lra)) as Hgd.
  destruct (fl_div_near g d 400002 Hd0) as (b1 & -> & Hb1 & _);
    [lra | below Hbig |].
  rewrite Heps in Hb1.
  destruct (fl_sub_near c1 b1 400004) as (b2 & -> & Hb2 & _);
    [rewrite Hc1; lra | below Hbig |].
  rewrite Heps, Hc1 in Hb2.
  assert (Ebc : b2 * c == b2 * 100) by (now rewrite Hc).
  destruct (fl_mul_near b2 c 40000500) as (gs0 & -> & Hgs0 & _);
    [rewrite Ebc; lra | below Hbig |].
  rewrite Ebc, Heps in Hgs0.
  (* the two quotients *)
  assert (Hxy : - (1 # 1000000000) <= (sol + dis) / d + g / d - 1
                <= 1 # 1000000000).
  { assert (E : (sol + dis) / d + g / d - 1 == (sol + dis + g) / d - d / d)
      by (field; exact Hd0).
    rewrite E. apply quotient_close; lra. }
  set (X := (sol + dis) / d) in *. set (Y := g / d) in *.
  set (A := a1 / d) in *.
  destruct (round1_near rp0 100000001) as (rp & -> & Hrp & _);
    [lra | below8 |].
  destruct (round1_near gs0 40000501) as (gs & -> & Hgs & _);
    [lra | below8 |].
  rewrite Heps in Hrp, Hgs.
  assert (Hclose : Qabs (gs - rp) <= metric_tolerance).
  { apply Qabs_Qle_condition. unfold metric_tolerance. clearbody X Y A.
    split; lra. }
  (* peakDemandReduction *)
  unfold Rounded.calculatePeakReduction.
  destruct (fl_sub_near d sol 200000) as (r1 & -> & Hr1 & _);
    [lra | below Hbig |].
  rewrite Heps in Hr1.
  destruct (fl_sub_near r1 dis 600002) as (nd & -> & Hnd & _);
    [lra | below Hbig |].
  rewrite Heps in Hnd.
  destruct ((Fin d >? Fl.lit 40) && (Fin nd <? Fl.lit 40)).
  - destruct (fl_sub_near d nd 800003) as (m & -> & Hm & _);
      [lra | below Hbig |].
    rewrite Heps in Hm.
    destruct (share_of_demand m d) as (pk0 & -> & Hpk0 & Bpk0); [lra | lra |].
    pose proof (quotient_close m (sol + dis) d (1 # 2000000000) ltac:(lra)
                  ltac:(lra)) as Hqm.
    fold X in Hqm. set (Z := m / d) in *.
    destruct (round1_near pk0 100000001) as (pk & -> & Hpk & _);
      [lra | below8 |].
    rewrite Heps in Hpk.
    exists rp, gs, pk. repeat (split; [reflexivity|]). split; [exact Hclose|].
    right. apply Qabs_Qle_condition. unfold metric_tolerance.
    clearbody X Y A Z. split; lra.
  - destruct (round1_near 0 1) as (pk & Epk & Hpk & _); [lra | below8 |].
    rewrite Epk. rewrite Heps in Hpk.
    exists rp, gs, pk. repeat (split; [reflexivity|]). split; [exact Hclose|].
    left. assert (E0 : Rounded.round1 (Fin 0) ≃ Fin 0) by (vm_compute; reflexivity).
    rewrite Epk in E0. exact E0.
Qed.

End Metrics64.

(** * The further properties on sample inputs *)

Section FurtherWitnesses.

Import Optimizer Forecaster Anomaly Generator App Charts Binary64.

Lemma plain_spike_finite :
  forall d, In d plain_spike_history -> finite_sample d.
Proof.
  intros d Hd. vm_compute in Hd.
  repeat (destruct Hd as [<- | Hd]; [repeat split; reflexivity|]).
  contradiction.
Qed.

Lemma plain_spike_within :
  forall d, In d plain_spike_history -> reading_within 10 30 d.
Proof.
  intros d Hd. vm_compute in Hd.
  repeat (destruct Hd as [<- | Hd];
          [eexists; split; [reflexivity | lra]|]).
  contradiction.
Qed.

Lemma plain_spike_nonneg : Forall nonneg_reading plain_spike_history.
Proof.
  apply List.Forall_forall. intros d Hd.
  destruct (plain_spike_within d Hd) as (q & Hq & Hr).
  exists q. split; [exact Hq | lra].
Qed.

Lemma grid_monotone_witness :
  ((10 <= 20)%Q /\ (0 <= 25)%Q /\ (0 <= 12 # 100)%Q) /\
  Le (gridKwh (optimize default_optimizer 50 20 (12 # 100) 25 Peak))
     (gridKwh (optimize default_optimizer 50 10 (12 # 100) 0 Peak)).
Proof.
  split; [lra|].
  exact (proj1 (grid_monotone default_optimizer 50 10 20 (12 # 100) 0 25 Peak
                  ltac:(lra) ltac:(lra) ltac:(lra))).
Defined.

(** A load whose first hour is past the end of a one-hour horizon. *)
Lemma invalid_default_hour_poisons_total_witness :
  let late := {| name := "late"; kwh := Fin 10; timeWindow := [5; 0]%Z |} in
  ~ valid_hour [Fin 50] 5 /\
  totalSavings
    (optimizeLoadShifting [ev_charger; late]
       [Fin 50] [Fin 0] [Fin (12 # 100)]) = NaN.
Proof.
  cbn zeta. split; [unfold valid_hour; cbn; lia|].
  apply (invalid_default_hour_poisons_total [Fin 50] [Fin 0] [Fin (12 # 100)]
           [ev_charger;
            {| name := "late"; kwh := Fin 10; timeWindow := [5; 0]%Z |}]
           {| name := "late"; kwh := Fin 10; timeWindow := [5; 0]%Z |}).
  - right. left. reflexivity.
  - intros h [= <-]. unfold valid_hour. cbn. lia.
Defined.

Lemma statistical_only_high_witness :
  isAnomaly (detectStatisticalAnomaly (H := approx_math) (new_detector Low)
               (nth 48 plain_spike_history no_sample)
               (slice plain_spike_history 0 48)) = true /\
  severity (detectStatisticalAnomaly (H := approx_math) (new_detector Low)
              (nth 48 plain_spike_history no_sample)
              (slice plain_spike_history 0 48)) = High.
Proof.
  split; [vm_compute; reflexivity|].
  apply (statistical_only_high (M := approx_math)). vm_compute. reflexivity.
Defined.

Lemma detect_records_aligned_witness :
  exists r,
    nth_error (fst (detectAnomalies (H := approx_math) (new_detector Medium)
                      plain_spike_history 48)) 0 = Some r /\
    value r = Fin 30.
Proof.
  eexists. split; [vm_compute; reflexivity|].
  exact (proj2 (proj2 (detect_records_aligned (M := approx_math)
                         (new_detector Medium) plain_spike_history 48)
                  0%nat _ eq_refl)).
Defined.

Lemma detect_confidence_range_witness :
  exists r,
    In r (fst (detectAnomalies (H := approx_math) (new_detector Medium)
                 plain_spike_history 48)) /\
    exists c : Q, a_confidence r = Some (Fin c) /\
                  (65 # 100 <= c <= 98 # 100)%Q.
Proof.
  eexists. split; [vm_compute; left; reflexivity|].
  apply (detect_confidence_range (M := approx_math) (new_detector Medium)
           plain_spike_history 48).
  vm_compute. left. reflexivity.
Defined.

Lemma detect_never_sustained_witness :
  Forall nonneg_reading plain_spike_history /\
  sustained (types (getAnomalyStats
    (fst (detectAnomalies (H := approx_math) (new_detector Medium)
            plain_spike_history 48)))) = 0%nat.
Proof.
  split; [exact plain_spike_nonneg|].
  exact (proj2 (detect_never_sustained (M := approx_math)
                  (new_detector Medium) plain_spike_history 48
                  plain_spike_nonneg)).
Defined.

Lemma baseline_is_observed_witness :
  In (hourly_sample 0 (Fin 5)) [hourly_sample 0 (Fin 5)] /\
  historicalBaseline
    (snd (detectAnomalies (H := approx_math) (new_detector Medium)
            [hourly_sample 0 (Fin 5)] 48))
    !! key_of (hourly_sample 0 (Fin 5))
  = Some (median (bucket [hourly_sample 0 (Fin 5)]
                    (key_of (hourly_sample 0 (Fin 5))))).
Proof.
  split; [left; reflexivity|].
  exact (proj1 (baseline_is_observed (M := approx_math) (new_detector Medium)
                  [hourly_sample 0 (Fin 5)] 48 (hourly_sample 0 (Fin 5))
                  (or_introl eq_refl))).
Defined.

Lemma forecast_bounds_witness :
  (48 <= length plain_spike_history)%nat /\
  exists r,
    forecastNextHour (H := approx_math) plain_spike_history = Returned r /\
    Le (Fin 5) (nextHourDemand r) /\ Le (Fin 0) (solarAvailable r).
Proof.
  assert (Hlen : (48 <= length plain_spike_history)%nat)
    by (vm_compute; lia).
  split; [exact Hlen|].
  destruct (forecast_bounds (M := approx_math) plain_spike_history Hlen
              plain_spike_finite) as (r & Hr & Hd & Hs & _).
  exists r. split; [exact Hr | split; [exact Hd | exact Hs]].
Defined.

Lemma refresh_well_defined_witness :
  ((48 < length plain_spike_history)%nat) /\
  exists u x,
    refresh (H := approx_math) default_optimizer (new_detector Medium)
      plain_spike_history (Fin (12 # 100)) (Fin 25) MidPeak
      = Returned (Some u) /\
    nextHourDemand (r_forecast u) = Fin x /\ (5 <= x)%Q /\
    length (r_anomalies u) = (length plain_spike_history - 48)%nat.
Proof.
  assert (Hlen : (48 < length plain_spike_history)%nat)
    by (vm_compute; lia).
  split; [exact Hlen|].
  destruct (proj2 (refresh_well_defined (M := approx_math) default_optimizer
                     (new_detector Medium) plain_spike_history (12 # 100) 25
                     MidPeak) Hlen plain_spike_finite)
    as (u & x & Hu & Hx & Hx5 & _ & _ & _ & Ha).
  exists u, x. repeat split; assumption.
Defined.

Lemma retain_keeps_latest_witness :
  (length [hourly_sample 0 (Fin 5)] < 336)%nat /\
  retain [hourly_sample 0 (Fin 5)] (hourly_sample 1 (Fin 7))
  = [hourly_sample 0 (Fin 5); hourly_sample 1 (Fin 7)].
Proof.
  assert (Hlen : (length [hourly_sample 0 (Fin 5)] < 336)%nat)
    by (cbn; lia).
  split; [exact Hlen|].
  exact (proj2 (proj2 (retain_keeps_latest [hourly_sample 0 (Fin 5)]
                         (hourly_sample 1 (Fin 7)))) Hlen).
Defined.

(** The 30 kWh sample that ends forty-eight hours at 10 kWh is alone in
    its slot: the pattern detector does not flag it. *)
Lemma pattern_silent_on_own_baseline_witness :
  let d := nth 48 plain_spike_history no_sample in
  In d plain_spike_history /\
  bucket plain_spike_history (key_of d) = [e_kwh d] /\
  isAnomaly
    (detectPatternAnomaly
       (snd (detectAnomalies (H := approx_math) (new_detector Medium)
               plain_spike_history 48)) d) = false.
Proof.
  cbn zeta.
  assert (Hin : In (nth 48 plain_spike_history no_sample)
                  plain_spike_history)
    by (apply nth_In; vm_compute; lia).
  assert (Hb : bucket plain_spike_history
                 (key_of (nth 48 plain_spike_history no_sample))
               = [e_kwh (nth 48 plain_spike_history no_sample)])
    by (vm_compute; reflexivity).
  split; [exact Hin|]. split; [exact Hb|].
  exact (proj2 (pattern_silent_on_own_baseline (M := approx_math)
                  (new_detector Medium) plain_spike_history 48 _ Hin) Hb).
Defined.

Lemma plain_spike_plottable :
  forall d, In d plain_spike_history -> plottable d.
Proof.
  intros d Hd. vm_compute in Hd.
  repeat (destruct Hd as [<- | Hd]; [split; [reflexivity | exact I]|]).
  contradiction.
Qed.

Lemma chart_points_within_frame_witness :
  (plain_spike_history <> [] /\ (0 <= 200)%Q) /\
  exists lo hi : Q,
    minValue plain_spike_history = Fin lo /\
    maxValue plain_spike_history = Fin hi /\ (lo <= hi)%Q.
Proof.
  split; [split; [discriminate | lra]|].
  destruct (chart_points_within_frame plain_spike_history 200
              ltac:(discriminate) plain_spike_plottable ltac:(lra))
    as (lo & hi & Elo & Ehi & Hle & _).
  exists lo, hi. split; [exact Elo | split; [exact Ehi | exact Hle]].
Defined.

Lemma chart_positions_witness :
  ((2 <= length plain_spike_history)%nat /\
   (48 < length plain_spike_history)%nat) /\
  exists x : Q, getX plain_spike_history 48 = Fin x /\ (0 <= x <= 100)%Q.
Proof.
  assert (H2 : (2 <= length plain_spike_history)%nat) by (vm_compute; lia).
  assert (H48 : (48 < length plain_spike_history)%nat) by (vm_compute; lia).
  split; [split; assumption|].
  exact (proj1 (chart_positions plain_spike_history 48) H2 H48).
Defined.


(** Three periods, with two prices only: the third takes the default
    price. *)
Lemma dayAhead_balance_binary64_witness :
  ((1000 <= pow2 1000)%Q /\
   Forall (magnitude_within 1000) [30; 0; 20]%Q /\
   Forall (magnitude_within 1000) [50; 10; 60]%Q /\
   (length [50; 10; 60]%Q <= length [30; 0; 20]%Q)%nat) /\
  Forall2 (balanced64 1000) [50; 10; 60]%Q
    (Rounded.optimizeDayAhead default_optimizer (map Fin [50; 10; 60]%Q)
       (map Fin [30; 0; 20]%Q) [Fl.lit (12 # 100); Fl.lit (8 # 100)]
       [Peak; OffPeak; MidPeak] (Fin 25)).
Proof.
  assert (HM : (1000 <= pow2 1000)%Q).
  { apply Qle_trans with (pow2 10); [vm_compute; discriminate|].
    apply pow2_le. lia. }
  assert (Hs : Forall (magnitude_within 1000) [30; 0; 20]%Q)
    by (repeat constructor; unfold magnitude_within; lra).
  assert (Hd : Forall (magnitude_within 1000) [50; 10; 60]%Q)
    by (repeat constructor; unfold magnitude_within; lra).
  split; [repeat split; try assumption; cbn; lia|].
  apply (dayAhead_balance_binary64 default_optimizer); try assumption.
  cbn. lia.
Defined.

(** With the seed [-1e-30] the sine is about [-1e-30] and [random()]
    returns 1. *)
Lemma random_unit_interval_binary64_witness :
  ((-1 <= sinQ (Math := approx_math) (- (1 # 10 ^ 30)) <= 1)%Q /\
   (- pow2 (-68) <= sinQ (Math := approx_math) (- (1 # 10 ^ 30))
    <= - pow2 (-1000))%Q) /\
  exists r : Q,
    fst (random (H := approx_math)
           (new_generator (Some (Fin (- (1 # 10 ^ 30)))))) = Fin r /\
    (r == 1)%Q.
Proof.
  assert (H1 : (-1 <= sinQ (Math := approx_math) (- (1 # 10 ^ 30)) <= 1)%Q)
    by (vm_compute; split; discriminate).
  assert (H2 : (- pow2 (-68) <= sinQ (Math := approx_math) (- (1 # 10 ^ 30))
                <= - pow2 (-1000))%Q)
    by (vm_compute; split; discriminate).
  split; [split; assumption|].
  destruct (random_unit_interval_binary64 (M := approx_math)
              (new_generator (Some (Fin (- (1 # 10 ^ 30)))))
              (- (1 # 10 ^ 30)) eq_refl H1) as (r & E & _ & Hone).
  exists r. split; [exact E | exact (Hone H2)].
Defined.

Lemma price_savings_never_negative_witness :
  ((0 < 86 # 1000)%Q /\ (0 <= 129 # 1000)%Q /\ (0 <= 50)%Q) /\
  not_negative
    (potentialSavings
       (Rounded.optimizeForRealTimePrice (Fin (129 # 1000)) (Fin (86 # 1000))
          (Fin 50) (Fin 10) (Fin 25))).
Proof.
  split; [lra|].
  apply (price_savings_never_negative (129 # 1000) (86 # 1000) 50); lra.
Defined.

(** With a price of 0.129 against an average of 0.086 the quotient is
    rounded to a double above 1.5, and the advice is to use the
    battery. *)
Example price_ratio_rounds_above :
  action (Rounded.optimizeForRealTimePrice (Fl.lit (129 # 1000))
            (Fl.lit (86 # 1000)) (Fin 50) (Fin 10) (Fin 25))
  = "use_battery"%string.
Proof. vm_compute. reflexivity. Qed.

(** A demand of 20 kWh with 1.33 kWh of solar in a mid-peak period. *)
Lemma mix_percentages_binary64_witness :
  (gridKwh (Rounded.optimize default_optimizer (Fin 20) (Fl.lit (133 # 100))
              (Fl.lit (8 # 100)) (Fl.lit (497 # 10)) MidPeak)
     = Fin (rnd (1867 # 100)) /\
   solarKwh (Rounded.optimize default_optimizer (Fin 20) (Fl.lit (133 # 100))
               (Fl.lit (8 # 100)) (Fl.lit (497 # 10)) MidPeak)
     = Fin (rnd (133 # 100)) /\
   is_double (rnd (1867 # 100)) /\ is_double (rnd (133 # 100)) /\
   (0 <= rnd (1867 # 100))%Q /\ (0 <= rnd (133 # 100))%Q /\
   (rnd (1867 # 100) + rnd (133 # 100) <= pow2 1000)%Q /\
   (1 # 1000 <= rnd (1867 # 100) + rnd (133 # 100))%Q) /\
  exists gp sp : Q,
    gridPercent (Rounded.optimize default_optimizer (Fin 20)
                   (Fl.lit (133 # 100)) (Fl.lit (8 # 100))
                   (Fl.lit (497 # 10)) MidPeak) = Fin gp /\
    solarPercent (Rounded.optimize default_optimizer (Fin 20)
                    (Fl.lit (133 # 100)) (Fl.lit (8 # 100))
                    (Fl.lit (497 # 10)) MidPeak) = Fin sp /\
    (0 <= gp <= 100)%Q /\ (0 <= sp <= 100)%Q /\
    (Qabs (gp + sp - 100) <= mix_tolerance)%Q.
Proof.
  set (r := Rounded.optimize default_optimizer (Fin 20) (Fl.lit (133 # 100))
              (Fl.lit (8 # 100)) (Fl.lit (497 # 10)) MidPeak).
  assert (Eg : gridKwh r = Fin (rnd (1867 # 100))) by (vm_compute; reflexivity).
  assert (Es : solarKwh r = Fin (rnd (133 # 100))) by (vm_compute; reflexivity).
  assert (Dg : is_double (rnd (1867 # 100))) by (vm_compute; reflexivity).
  assert (Ds : is_double (rnd (133 # 100))) by (vm_compute; reflexivity).
  assert (Hg : (0 <= rnd (1867 # 100))%Q) by (vm_compute; discriminate).
  assert (Hs : (0 <= rnd (133 # 100))%Q) by (vm_compute; discriminate).
  assert (Hlo : (1 # 1000 <= rnd (1867 # 100) + rnd (133 # 100))%Q)
    by (vm_compute; discriminate).
  assert (Hup : (rnd (1867 # 100) + rnd (133 # 100) <= pow2 1000)%Q).
  { apply Qle_trans with (pow2 10); [vm_compute; discriminate|].
    apply pow2_le. lia. }
  split; [repeat split; assumption|].
  destruct (mix_percentages_binary64 r _ _ Eg Es Dg Ds Hg Hs Hup)
    as (gp & sp & E1 & E2 & B1 & B2 & _ & Hsum).
  exists gp, sp. repeat split; try assumption; try apply B1; try apply B2.
  exact (Hsum Hlo).
Defined.

(** On that result the two percentages add up to more than 100. *)
Example mix_sum_above_hundred :
  exists gp sp : Q,
    gridPercent (Rounded.optimize default_optimizer (Fin 20)
                   (Fl.lit (133 # 100)) (Fl.lit (8 # 100))
                   (Fl.lit (497 # 10)) MidPeak) = Fin gp /\
    solarPercent (Rounded.optimize default_optimizer (Fin 20)
                    (Fl.lit (133 # 100)) (Fl.lit (8 # 100))
                    (Fl.lit (497 # 10)) MidPeak) = Fin sp /\
    (100 < gp + sp)%Q.
Proof.
  do 2 eexists.
  split; [vm_compute; reflexivity|].
  split; [vm_compute; reflexivity|].
  vm_compute. reflexivity.
Qed.

Lemma metrics_nearly_coincide_witness :
  ((1 <= 20 <= 100000)%Q /\ (0 <= 133 # 100 <= 100000)%Q) /\
  exists rp gs pk : Q,
    renewablePercentage
      (Rounded.optimize default_optimizer (Fin 20) (Fin (133 # 100))
         (Fl.lit (8 # 100)) (Fl.lit (497 # 10)) MidPeak) = Fin rp /\
    gridStressReduction
      (Rounded.optimize default_optimizer (Fin 20) (Fin (133 # 100))
         (Fl.lit (8 # 100)) (Fl.lit (497 # 10)) MidPeak) = Fin gs /\
    peakDemandReduction
      (Rounded.optimize default_optimizer (Fin 20) (Fin (133 # 100))
         (Fl.lit (8 # 100)) (Fl.lit (497 # 10)) MidPeak) = Fin pk /\
    (Qabs (gs - rp) <= metric_tolerance)%Q /\
    ((pk == 0)%Q \/ (Qabs (pk - rp) <= metric_tolerance)%Q).
Proof.
  split; [lra|].
  apply (metrics_nearly_coincide default_optimizer 20 (133 # 100)); lra.
Defined.

(** On that call, with the solar energy as the double nearest to 1.33,
    the renewable percentage is reported as 6.7 and the grid stress
    reduction as 6.6. *)
Example metrics_one_step_apart :
  renewablePercentage
    (Rounded.optimize default_optimizer (Fin 20) (Fl.lit (133 # 100))
       (Fl.lit (8 # 100)) (Fl.lit (497 # 10)) MidPeak) ≃ Fl.lit (67 # 10) /\
  gridStressReduction
    (Rounded.optimize default_optimizer (Fin 20) (Fl.lit (133 # 100))
       (Fl.lit (8 # 100)) (Fl.lit (497 # 10)) MidPeak) ≃ Fl.lit (66 # 10).
Proof. split; vm_compute; reflexivity. Qed.

End FurtherWitnesses.
